(** * calibre-kavita-mirror: the synchronisation engine of [lib.ts]

    A shallow embedding of the metadata parser, the path policy, the linker,
    the target scanner, the safe remover and the reconciler, together with
    the file-system calls they make, and the properties of the specification
    checked against them. *)

From Stdlib Require Import ZArith NArith Ascii String DecimalN.
From stdpp Require Import base tactics option list gmap fin_maps.

Local Open Scope N_scope.

(** ** JavaScript strings

    A JavaScript string is a sequence of UTF-16 code units; regular
    expressions without the [u] flag, [length], [padStart], [startsWith] and
    [endsWith] all work on code units. *)

(** An ASCII literal as a JavaScript string. *)
Definition js (s : string) : list N :=
  List.map N_of_ascii (list_ascii_of_string s).
Arguments js : simpl never.

(** [\s] of a regular expression: WhiteSpace and LineTerminator code points. *)
Definition is_whitespace (c : N) : bool :=
  (  (9 <=? c) && (c <=? 13)
  || (c =? 32) || (c =? 160) || (c =? 5760)
  || ((8192 <=? c) && (c <=? 8202))
  || (c =? 8232) || (c =? 8233) || (c =? 8239) || (c =? 8287)
  || (c =? 12288) || (c =? 65279))%bool.

(** The character class [[a-zA-Z0-9 ]]. *)
Definition is_alnum_space (c : N) : bool :=
  (  ((97 <=? c) && (c <=? 122))
  || ((65 <=? c) && (c <=? 90))
  || ((48 <=? c) && (c <=? 57))
  || (c =? 32))%bool.

(** [s.replace(/\s+/g, " ")]: [in_run] tells that the previous code unit was
    white space, so that the current run has already been replaced. *)
Fixpoint replace_ws_runs (in_run : bool) (s : list N) : list N :=
  match s with
  | [] => []
  | c :: r =>
      if is_whitespace c
      then (if in_run then replace_ws_runs true r
            else 32 :: replace_ws_runs true r)
      else c :: replace_ws_runs false r
  end.

(** [s.replace(/[^a-zA-Z0-9 ]/g, "")]. *)
Definition strip_non_alnum (s : list N) : list N :=
  List.filter is_alnum_space s.

(** The two replacements that [calculateTargetPath] applies to every
    free-text component. *)
Definition sanitize (s : list N) : list N :=
  strip_non_alnum (replace_ws_runs false s).

(** [s.padStart(n, fill)]. *)
Definition padStart (n : nat) (fill : list N) (s : list N) : list N :=
  if (n <=? length s)%nat then s
  else match fill with
       | [] => s
       | _ => take (n - length s) (mjoin (replicate (n - length s) fill)) ++ s
       end.

Fixpoint starts_with (p s : list N) : bool :=
  match p, s with
  | [], _ => true
  | _ :: _, [] => false
  | a :: p', b :: s' => (a =? b) && starts_with p' s'
  end.

(** [s.endsWith(suffix)]. *)
Definition ends_with (suffix s : list N) : bool :=
  starts_with (rev suffix) (rev s).

(** ** JavaScript numbers

    A finite number is represented by a decimal [m * 10^e] with the digits
    that [Number::toString] prints (the shortest decimal that reads back as
    the same double); [parseFloat] is exact on literals of at most 15
    significant digits whose value is in the range of the normal doubles;
    the rounding of longer literals to the nearest double, overflow to
    [Infinity] and underflow to zero are outside the model. *)

Inductive number :=
| NaN
| Infinity (negative : bool)
| Finite (negative : bool) (m : N) (e : Z).

Definition digit_char (d : N) : N := 48 + d.

Fixpoint uint_chars (u : Decimal.uint) : list N :=
  match u with
  | Decimal.Nil => []
  | Decimal.D0 r => digit_char 0 :: uint_chars r
  | Decimal.D1 r => digit_char 1 :: uint_chars r
  | Decimal.D2 r => digit_char 2 :: uint_chars r
  | Decimal.D3 r => digit_char 3 :: uint_chars r
  | Decimal.D4 r => digit_char 4 :: uint_chars r
  | Decimal.D5 r => digit_char 5 :: uint_chars r
  | Decimal.D6 r => digit_char 6 :: uint_chars r
  | Decimal.D7 r => digit_char 7 :: uint_chars r
  | Decimal.D8 r => digit_char 8 :: uint_chars r
  | Decimal.D9 r => digit_char 9 :: uint_chars r
  end.

(** The decimal numeral of a natural number, without leading zeros. *)
Definition decimal_digits (n : N) : list N := uint_chars (N.to_uint n).

Fixpoint drop_zeros (s : list N) : list N :=
  match s with
  | c :: r => if c =? 48 then drop_zeros r else s
  | [] => []
  end.

(** [Number::toString] (radix 10) of ECMAScript: with [s] the digits, [k]
    their number and [n] the position of the decimal point. *)
Definition Number_toString (x : number) : list N :=
  match x with
  | NaN => js "NaN"
  | Infinity neg => (if neg then js "-" else []) ++ js "Infinity"
  | Finite neg m e =>
      if m =? 0 then js "0"
      else
        let all := decimal_digits m in
        let s := rev (drop_zeros (rev all)) in
        let k := Z.of_nat (length s) in
        let n := (Z.of_nat (length all) + e)%Z in
        let body :=
          if ((k <=? n) && (n <=? 21))%Z%bool then
            s ++ replicate (Z.to_nat (n - k)) 48
          else if ((0 <? n) && (n <=? 21))%Z%bool then
            take (Z.to_nat n) s ++ js "." ++ drop (Z.to_nat n) s
          else if ((-6 <? n) && (n <=? 0))%Z%bool then
            js "0." ++ replicate (Z.to_nat (- n)) 48 ++ s
          else
            let x := (n - 1)%Z in
            let sign := if (x <? 0)%Z then js "-" else js "+" in
            let ex := decimal_digits (Z.to_N (Z.abs x)) in
            match s with
            | [d] => [d] ++ js "e" ++ sign ++ ex
            | _ => take 1 s ++ js "." ++ drop 1 s ++ js "e" ++ sign ++ ex
            end in
        (if neg then js "-" else []) ++ body
  end.

Definition is_digit (c : N) : bool := (48 <=? c) && (c <=? 57).

Fixpoint take_digits (s : list N) : list N * list N :=
  match s with
  | c :: r => if is_digit c
              then let '(d, rest) := take_digits r in (c :: d, rest)
              else ([], s)
  | [] => ([], [])
  end.

Definition digits_value (d : list N) : N :=
  fold_left (fun acc c => 10 * acc + (c - 48)) d 0.

Fixpoint trim_start (s : list N) : list N :=
  match s with
  | c :: r => if is_whitespace c then trim_start r else s
  | [] => []
  end.

(** The exponent part of a StrDecimalLiteral: [e] or [E], an optional sign
    and at least one digit; anything else is not part of the literal. *)
Definition parse_exponent (s : list N) : Z :=
  match s with
  | c :: r =>
      if (c =? 101) || (c =? 69) then
        let '(neg, r') :=
          match r with
          | 45 :: r' => (true, r')
          | 43 :: r' => (false, r')
          | _ => (false, r)
          end in
        match fst (take_digits r') with
        | [] => 0%Z
        | d => let v := Z.of_N (digits_value d) in if neg then (- v)%Z else v
        end
      else 0%Z
  | [] => 0%Z
  end.

(** [parseFloat(s)]: leading white space is skipped, the longest prefix that
    is a StrDecimalLiteral is read, and [NaN] is returned when there is
    none. *)
Definition parseFloat (s : list N) : number :=
  let t := trim_start s in
  let '(neg, u) :=
    match t with
    | 45 :: r => (true, r)
    | 43 :: r => (false, r)
    | _ => (false, t)
    end in
  if starts_with (js "Infinity") u then Infinity neg
  else
    let '(int_part, r1) := take_digits u in
    let '(frac_part, r2) :=
      match r1 with
      | 46 :: r => take_digits r
      | _ => ([], r1)
      end in
    match int_part ++ frac_part with
    | [] => NaN
    | ds => Finite neg (digits_value ds)
              (parse_exponent r2 - Z.of_nat (length frac_part))
    end.

(** ** The metadata parser *)

(** The ["#text"] of an identifier: [z.union([z.string(), z.number()])]. *)
Inductive text_value :=
| TextString (s : list N)
| TextNumber (x : number).

(** One entry of ["dc:identifier"]. *)
Record Identifier := {
  id_text : text_value;
  opf_scheme : option (list N)
}.

(** One entry of [meta]. *)
Record Meta := {
  meta_name : list N;
  meta_content : list N
}.

(** [validation.data.package.metadata]: what [opfSchema] accepts. The XML
    parser and the schema validation are library code; a document is given
    here by the outcome of [opfSchema.safeParse(xmlParser.parse(text))]. *)
Record PackageMetadata := {
  dc_identifier : option (list Identifier);
  dc_title : option (list N);
  dc_creator : option (list N);
  meta : option (list Meta)
}.

Record OpfMetadata := {
  id : option text_value;
  title : option (list N);
  creator : option (list N);
  series : option (list N);
  seriesIndex : option number
}.

Definition has_scheme (s : list N) (i : Identifier) : bool :=
  bool_decide (opf_scheme i = Some s).

Definition has_name (s : list N) (m : Meta) : bool :=
  bool_decide (meta_name m = s).

(** [a || b] on values that are objects or [undefined]. *)
Definition or_else {A} (a b : option A) : option A :=
  match a with Some _ => a | None => b end.

(** The body of [parseOpf] after a successful validation. *)
Definition extractMetadata (metadata : PackageMetadata) : OpfMetadata :=
  let identifiers :=
    or_else (ids ← dc_identifier metadata; List.find (has_scheme (js "uuid")) ids)
   (or_else (ids ← dc_identifier metadata; List.find (has_scheme (js "calibre")) ids)
            (ids ← dc_identifier metadata; head ids)) in
  let series := ms ← meta metadata; List.find (has_name (js "calibre:series")) ms in
  let seriesIndex :=
    ms ← meta metadata; List.find (has_name (js "calibre:series_index")) ms in
  let seriesIndexValue := (fun m => parseFloat (meta_content m)) <$> seriesIndex in
  {| id := id_text <$> identifiers;
     title := dc_title metadata;
     creator := dc_creator metadata;
     series := meta_content <$> series;
     seriesIndex := seriesIndexValue |}.

(** [parseOpf]: [None] stands for the thrown ["Invalid OPF format"] error of
    a document that fails validation. *)
Definition parseOpf (validation : option PackageMetadata) : option OpfMetadata :=
  extractMetadata <$> validation.

(** ** The path policy *)

(** [x?.replace(..).replace(..) || dflt]: the default is taken when the field
    is absent and also when what is left of it is the empty string. *)
Definition sanitized_or (x : option (list N)) (dflt : list N) : list N :=
  match x with
  | None => dflt
  | Some s => match sanitize s with [] => dflt | t => t end
  end.

(** The branch of a book without a series. *)
Definition titleCreatorPath (metadata : OpfMetadata) : list N * list N :=
  let effectiveTitle := sanitized_or (title metadata) (js "Unknown Title") in
  let effectiveCreator := sanitized_or (creator metadata) (js "Unknown Creator") in
  let fileName := effectiveTitle ++ js " - " ++ effectiveCreator in
  (fileName, fileName ++ js ".epub").

(** [calculateTargetPath]: the first branch is taken when
    [series == null || series === "" || seriesIndex == null]; a [NaN] index
    is not [null]. *)
Definition calculateTargetPath (metadata : OpfMetadata) : list N * list N :=
  match series metadata, seriesIndex metadata with
  | Some s, Some ix =>
      if bool_decide (s = []) then titleCreatorPath metadata
      else
        let seriesName := sanitize s in
        let seriesIndex := padStart 2 (js "0") (Number_toString ix) in
        let fileName := seriesName ++ js " - " ++ seriesIndex in
        (seriesName, fileName ++ js ".epub")
  | _, _ => titleCreatorPath metadata
  end.

(** ** The file system

    A path is resolved to a key: whether it is absolute, and its non-empty
    components (repeated and trailing separators do not matter; [.] and [..]
    are not interpreted, and symbolic links are not modelled). The file
    system is one table from keys to nodes; a regular file carries its inode
    number, and the link count of an inode is the number of keys of the
    table that name it. *)

(** [s.split("/")]. *)
Fixpoint split_slash (s : list N) : list (list N) :=
  match s with
  | [] => [[]]
  | c :: r =>
      if c =? 47 then [] :: split_slash r
      else match split_slash r with
           | h :: t => (c :: h) :: t
           | [] => [[c]]
           end
  end.

Definition nonempty (s : list N) : bool :=
  match s with [] => false | _ => true end.

Definition components (p : list N) : list (list N) :=
  List.filter nonempty (split_slash p).

Abbreviation key := (bool * list (list N))%type.

Definition path_key (p : list N) : key :=
  (starts_with (js "/") p, components p).

(** The key of an entry below the directory of key [k]. *)
Definition kapp (k : key) (names : list (list N)) : key :=
  (k.1, k.2 ++ names).

Definition parent (k : key) : key := (k.1, removelast k.2).

Inductive node :=
| File (ino : N)
| Dir (links : nat).

#[global] Instance node_eq_dec : EqDecision node.
Proof. solve_decision. Defined.

Definition names_inode (i : N) (entry : key * node) : Prop :=
  entry.2 = File i.

#[global] Instance names_inode_dec i entry : Decision (names_inode i entry).
Proof. unfold names_inode. apply _. Defined.

(** The number of directory entries that name inode [i]. *)
Definition nlink (fs : gmap key node) (i : N) : nat :=
  size (filter (names_inode i) fs).

(** What [stat] and a [Dirent] tell about a node. *)
Record Stats := {
  isDirectory : bool;
  isFile : bool;
  st_nlink : nat
}.

Definition node_stats (fs : gmap key node) (nd : node) : Stats :=
  match nd with
  | File i => {| isDirectory := false; isFile := true; st_nlink := nlink fs i |}
  | Dir n => {| isDirectory := true; isFile := false; st_nlink := n |}
  end.

Record Dirent := {
  d_name : list N;
  d_isDirectory : bool;
  d_isFile : bool
}.

(** ** Calls, outcomes and the monad of the asynchronous functions *)

Inductive call :=
| Stat (p : list N)
| Mkdir (p : list N)
| Unlink (p : list N)
| Link (existing new : list N)
| Readdir (p : list N).

#[global] Instance call_eq_dec : EqDecision call.
Proof. solve_decision. Defined.

(** A call together with whether it succeeded. *)
Abbreviation trace := (list (call * bool)).

Inductive outcome (A : Type) :=
| Returned (a : A)
| Thrown.
Arguments Returned {A} a.
Arguments Thrown {A}.

(** An asynchronous function: from the file system before, the outcome, the
    file system after and the calls made. *)
Definition IO (A : Type) : Type :=
  gmap key node -> outcome A * gmap key node * trace.

#[global] Instance IO_ret : MRet IO :=
  fun A (a : A) fs => (Returned a, fs, []).

Definition throw {A} : IO A := fun fs => (Thrown, fs, []).

#[global] Instance IO_bind : MBind IO :=
  fun A B (f : A -> IO B) (m : IO A) fs =>
    match m fs with
    | (Returned a, fs1, t1) =>
        let '(r, fs2, t2) := f a fs1 in (r, fs2, t1 ++ t2)
    | (Thrown, fs1, t1) => (Thrown, fs1, t1)
    end.

(** [try { m } catch { h }]. *)
Definition try_catch {A} (m : IO A) (h : IO A) : IO A :=
  fun fs =>
    match m fs with
    | (Returned a, fs1, t1) => (Returned a, fs1, t1)
    | (Thrown, fs1, t1) =>
        let '(r, fs2, t2) := h fs1 in (r, fs2, t1 ++ t2)
    end.

(** [stat(p)]. *)
Definition stat (p : list N) : IO Stats :=
  fun fs =>
    match fs !! path_key p with
    | Some nd => (Returned (node_stats fs nd), fs, [(Stat p, true)])
    | None => (Thrown, fs, [(Stat p, false)])
    end.

(** [unlink(p)]: removes the entry of a regular file and fails on a missing
    path and on a directory. *)
Definition unlink (p : list N) : IO unit :=
  fun fs =>
    match fs !! path_key p with
    | Some (File _) => (Returned tt, delete (path_key p) fs, [(Unlink p, true)])
    | _ => (Thrown, fs, [(Unlink p, false)])
    end.

Definition is_dir (fs : gmap key node) (k : key) : bool :=
  match fs !! k with Some (Dir _) => true | _ => false end.

(** [link(existing, new)]: [existing] must be a regular file, [new] must not
    exist and its parent must be a directory. The whole table is one volume
    that allows hard links: the failure of [link] between two devices or for
    lack of permission is outside the model. *)
Definition link (existing new : list N) : IO unit :=
  fun fs =>
    match fs !! path_key existing, fs !! path_key new with
    | Some (File i), None =>
        if is_dir fs (parent (path_key new))
        then (Returned tt, <[path_key new := File i]> fs, [(Link existing new, true)])
        else (Thrown, fs, [(Link existing new, false)])
    | _, _ => (Thrown, fs, [(Link existing new, false)])
    end.

(** The directories [done ++ [c1]], [done ++ [c1; c2]], ... are created
    where they are missing; a regular file in the way is an error. *)
Fixpoint mkdirs (a : bool) (done todo : list (list N)) (fs : gmap key node)
  : option (gmap key node) :=
  match todo with
  | [] => Some fs
  | c :: r =>
      match fs !! (a, done ++ [c]) with
      | Some (Dir _) => mkdirs a (done ++ [c]) r fs
      | Some (File _) => None
      | None => mkdirs a (done ++ [c]) r (<[(a, done ++ [c]) := Dir 2]> fs)
      end
  end.

(** [mkdir(p, { recursive: true })]. *)
Definition mkdir_recursive (p : list N) : IO unit :=
  fun fs =>
    match mkdirs (path_key p).1 [] (path_key p).2 fs with
    | Some fs' => (Returned tt, fs', [(Mkdir p, true)])
    | None => (Thrown, fs, [(Mkdir p, false)])
    end.

(** The name of [k'] when it is an entry of the directory of key [k]. *)
Definition child_of (k : key) (entry : key * node) : option Dirent :=
  match rev entry.1.2 with
  | name :: above =>
      if bool_decide ((entry.1.1, rev above) = k)
      then Some {| d_name := name;
                   d_isDirectory := match entry.2 with Dir _ => true | _ => false end;
                   d_isFile := match entry.2 with File _ => true | _ => false end |}
      else None
  | [] => None
  end.

(** [readdir(p, { withFileTypes: true })]. *)
Definition readdir (p : list N) : IO (list Dirent) :=
  fun fs =>
    if is_dir fs (path_key p)
    then (Returned (omap (child_of (path_key p)) (map_to_list fs)), fs,
          [(Readdir p, true)])
    else (Thrown, fs, [(Readdir p, false)]).

(** ** The safe remover *)

Definition count_slashes (p : list N) : nat :=
  length (List.filter (fun c => c =? 47) p).

(** The guard of [safeUnlink]. *)
Definition unsafe_path (filePath : list N) : bool :=
  (count_slashes filePath <? 2)%nat || starts_with (js "//") filePath.

Definition safeUnlink (filePath : list N) : IO bool :=
  if unsafe_path filePath then mret false
  else unlink filePath;; mret true.

(** ** The linker *)

(** [!!metadata.title]: absent and empty titles are falsy. *)
Definition truthy (s : option (list N)) : bool :=
  match s with Some (_ :: _) => true | _ => false end.

(** [targetStat?.nlink && targetStat.nlink < 2] *)
Definition single_link (st : Stats) : bool :=
  negb (st_nlink st =? 0)%nat && (st_nlink st <? 2)%nat.

Definition linkFile (outDir source : list N) (metadata : OpfMetadata)
  : IO (option (list N)) :=
  if negb (truthy (title metadata)) then mret None
  else
    let '(directory, fileName) := calculateTargetPath metadata in
    let target := outDir ++ js "/" ++ directory ++ js "/" ++ fileName in
    try_catch
      (mkdir_recursive (outDir ++ js "/" ++ directory);;
       targetStat ← try_catch (st ← stat target; mret (Some st)) (mret None);
       match targetStat with
       | Some st =>
           if single_link st then
             removed ← safeUnlink target;
             if negb removed then mret None
             else link source target;;
                  mret (Some (directory ++ js "/" ++ fileName))
           else mret (Some (directory ++ js "/" ++ fileName))
       | None =>
           link source target;;
           mret (Some (directory ++ js "/" ++ fileName))
       end)
      (mret None).

(** ** The target scanner *)

(** A [Set<string>] keeps its elements in insertion order. *)
Definition set_has (x : list N) (s : list (list N)) : bool :=
  bool_decide (x ∈ s).

Definition set_add (x : list N) (s : list (list N)) : list (list N) :=
  if set_has x s then s else s ++ [x].

Definition set_delete (x : list N) (s : list (list N)) : list (list N) :=
  List.filter (fun y => negb (bool_decide (y = x))) s.

(** The inner loop of [getFilesInTargetDir]. *)
Fixpoint scan_books (dirName : list N) (bookFiles : list Dirent)
    (epubs : list (list N)) : list (list N) :=
  match bookFiles with
  | [] => epubs
  | file :: rest =>
      scan_books dirName rest
        (if d_isFile file && ends_with (js ".epub") (d_name file)
         then set_add (dirName ++ js "/" ++ d_name file) epubs
         else epubs)
  end.

(** The outer loop of [getFilesInTargetDir]. *)
Fixpoint scan_series (outDir : list N) (seriesDirs : list Dirent)
    (epubs : list (list N)) : IO (list (list N)) :=
  match seriesDirs with
  | [] => mret epubs
  | dir :: rest =>
      if negb (d_isDirectory dir) then scan_series outDir rest epubs
      else
        bookFiles ← readdir (outDir ++ js "/" ++ d_name dir);
        scan_series outDir rest (scan_books (d_name dir) bookFiles epubs)
  end.

Definition getFilesInTargetDir (outDir : list N) : IO (list (list N)) :=
  seriesDirs ← readdir outDir;
  scan_series outDir seriesDirs [].

(** ** The reconciler

    [readSourceFiles()] reads and parses the source tree; its result, the
    list of source entries, is an argument here. *)

(** The first loop of [syncFiles]: the entries are linked in order and the
    confirmed relative paths leave [targetFiles]. *)
Fixpoint link_all (outDir : list N) (sourceFiles : list (list N * OpfMetadata))
    (targetFiles : list (list N)) : IO (list (list N)) :=
  match sourceFiles with
  | [] => mret targetFiles
  | (sourcePath, metadata) :: rest =>
      targetFiles' ←
        try_catch
          (targetPath ← linkFile outDir sourcePath metadata;
           mret (match targetPath with
                 | Some p => if nonempty p && set_has p targetFiles
                             then set_delete p targetFiles else targetFiles
                 | None => targetFiles
                 end))
          (mret targetFiles);
      link_all outDir rest targetFiles'
  end.

(** The second loop of [syncFiles]. *)
Fixpoint prune_all (outDir : list N) (unused : list (list N)) : IO unit :=
  match unused with
  | [] => mret tt
  | unusedFile :: rest =>
      let parts := split_slash unusedFile in
      let seriesName := nth 0 parts (js "undefined") in
      let fileName := nth 1 parts (js "undefined") in
      let filePath := outDir ++ js "/" ++ seriesName ++ js "/" ++ fileName in
      try_catch
        (removed ← safeUnlink filePath;
         if negb removed then throw else mret tt)
        (mret tt);;
      prune_all outDir rest
  end.

Definition syncFiles (outDir : list N)
    (sourceFiles : list (list N * OpfMetadata)) : IO unit :=
  targetFiles ← getFilesInTargetDir outDir;
  unused ← link_all outDir sourceFiles targetFiles;
  prune_all outDir unused.


(** ** Definitions used to state the properties *)

(** A metadata record with its series index taken away. *)
Definition without_index (m : OpfMetadata) : OpfMetadata :=
  {| id := id m; title := title m; creator := creator m;
     series := series m; seriesIndex := None |}.

(** The naming of a book without a series as the specification words it:
    the default name is substituted only when the field is absent. *)
Definition spec_component (x : option (list N)) (dflt : list N) : list N :=
  match x with Some s => sanitize s | None => dflt end.

Definition spec_titleCreatorPath (m : OpfMetadata) : list N * list N :=
  let stem := spec_component (title m) (js "Unknown Title")
              ++ js " - "
              ++ spec_component (creator m) (js "Unknown Creator") in
  (stem, stem ++ js ".epub").

(** What the code substitutes: the default name also replaces a field of
    which nothing is left after sanitization. *)
Definition effective_component (x : option (list N)) (dflt : list N) : list N :=
  match x with
  | None => dflt
  | Some s => if bool_decide (sanitize s = []) then dflt else sanitize s
  end.

(** The index label of a series book: the rendering of the number, with
    zeros in front up to a width of two. *)
Definition index_label (ix : number) : list N :=
  replicate (2 - length (Number_toString ix)) 48 ++ Number_toString ix.

Definition mk_meta (t c s : option string) (ix : option number) : OpfMetadata :=
  {| id := None; title := js <$> t; creator := js <$> c;
     series := js <$> s; seriesIndex := ix |}.

(** A book whose title has no character of [A-Za-z0-9 ]. *)
Definition stripped_title_book : OpfMetadata :=
  mk_meta (Some "???"%string) (Some "Jane Doe"%string) None None.

(** A document whose series index is not a number. *)
Definition unparsable_index_doc : PackageMetadata :=
  {| dc_identifier := None;
     dc_title := Some (js "A Book");
     dc_creator := Some (js "Jane Doe");
     meta := Some [ {| meta_name := js "calibre:series";
                       meta_content := js "Books" |};
                    {| meta_name := js "calibre:series_index";
                       meta_content := js "first" |} ] |}.

Definition slash_free (s : list N) : bool :=
  forallb (fun c => negb (c =? 47)) s.

Definition dot_free (s : list N) : bool :=
  forallb (fun c => negb (c =? 46)) s.

(** The name of a directory entry: not empty and without separator. *)
Definition entry_name (s : list N) : Prop :=
  s <> [] /\ slash_free s = true.

(** The key of [outDir + "/" + directory]. *)
Definition dir_key (outDir directory : list N) : key :=
  kapp (path_key outDir) (components directory).

(** The key of [outDir + "/" + directory + "/" + fileName]. *)
Definition target_key (outDir directory fileName : list N) : key :=
  kapp (dir_key outDir directory) (components fileName).

(** [k] is the directory of key [root] or lies below it. *)
Definition under (root k : key) : Prop :=
  k.1 = root.1 /\ root.2 `prefix_of` k.2.

(** Every entry below the first level lies in a directory. *)
Definition closed (fs : gmap key node) : Prop :=
  forall a cs c nd,
    fs !! (a, cs ++ [c]) = Some nd -> cs <> [] -> is_dir fs (a, cs) = true.

(** The components of every key are names of directory entries. *)
Definition names_ok (fs : gmap key node) : Prop :=
  forall k nd, fs !! k = Some nd -> Forall entry_name k.2.

(** The file system as the reconciler expects it: a tree of well-named
    entries in which the target root is a directory. *)
Definition target_ready (outDir : list N) (fs : gmap key node) : Prop :=
  outDir <> [] /\ closed fs /\ names_ok fs /\ is_dir fs (path_key outDir) = true.

(** The source entries name regular files outside the target tree. *)
Definition sources_ready (outDir : list N)
    (entries : list (list N * OpfMetadata)) (fs : gmap key node) : Prop :=
  forall src m, (src, m) ∈ entries ->
    ~ under (path_key outDir) (path_key src)
    /\ exists i, fs !! path_key src = Some (File i).

(** Inode [j] is the inode of the file of some source entry. *)
Definition backed (entries : list (list N * OpfMetadata))
    (fs : gmap key node) (j : N) : Prop :=
  exists src m, (src, m) ∈ entries /\ fs !! path_key src = Some (File j).

(** The link-count heuristic is sound: a file of the target tree with
    several links is a link of a source file. *)
Definition links_backed (outDir : list N)
    (entries : list (list N * OpfMetadata)) (fs : gmap key node) : Prop :=
  forall k j, under (path_key outDir) k -> fs !! k = Some (File j) ->
    nlink fs j = 1%nat \/ backed entries fs j.

(** The calls of a trace that created a hard link or removed a file. *)
Definition is_change (e : call * bool) : bool :=
  match e with
  | (Unlink _, true) | (Link _ _, true) => true
  | _ => false
  end.

Definition changes (t : trace) : trace := List.filter is_change t.

(** The paths of which [unlink] removed a file. *)
Definition removed_paths (t : trace) : list (list N) :=
  omap (fun e => match e with (Unlink p, true) => Some p | _ => None end) t.

(** [mkdir] found or made the directory of key [dk]. *)
Definition dir_made (fs : gmap key node) (dk : key) (fs1 : gmap key node) : Prop :=
  (is_dir fs dk = true /\ fs1 = fs)
  \/ (fs !! dk = None /\ fs1 = <[dk := Dir 2]> fs).

(** What [linkFile] does for an entry with a title whose source file
    exists, by the state of the directory [dk] and of the target [tk]:
    the returned relative path, the file system after, and the calls. *)
Inductive link_case (fs : gmap key node) (dk tk sk : key)
    (dirp target source rel : list N)
  : option (list N) -> gmap key node -> trace -> Prop :=
| LC_blocked i :
    fs !! dk = Some (File i) ->
    link_case fs dk tk sk dirp target source rel
      None fs [(Mkdir dirp, false)]
| LC_kept fs1 nd :
    dir_made fs dk fs1 -> fs1 !! tk = Some nd ->
    single_link (node_stats fs1 nd) = false ->
    link_case fs dk tk sk dirp target source rel
      (Some rel) fs1 [(Mkdir dirp, true); (Stat target, true)]
| LC_refused fs1 nd :
    dir_made fs dk fs1 -> fs1 !! tk = Some nd ->
    single_link (node_stats fs1 nd) = true ->
    unsafe_path target = true ->
    link_case fs dk tk sk dirp target source rel
      None fs1 [(Mkdir dirp, true); (Stat target, true)]
| LC_not_a_file fs1 n :
    dir_made fs dk fs1 -> fs1 !! tk = Some (Dir n) ->
    single_link (node_stats fs1 (Dir n)) = true ->
    unsafe_path target = false ->
    link_case fs dk tk sk dirp target source rel
      None fs1
      [(Mkdir dirp, true); (Stat target, true); (Unlink target, false)]
| LC_replaced fs1 j i :
    dir_made fs dk fs1 -> fs1 !! tk = Some (File j) ->
    nlink fs1 j = 1%nat ->
    unsafe_path target = false ->
    fs1 !! sk = Some (File i) ->
    link_case fs dk tk sk dirp target source rel
      (Some rel) (<[tk := File i]> (delete tk fs1))
      [(Mkdir dirp, true); (Stat target, true); (Unlink target, true);
       (Link source target, true)]
| LC_created fs1 i :
    dir_made fs dk fs1 -> fs1 !! tk = None ->
    fs1 !! sk = Some (File i) ->
    link_case fs dk tk sk dirp target source rel
      (Some rel) (<[tk := File i]> fs1)
      [(Mkdir dirp, true); (Stat target, false); (Link source target, true)].

(** One call of [linkFile] on a source entry. *)
Definition link_step (outDir source : list N) (m : OpfMetadata)
    (fs : gmap key node) (r : option (list N)) (fs' : gmap key node)
    (t : trace) : Prop :=
  (truthy (title m) = false /\ r = None /\ fs' = fs /\ t = [])
  \/ (truthy (title m) = true
      /\ link_case fs
           (dir_key outDir (calculateTargetPath m).1)
           (target_key outDir (calculateTargetPath m).1 (calculateTargetPath m).2)
           (path_key source)
           (outDir ++ js "/" ++ (calculateTargetPath m).1)
           (outDir ++ js "/" ++ (calculateTargetPath m).1
              ++ js "/" ++ (calculateTargetPath m).2)
           source
           ((calculateTargetPath m).1 ++ js "/" ++ (calculateTargetPath m).2)
           r fs' t).

(** What the first loop of [syncFiles] does with the returned path. *)
Definition confirm (r : option (list N)) (targetFiles : list (list N))
  : list (list N) :=
  match r with
  | Some p => if nonempty p && set_has p targetFiles
              then set_delete p targetFiles else targetFiles
  | None => targetFiles
  end.

(** [s] is the relative path of an e-book file in a subdirectory of the
    target root. *)
Definition target_file (outDir : list N) (fs : gmap key node) (s : list N)
  : Prop :=
  exists d f j n,
    s = d ++ js "/" ++ f
    /\ fs !! kapp (path_key outDir) [d] = Some (Dir n)
    /\ fs !! kapp (path_key outDir) [d; f] = Some (File j)
    /\ ends_with (js ".epub") f = true.

(** The path that the second loop of [syncFiles] makes of an element of
    [targetFiles]. *)
Definition prune_path (outDir unusedFile : list N) : list N :=
  outDir ++ js "/" ++ nth 0 (split_slash unusedFile) (js "undefined")
         ++ js "/" ++ nth 1 (split_slash unusedFile) (js "undefined").

(** The effect of one round of the second loop on the file system. *)
Definition prune_one (outDir : list N) (fs : gmap key node)
    (unusedFile : list N) : gmap key node :=
  if unsafe_path (prune_path outDir unusedFile) then fs
  else match fs !! path_key (prune_path outDir unusedFile) with
       | Some (File _) => delete (path_key (prune_path outDir unusedFile)) fs
       | _ => fs
       end.

Definition prune_fs (outDir : list N) (unused : list (list N))
    (fs : gmap key node) : gmap key node :=
  foldl (prune_one outDir) fs unused.

(** The calls of the second loop. *)
Fixpoint prune_trace (outDir : list N) (unused : list (list N))
    (fs : gmap key node) : trace :=
  match unused with
  | [] => []
  | s :: rest =>
      (if unsafe_path (prune_path outDir s) then []
       else [(Unlink (prune_path outDir s),
              match fs !! path_key (prune_path outDir s) with
              | Some (File _) => true
              | _ => false
              end)])
      ++ prune_trace outDir rest (prune_one outDir fs s)
  end.

(** The relative and the absolute target path of an entry. *)
Definition rel_path (m : OpfMetadata) : list N :=
  (calculateTargetPath m).1 ++ js "/" ++ (calculateTargetPath m).2.

Definition target_path (outDir : list N) (m : OpfMetadata) : list N :=
  outDir ++ js "/" ++ (calculateTargetPath m).1
         ++ js "/" ++ (calculateTargetPath m).2.

(** The target of the entry is a link of a source file. *)
Definition holds_target (outDir : list N)
    (entries : list (list N * OpfMetadata)) (fs : gmap key node)
    (e : list N * OpfMetadata) : Prop :=
  truthy (title e.2) = true
  /\ is_dir fs (dir_key outDir (calculateTargetPath e.2).1) = true
  /\ exists j,
       fs !! target_key outDir (calculateTargetPath e.2).1
               (calculateTargetPath e.2).2 = Some (File j)
       /\ backed entries fs j.

(** The linker has nothing to do for the entry: it has no title, or a
    regular file is in the way of its directory, or its target exists and,
    when it is a regular file, is a link of a source file that has left
    [targetFiles], or a file that the safe remover refuses to remove. *)
Definition settled (outDir : list N)
    (entries : list (list N * OpfMetadata)) (T : list (list N))
    (fs : gmap key node) (e : list N * OpfMetadata) : Prop :=
  truthy (title e.2) = false
  \/ (exists i, fs !! dir_key outDir (calculateTargetPath e.2).1 = Some (File i))
  \/ (is_dir fs (dir_key outDir (calculateTargetPath e.2).1) = true
      /\ exists nd,
           fs !! target_key outDir (calculateTargetPath e.2).1
                   (calculateTargetPath e.2).2 = Some nd
           /\ forall j, nd = File j ->
                (backed entries fs j /\ rel_path e.2 ∉ T)
                \/ unsafe_path (target_path outDir e.2) = true).

(** The file [s] of the target tree is still in [targetFiles], or refused
    by the safe remover, or the target of an entry linked before. *)
Definition covered (outDir : list N)
    (entries linked : list (list N * OpfMetadata)) (T : list (list N))
    (fs : gmap key node) (s : list N) : Prop :=
  s ∈ T
  \/ unsafe_path (prune_path outDir s) = true
  \/ exists e, e ∈ linked /\ holds_target outDir entries fs e
               /\ s = rel_path e.2.

(** ** Concrete file systems and source entries *)

Definition fs_of (l : list (string * node)) : gmap key node :=
  list_to_map (List.map (fun pn => (path_key (js pn.1), pn.2)) l).

Definition book (t : string) (s : option string) (ix : option string)
  : OpfMetadata :=
  mk_meta (Some t) (Some "Jane Doe"%string) s (parseFloat <$> (js <$> ix)).

(** An empty target tree next to a library of two books. *)
Definition library_fs : list (string * node) :=
  [ ("/in", Dir 3); ("/in/Jane Doe", Dir 4);
    ("/in/Jane Doe/A Book", Dir 2);
    ("/in/Jane Doe/A Book/A Book.epub", File 1);
    ("/in/Jane Doe/B Book", Dir 2);
    ("/in/Jane Doe/B Book/B Book.epub", File 2);
    ("/out", Dir 2) ]%string.

Definition a_book_path : list N := js "/in/Jane Doe/A Book/A Book.epub".
Definition b_book_path : list N := js "/in/Jane Doe/B Book/B Book.epub".

(** A file directly in the target root that no source entry stands for. *)
Definition unused_root_fs : gmap key node :=
  fs_of (library_fs ++ [ ("/out/unused-file.epub", File 9) ]%string).

(** A single-link file directly in the target root, under the name that
    the path policy gives to a book whose series has no character of
    [A-Za-z0-9 ]. *)
Definition root_stray_fs : gmap key node :=
  fs_of (library_fs ++ [ ("/out/ - 01.epub", File 7) ]%string).

Definition odd_series_entries : list (list N * OpfMetadata) :=
  [ (a_book_path, book "A Book" (Some "!") (Some "1")) ]%string.

(** Two books with the same series and index. *)
Definition colliding_entries : list (list N * OpfMetadata) :=
  [ (a_book_path, book "A Book" (Some "Books") (Some "1"));
    (b_book_path, book "B Book" (Some "Books") (Some "1")) ]%string.

(** Two files of the target tree that are links of each other and of no
    source file; the first is the target of the only source entry. *)
Definition twin_targets_fs : gmap key node :=
  fs_of (library_fs ++
         [ ("/out/Books", Dir 2);
           ("/out/Books/Books - 01.epub", File 5);
           ("/out/Books/Books - 02.epub", File 5) ]%string).

Definition first_book_entries : list (list N * OpfMetadata) :=
  [ (a_book_path, book "A Book" (Some "Books") (Some "1")) ]%string.

(** A single-link file of the target tree under the path that the path
    policy gives to the only source entry. *)
Definition stray_target_fs : gmap key node :=
  fs_of (library_fs ++
         [ ("/out/Books", Dir 2);
           ("/out/Books/Books - 01.epub", File 5) ]%string).

(** A target tree with the link of a book of the library and with a file
    that no book stands for. *)
Definition mirrored_fs : gmap key node :=
  fs_of (library_fs ++
         [ ("/out/Books", Dir 2);
           ("/out/Books/Books - 01.epub", File 1);
           ("/out/Old", Dir 2);
           ("/out/Old/old.epub", File 3) ]%string).

(** The file system and the calls of a run. *)
Definition fs_after {A} (run : outcome A * gmap key node * trace)
  : gmap key node := run.1.2.

Definition calls_of {A} (run : outcome A * gmap key node * trace) : trace :=
  run.2.

(** ** Checks of the assumptions on a given file system *)

#[global] Instance under_dec root k : Decision (under root k).
Proof. unfold under. apply _. Defined.

Definition closedb (fs : gmap key node) : bool :=
  forallb (fun kn : key * node =>
             match rev kn.1.2 with
             | _ :: c :: r => is_dir fs (kn.1.1, rev (c :: r))
             | _ => true
             end) (map_to_list fs).

Definition entry_nameb (s : list N) : bool := nonempty s && slash_free s.

Definition names_okb (fs : gmap key node) : bool :=
  forallb (fun kn : key * node => forallb entry_nameb kn.1.2) (map_to_list fs).

Definition target_readyb (outDir : list N) (fs : gmap key node) : bool :=
  nonempty outDir && closedb fs && names_okb fs && is_dir fs (path_key outDir).

Definition sources_readyb (outDir : list N)
    (entries : list (list N * OpfMetadata)) (fs : gmap key node) : bool :=
  forallb (fun e : list N * OpfMetadata =>
             negb (bool_decide (under (path_key outDir) (path_key e.1)))
             && match fs !! path_key e.1 with
                | Some (File _) => true
                | _ => false
                end) entries.

Definition links_backedb (outDir : list N)
    (entries : list (list N * OpfMetadata)) (fs : gmap key node) : bool :=
  forallb (fun kn : key * node =>
             match kn.2 with
             | File j =>
                 negb (bool_decide (under (path_key outDir) kn.1))
                 || (nlink fs j =? 1)%nat
                 || existsb (fun e : list N * OpfMetadata =>
                               bool_decide (fs !! path_key e.1 = Some (File j)))
                      entries
             | Dir _ => true
             end) (map_to_list fs).

(** ** The source scanner and the pass as [main] runs it

    The text of a file is not part of the file-system table, and no function
    of [lib.ts] writes to a file: [content] gives the text of the file with a
    given inode, and [validate] stands for
    [opfSchema.safeParse(xmlParser.parse(text))], the library code in front
    of the body of [parseOpf]. *)

Section Source.
Variable content : N -> list N.
Variable validate : list N -> option PackageMetadata.

(** [readFile(p, "utf-8")]: fails on a missing path and on a directory.
    Reading is not among the recorded calls. *)
Definition readFile (p : list N) : IO (list N) :=
  fun fs =>
    match fs !! path_key p with
    | Some (File i) => (Returned (content i), fs, [])
    | _ => (Thrown, fs, [])
    end.

(** [parseOpf] on the text of a document: the thrown error is [Thrown]. *)
Definition parseOpfText (opfContent : list N) : IO OpfMetadata :=
  match parseOpf (validate opfContent) with
  | Some metadata => mret metadata
  | None => throw
  end.

(** [file.isFile() && file.name.endsWith(".epub")] *)
Definition is_epub (file : Dirent) : bool :=
  d_isFile file && ends_with (js ".epub") (d_name file).

(** [file.isFile() && file.name === "metadata.opf"] *)
Definition is_opf (file : Dirent) : bool :=
  d_isFile file && bool_decide (d_name file = js "metadata.opf").

(** The loop of [readSourceFiles] over the book folders of an author. *)
Fixpoint read_books (authorPath : list N) (bookFolders : list Dirent)
    (files : list (list N * OpfMetadata)) : IO (list (list N * OpfMetadata)) :=
  match bookFolders with
  | [] => mret files
  | bookFolder :: rest =>
      if negb (d_isDirectory bookFolder) then read_books authorPath rest files
      else
        let bookPath := authorPath ++ js "/" ++ d_name bookFolder in
        bookFiles ← readdir bookPath;
        match List.find is_epub bookFiles, List.find is_opf bookFiles with
        | Some epubFile, Some opfFile =>
            metadata ←
              try_catch
                (text ← readFile (bookPath ++ js "/" ++ d_name opfFile);
                 parsed ← parseOpfText text;
                 mret (Some parsed))
                (mret None);
            match metadata with
            | Some parsed =>
                read_books authorPath rest
                  (files ++ [(bookPath ++ js "/" ++ d_name epubFile, parsed)])
            | None => read_books authorPath rest files
            end
        | _, _ => read_books authorPath rest files
        end
  end.

(** The loop of [readSourceFiles] over the author folders. *)
Fixpoint read_authors (inDir : list N) (authorFolders : list Dirent)
    (files : list (list N * OpfMetadata)) : IO (list (list N * OpfMetadata)) :=
  match authorFolders with
  | [] => mret files
  | authorFolder :: rest =>
      if negb (d_isDirectory authorFolder) then read_authors inDir rest files
      else
        let authorPath := inDir ++ js "/" ++ d_name authorFolder in
        bookFolders ← readdir authorPath;
        files' ← read_books authorPath bookFolders files;
        read_authors inDir rest files'
  end.

Definition readSourceFiles (inDir : list N)
  : IO (list (list N * OpfMetadata)) :=
  authorFolders ← readdir inDir;
  read_authors inDir authorFolders [].

(** [syncFiles()] with its first statement, the scan of the source tree. *)
Definition syncFiles_scanned (inDir outDir : list N) : IO unit :=
  sourceFiles ← readSourceFiles inDir;
  syncFiles outDir sourceFiles.

(** [main]: whatever [syncFiles] throws is logged. *)
Definition main (inDir outDir : list N) : IO unit :=
  try_catch (syncFiles_scanned inDir outDir) (mret tt).

End Source.

(** ** Further definitions used to state properties *)

(** No two spaces in a row. *)
Fixpoint single_spaced (s : list N) : bool :=
  match s with
  | a :: r =>
      match r with
      | b :: _ => negb ((a =? 32) && (b =? 32)) && single_spaced r
      | [] => true
      end
  | [] => true
  end.

(** What may follow a numeral without being read as a part of it: nothing,
    or a code unit that is no digit, no decimal point and no exponent
    letter. *)
Definition ends_numeral (rest : list N) : bool :=
  match rest with
  | [] => true
  | c :: _ => negb (is_digit c || (c =? 46) || (c =? 101) || (c =? 69))
  end.

(** A name that the path policy keeps: not empty, of ASCII letters, digits
    and single spaces. *)
Definition clean_name (s : list N) : Prop :=
  s <> [] /\ Forall (fun c => is_alnum_space c = true) s
  /\ single_spaced s = true.

(** What [linkFile] does once [mkdir] has found or made the directory, by
    the state of the target [tk] and of the source [sk], whatever the
    source is. *)
Definition link_outcome (fs1 : gmap key node) (tk sk : key)
    (dirp target source rel : list N)
  : outcome (option (list N)) * gmap key node * trace :=
  match fs1 !! tk with
  | Some nd =>
      if single_link (node_stats fs1 nd) then
        if unsafe_path target
        then (Returned None, fs1, [(Mkdir dirp, true); (Stat target, true)])
        else
          match nd with
          | File _ =>
              match delete tk fs1 !! sk with
              | Some (File i) =>
                  (Returned (Some rel), <[tk := File i]> (delete tk fs1),
                   [(Mkdir dirp, true); (Stat target, true);
                    (Unlink target, true); (Link source target, true)])
              | _ =>
                  (Returned None, delete tk fs1,
                   [(Mkdir dirp, true); (Stat target, true);
                    (Unlink target, true); (Link source target, false)])
              end
          | Dir _ =>
              (Returned None, fs1,
               [(Mkdir dirp, true); (Stat target, true);
                (Unlink target, false)])
          end
      else (Returned (Some rel), fs1,
            [(Mkdir dirp, true); (Stat target, true)])
  | None =>
      match fs1 !! sk with
      | Some (File i) =>
          (Returned (Some rel), <[tk := File i]> fs1,
           [(Mkdir dirp, true); (Stat target, false);
            (Link source target, true)])
      | _ =>
          (Returned None, fs1,
           [(Mkdir dirp, true); (Stat target, false);
            (Link source target, false)])
      end
  end.

(** Two books that the path policy maps to the same target path. *)
Definition a_book : OpfMetadata :=
  (book "A Book" (Some "Books") (Some "1"))%string.

Definition b_book : OpfMetadata :=
  (book "B Book" (Some "Books") (Some "1"))%string.

(** The entries of the directory of key [k], as [readdir] lists them. *)
Definition children (fs : gmap key node) (k : key) : list Dirent :=
  omap (child_of k) (map_to_list fs).

Section SourceEntries.
Variable content : N -> list N.
Variable validate : list N -> option PackageMetadata.

(** The entry that [readSourceFiles] makes of the book folder [bookFolder]
    of the author folder of path [authorPath] and key [ak]. *)
Definition book_entry (fs : gmap key node) (ak : key) (authorPath : list N)
    (bookFolder : Dirent) (e : list N * OpfMetadata) : Prop :=
  exists epubFile opfFile i,
    d_isDirectory bookFolder = true
    /\ List.find is_epub (children fs (kapp ak [d_name bookFolder]))
       = Some epubFile
    /\ List.find is_opf (children fs (kapp ak [d_name bookFolder]))
       = Some opfFile
    /\ fs !! kapp ak [d_name bookFolder; d_name opfFile] = Some (File i)
    /\ parseOpf (validate (content i)) = Some e.2
    /\ e.1 = (authorPath ++ js "/" ++ d_name bookFolder)
               ++ js "/" ++ d_name epubFile.

(** A source entry: the path of an e-book file of a book folder of an
    author folder of the source root, with the metadata of the file
    [metadata.opf] of the same book folder. *)
Definition source_entry (inDir : list N) (fs : gmap key node)
    (e : list N * OpfMetadata) : Prop :=
  exists a b f i j,
    e.1 = ((inDir ++ js "/" ++ a) ++ js "/" ++ b) ++ js "/" ++ f
    /\ path_key e.1 = kapp (path_key inDir) [a; b; f]
    /\ is_dir fs (kapp (path_key inDir) [a]) = true
    /\ is_dir fs (kapp (path_key inDir) [a; b]) = true
    /\ fs !! kapp (path_key inDir) [a; b; f] = Some (File j)
    /\ ends_with (js ".epub") f = true
    /\ fs !! kapp (path_key inDir) [a; b; js "metadata.opf"] = Some (File i)
    /\ parseOpf (validate (content i)) = Some e.2.

End SourceEntries.

(** Neither root lies in the tree of the other. *)
Definition apart (inDir outDir : list N) : Prop :=
  ~ under (path_key outDir) (path_key inDir)
  /\ ~ under (path_key inDir) (path_key outDir).

(** A library of two books with their metadata files next to an empty
    target tree; the text of a metadata file is stood for by a letter. *)
Definition catalogued_fs : gmap key node :=
  fs_of (library_fs ++
         [ ("/in/Jane Doe/A Book/metadata.opf", File 11);
           ("/in/Jane Doe/B Book/metadata.opf", File 12);
           ("/in/Jane Doe/A Book/A Book (2).epub", File 15);
           ("/in/Jane Doe/B Book/notes.txt", File 13);
           ("/in/readme.txt", File 14) ]%string).

Definition catalogue_content (i : N) : list N :=
  if i =? 11 then js "A" else if i =? 12 then js "B" else [].

Definition book_document (t : string) : PackageMetadata :=
  {| dc_identifier := None;
     dc_title := Some (js t);
     dc_creator := Some (js "Jane Doe");
     meta := Some [ {| meta_name := js "calibre:series";
                       meta_content := js "Books" |};
                    {| meta_name := js "calibre:series_index";
                       meta_content := js "1" |} ] |}.

(** The text of the second book does not validate. *)
Definition catalogue_validate (text : list N) : option PackageMetadata :=
  if bool_decide (text = js "A") then Some (book_document "A Book") else None.

(** ** The startup checks of [env.ts] *)

(** How the module ends: [process.exit(code)], or the export of the two
    directories. *)
Inductive startup :=
| Exited (code : nat)
| Exported (inDir outDir : list N).

(** [stat(p).catch(() => null)] *)
Definition stat_or_null (p : list N) : IO (option Stats) :=
  try_catch (st ← stat p; mret (Some st)) (mret None).

(** [!st || !st.isDirectory()] *)
Definition not_a_directory (st : option Stats) : bool :=
  match st with
  | Some s => negb (isDirectory s)
  | None => true
  end.

(** [try { await m } catch { }] *)
Definition ignoring_errors (m : IO unit) : IO unit := try_catch m (mret tt).

Section Startup.
(** The inode that the file system gives to a file that is created. *)
Variable new_ino : N.

(** [Bun.write(p, text)]: an existing regular file keeps its inode, a
    missing file is created together with the directories that are missing
    on the way to it, and a directory cannot be written. Writing is not
    among the recorded calls. *)
Definition write_file (p : list N) : IO unit :=
  fun fs =>
    match fs !! path_key p with
    | Some (File _) => (Returned tt, fs, [])
    | Some (Dir _) => (Thrown, fs, [])
    | None =>
        match mkdirs (path_key p).1 [] (removelast (path_key p).2) fs with
        | Some fs' => (Returned tt, <[path_key p := File new_ino]> fs', [])
        | None => (Thrown, fs, [])
        end
    end.

(** The module [env.ts], from the two environment variables. *)
Definition check_env (SOURCE_DIR TARGET_DIR : option (list N)) : IO startup :=
  if negb (truthy SOURCE_DIR) || negb (truthy TARGET_DIR) then mret (Exited 1)
  else
    let inDirRaw := default [] SOURCE_DIR in
    let outDirRaw := default [] TARGET_DIR in
    inDirStat ← stat_or_null inDirRaw;
    if not_a_directory inDirStat then mret (Exited 1)
    else
      outDirStat ← stat_or_null outDirRaw;
      if not_a_directory outDirStat then mret (Exited 1)
      else
        let testFile := inDirRaw ++ js "/test-link" in
        let targetFile := outDirRaw ++ js "/test-link" in
        try_catch
          (write_file testFile;;
           link testFile targetFile;;
           unlink testFile;;
           unlink targetFile;;
           mret (Exported inDirRaw outDirRaw))
          (ignoring_errors (unlink testFile);;
           ignoring_errors (unlink targetFile);;
           mret (Exited 1)).

End Startup.

(** ** The watcher of [index.ts] *)

(** The condition under which the callback of [watch] runs [main]:
    [filename?.endsWith(".opf") ||
     (eventType === "rename" && filename?.endsWith(".epub"))]. *)
Definition triggers (eventType : list N) (filename : option (list N)) : bool :=
  match filename with
  | Some name =>
      ends_with (js ".opf") name
      || (bool_decide (eventType = js "rename")
          && ends_with (js ".epub") name)
  | None => false
  end.

Section Watcher.
Variable content : N -> list N.
Variable validate : list N -> option PackageMetadata.

(** The callback of [watch(inDir, { recursive: true }, ...)]. *)
Definition on_event (inDir outDir : list N) (eventType : list N)
    (filename : option (list N)) : IO unit :=
  if triggers eventType filename then main content validate inDir outDir
  else mret tt.

End Watcher.

(** ** The naming rules in the words of the specification *)

(** The code points that [\s] matches: the WhiteSpace and LineTerminator
    code points of ECMAScript. *)
Definition white_space : list N :=
  [ 9; 10; 11; 12; 13; 32; 160; 5760;
    8192; 8193; 8194; 8195; 8196; 8197; 8198; 8199; 8200; 8201; 8202;
    8232; 8233; 8239; 8287; 12288; 65279 ].

(** The characters of [[A-Za-z0-9 ]]. *)
Definition kept_characters : list N :=
  js "ABCDEFGHIJKLMNOPQRSTUVWXYZabcdefghijklmnopqrstuvwxyz0123456789 ".

(** The string does not begin with white space. *)
Definition starts_black (s : list N) : Prop :=
  match s with
  | [] => True
  | c :: _ => c ∉ white_space
  end.

(** [collapsed s t]: [t] is [s] with every maximal run of white space
    replaced by a single space, and every other code unit kept. *)
Inductive collapsed : list N -> list N -> Prop :=
| collapsed_end : collapsed [] []
| collapsed_keep c s t :
    c ∉ white_space -> collapsed s t -> collapsed (c :: s) (c :: t)
| collapsed_run w s t :
    w <> [] -> Forall (fun c => c ∈ white_space) w -> starts_black s ->
    collapsed s t -> collapsed (w ++ s) (32 :: t).

(** The sanitization rule: collapse the runs of white space to a single
    space, then strip every character outside [[A-Za-z0-9 ]]. *)
Definition sanitized (s out : list N) : Prop :=
  exists t, collapsed s t /\ out = filter (fun c => c ∈ kept_characters) t.

(** The number is the natural number [n], whatever digits and exponent
    stand for it: 1, 1.0 and 0.1e1 are the same index. *)
Definition is_natural (ix : number) (n : N) : Prop :=
  match ix with
  | Finite false m e =>
      if (0 <=? e)%Z then n = m * 10 ^ Z.to_N e
      else m = n * 10 ^ Z.to_N (- e)
  | _ => False
  end.

Definition count_digits (s : list N) : nat := length (List.filter is_digit s).

(** Some contents of calibre:series_index and the index labels that
    [String(seriesIndex).padStart(2, "0")] makes of them. *)
Definition index_labels : list (string * string) :=
  [ ("1", "01"); ("1.0", "01"); ("7e0", "07"); ("10", "10"); ("100", "100");
    ("0", "00"); ("1.5", "1.5"); ("0.5", "0.5"); ("12.25", "12.25");
    ("-1", "-1"); ("-12", "-12"); ("-1.5", "-1.5");
    ("5e-7", "5e-7"); ("1.5e-7", "1.5e-7"); ("1e21", "1e+21");
    ("Infinity", "Infinity"); ("-Infinity", "-Infinity") ]%string.

(** A series book with a negative index, and one with an infinite index. *)
Definition negative_index_book : OpfMetadata :=
  mk_meta (Some "A Book"%string) (Some "Jane Doe"%string)
    (Some "Books"%string) (Some (parseFloat (js "-1"))).

Definition infinite_index_book : OpfMetadata :=
  mk_meta (Some "A Book"%string) (Some "Jane Doe"%string)
    (Some "Books"%string) (Some (parseFloat (js "Infinity"))).

(** ** What a pass changes at one place of the file system *)

(** The path of the directory entry that a call removes or creates. *)
Definition changed_path (c : call) : option (list N) :=
  match c with
  | Unlink p => Some p
  | Link _ p => Some p
  | _ => None
  end.

(** The successful removals and links of a trace at the entry of key [k],
    in the order of the calls. *)
Definition changes_at (k : key) (t : trace) : trace :=
  List.filter
    (fun e => is_change e
              && bool_decide (path_key <$> changed_path e.1 = Some k)) t.

(** A target tree with the link of a book of the library, with an e-book
    file that no book stands for, with a cover image beside the link and
    with a file directly in the target root. *)
Definition cluttered_fs : gmap key node :=
  fs_of (library_fs ++
         [ ("/out/Books", Dir 2);
           ("/out/Books/Books - 01.epub", File 1);
           ("/out/Books/cover.jpg", File 6);
           ("/out/Old", Dir 2);
           ("/out/Old/old.epub", File 3);
           ("/out/unused-file.epub", File 9) ]%string).

(** * Properties *)

(** ** Strings *)

Lemma sanitize_alnum s : Forall (fun c => is_alnum_space c = true) (sanitize s).
Proof.
  unfold sanitize, strip_non_alnum.
  apply List.Forall_forall. intros c Hc.
  apply List.filter_In in Hc. tauto.
Qed.

Lemma replace_ws_runs_only_spaces b s c :
  c ∈ replace_ws_runs b s -> is_whitespace c = true -> c = 32.
Proof.
  revert b. induction s as [|a r IH]; intros b Hin Hws; simpl in Hin.
  - inversion Hin.
  - destruct (is_whitespace a) eqn:Ha.
    + destruct b; [eauto|].
      apply elem_of_cons in Hin as [->|Hin]; eauto.
    + apply elem_of_cons in Hin as [->|Hin]; [congruence | eauto].
Qed.

Lemma replace_ws_runs_keeps_others b s :
  List.filter (fun c => negb (is_whitespace c)) (replace_ws_runs b s)
  = List.filter (fun c => negb (is_whitespace c)) s.
Proof.
  revert b. induction s as [|a r IH]; intros b; simpl; [done|].
  destruct (is_whitespace a) eqn:Ha; simpl.
  - destruct b; simpl; auto.
  - rewrite Ha. simpl. by rewrite IH.
Qed.

Lemma take_mjoin_singletons (n : nat) (c : N) :
  take n (mjoin (replicate n [c])) = replicate n c.
Proof.
  assert (H : mjoin (replicate n [c]) = replicate n c).
  { induction n as [|n IH]; simpl; [done | by rewrite IH]. }
  rewrite H. apply firstn_all2. by rewrite length_replicate.
Qed.

Lemma padStart_zero s : padStart 2 (js "0") s = replicate (2 - length s) 48 ++ s.
Proof.
  unfold padStart. destruct (2 <=? length s)%nat eqn:E.
  - apply Nat.leb_le in E. by replace (2 - length s)%nat with 0%nat by lia.
  - change (js "0") with [48]. by rewrite take_mjoin_singletons.
Qed.

Lemma index_label_width ix : (2 <= length (index_label ix))%nat.
Proof. unfold index_label. rewrite length_app, length_replicate. lia. Qed.

(** ** The metadata parser *)

Lemma find_exists {A} (f : A -> bool) (l : list A) x :
  x ∈ l -> f x = true -> exists y, List.find f l = Some y.
Proof.
  intros Hin Hf. destruct (List.find f l) eqn:E; [eauto|].
  apply list_elem_of_In in Hin.
  pose proof (List.find_none f l E x Hin). congruence.
Qed.

Lemma find_spec {A} (f : A -> bool) (l : list A) y :
  List.find f l = Some y -> y ∈ l /\ f y = true.
Proof.
  intros E. apply List.find_some in E as [Hin Hf].
  split; [by apply list_elem_of_In | done].
Qed.

Lemma find_absent {A} (f : A -> bool) (l : list A) :
  (forall x, x ∈ l -> f x = false) -> List.find f l = None.
Proof.
  intros H. destruct (List.find f l) eqn:E; [|done].
  apply find_spec in E as [Hin Hf]. rewrite (H _ Hin) in Hf. discriminate.
Qed.

Lemma has_scheme_true s i : has_scheme s i = true <-> opf_scheme i = Some s.
Proof. unfold has_scheme. apply bool_decide_eq_true. Qed.

Lemma has_scheme_false s i : has_scheme s i = false <-> opf_scheme i <> Some s.
Proof. unfold has_scheme. apply bool_decide_eq_false. Qed.

(** C7: on a valid document the identifier of scheme "uuid" is taken when
    there is one, else the one of scheme "calibre", else the first
    identifier; the id is absent when there is no identifier. *)
Theorem parseOpf_identifier_selection (d : PackageMetadata) :
  exists m, parseOpf (Some d) = Some m /\
  let ids := default [] (dc_identifier d) in
  ((exists x, x ∈ ids /\ opf_scheme x = Some (js "uuid")) ->
     exists x, x ∈ ids /\ opf_scheme x = Some (js "uuid")
               /\ id m = Some (id_text x)) /\
  ((forall x, x ∈ ids -> opf_scheme x <> Some (js "uuid")) ->
   (exists x, x ∈ ids /\ opf_scheme x = Some (js "calibre")) ->
     exists x, x ∈ ids /\ opf_scheme x = Some (js "calibre")
               /\ id m = Some (id_text x)) /\
  ((forall x, x ∈ ids -> opf_scheme x <> Some (js "uuid")) ->
   (forall x, x ∈ ids -> opf_scheme x <> Some (js "calibre")) ->
     id m = id_text <$> head ids) /\
  (ids = [] -> id m = None).
Proof.
  exists (extractMetadata d). split; [done|].
  unfold extractMetadata; simpl.
  destruct (dc_identifier d) as [ids|]; simpl.
  2:{ repeat split; try done.
      - intros (x & Hx & _). inversion Hx.
      - intros _ (x & Hx & _). inversion Hx. }
  repeat split.
  - intros (x & Hin & Hs).
    destruct (find_exists (has_scheme (js "uuid")) ids x Hin) as [y Hy];
      [by apply has_scheme_true|].
    rewrite Hy. simpl. apply find_spec in Hy as [Hyin Hys].
    exists y. by rewrite <- has_scheme_true.
  - intros Hno (x & Hin & Hs).
    rewrite (find_absent (has_scheme (js "uuid")) ids);
      [|intros z Hz; apply has_scheme_false; auto].
    destruct (find_exists (has_scheme (js "calibre")) ids x Hin) as [y Hy];
      [by apply has_scheme_true|].
    rewrite Hy. simpl. apply find_spec in Hy as [Hyin Hys].
    exists y. by rewrite <- has_scheme_true.
  - intros Hno1 Hno2.
    rewrite (find_absent (has_scheme (js "uuid")) ids);
      [|intros z Hz; apply has_scheme_false; auto].
    rewrite (find_absent (has_scheme (js "calibre")) ids);
      [|intros z Hz; apply has_scheme_false; auto].
    done.
  - intros ->. done.
Qed.

(** The document of the test suite: a "calibre" identifier in front of the
    "uuid" one. *)
Example parseOpf_prefers_uuid :
  id <$> parseOpf (Some {|
    dc_identifier := Some
      [ {| id_text := TextNumber (Finite false 3 0);
           opf_scheme := Some (js "calibre") |};
        {| id_text := TextString (js "00000000-0000-0000-0003");
           opf_scheme := Some (js "uuid") |} ];
    dc_title := Some (js "First Book");
    dc_creator := Some (js "John Smith");
    meta := None |})
  = Some (Some (TextString (js "00000000-0000-0000-0003"))).
Proof. reflexivity. Qed.

(** ** The path policy *)

Lemma calculateTargetPath_series m s ix :
  series m = Some s -> s <> [] -> seriesIndex m = Some ix ->
  calculateTargetPath m
  = (sanitize s,
     sanitize s ++ js " - " ++ padStart 2 (js "0") (Number_toString ix)
       ++ js ".epub").
Proof.
  intros Hs Hne Hix. unfold calculateTargetPath. rewrite Hs, Hix.
  rewrite bool_decide_eq_false_2 by done.
  by rewrite <- !app_assoc.
Qed.

Lemma calculateTargetPath_no_series m :
  series m = None \/ series m = Some [] \/ seriesIndex m = None ->
  calculateTargetPath m = titleCreatorPath m.
Proof.
  intros H. unfold calculateTargetPath.
  destruct (series m) as [s|]; [|done].
  destruct (seriesIndex m); [|done].
  destruct H as [H|[H|H]]; try discriminate.
  injection H as ->. done.
Qed.

Lemma sanitized_or_effective x dflt :
  sanitized_or x dflt = effective_component x dflt.
Proof.
  unfold sanitized_or, effective_component. destruct x as [s|]; [|done].
  destruct (sanitize s) eqn:E; [done|].
  by rewrite bool_decide_eq_false_2.
Qed.

Lemma replicate_snoc (n : nat) (x : N) :
  replicate n x ++ [x] = x :: replicate n x.
Proof. induction n as [|n IH]; simpl; [done|]. by rewrite IH. Qed.

Lemma rev_replicate (n : nat) (x : N) : rev (replicate n x) = replicate n x.
Proof.
  induction n as [|n IH]; simpl; [done|]. by rewrite IH, replicate_snoc.
Qed.

Lemma drop_zeros_restore s :
  replicate (length s - length (drop_zeros s)) 48 ++ drop_zeros s = s
  /\ (length (drop_zeros s) <= length s)%nat.
Proof.
  induction s as [|c r [IH Hle]]; [done|]. simpl.
  destruct (c =? 48) eqn:E.
  - apply N.eqb_eq in E. subst c. split; [|lia].
    replace (S (length r) - length (drop_zeros r))%nat
      with (S (length r - length (drop_zeros r))) by lia.
    simpl. by rewrite IH.
  - simpl. split; [|lia]. by rewrite Nat.sub_diag.
Qed.

(** An integer prints as its decimal numeral. *)
Lemma Number_toString_integer (m : N) :
  m <> 0 -> (length (decimal_digits m) <= 21)%nat ->
  Number_toString (Finite false m 0) = decimal_digits m.
Proof.
  intros Hm Hlen. unfold Number_toString.
  rewrite (proj2 (N.eqb_neq m 0) Hm). cbv zeta.
  destruct (drop_zeros_restore (rev (decimal_digits m))) as [Hrestore Hle].
  rewrite length_rev in Hrestore, Hle.
  set (s := rev (drop_zeros (rev (decimal_digits m)))) in *.
  assert (Hs : length s = length (drop_zeros (rev (decimal_digits m)))).
  { unfold s. by rewrite length_rev. }
  rewrite <- Hs in Hrestore, Hle.
  replace ((Z.of_nat (length s) <=? Z.of_nat (length (decimal_digits m)) + 0)
           && (Z.of_nat (length (decimal_digits m)) + 0 <=? 21))%Z%bool
    with true.
  2:{ symmetry. apply andb_true_iff. split; apply Z.leb_le; lia. }
  replace (Z.to_nat (Z.of_nat (length (decimal_digits m)) + 0
                     - Z.of_nat (length s)))
    with (length (decimal_digits m) - length s)%nat by lia.
  cbn [app]. apply (f_equal (@rev N)) in Hrestore.
  rewrite rev_app_distr, rev_replicate, rev_involutive in Hrestore.
  exact Hrestore.
Qed.

(** C6, as the specification words it, fails on a title of which nothing
    is left after sanitization: the code names the book "Unknown Title". *)
Lemma calculateTargetPath_default_when_stripped :
  series stripped_title_book = None
  /\ calculateTargetPath stripped_title_book
     <> spec_titleCreatorPath stripped_title_book
  /\ calculateTargetPath stripped_title_book
     = (js "Unknown Title - Jane Doe", js "Unknown Title - Jane Doe.epub").
Proof. split; [done|]. split; [by vm_compute | by vm_compute]. Qed.

(** C4, as stated, fails: a series index that does not parse is [NaN], and
    the path policy uses it like any other index. *)
Lemma calculateTargetPath_NaN_index :
  parseFloat (js "first") = NaN
  /\ seriesIndex (extractMetadata unparsable_index_doc) = Some NaN
  /\ calculateTargetPath (extractMetadata unparsable_index_doc)
     <> calculateTargetPath (without_index (extractMetadata unparsable_index_doc))
  /\ calculateTargetPath (extractMetadata unparsable_index_doc)
     = (js "Books", js "Books - NaN.epub").
Proof. repeat split; by vm_compute. Qed.

(** C4, amended: when the content of calibre:series_index does not parse,
    the series index of the record is [NaN]; with a non-empty series the
    target is then named after the series with the label "NaN", and only
    without a series does the naming fall back to title and creator. *)
Theorem parseOpf_unparsable_index d ms e :
  meta d = Some ms ->
  List.find (has_name (js "calibre:series_index")) ms = Some e ->
  parseFloat (meta_content e) = NaN ->
  let m := extractMetadata d in
  parseOpf (Some d) = Some m
  /\ seriesIndex m = Some NaN
  /\ (forall s, series m = Some s -> s <> [] ->
        calculateTargetPath m = (sanitize s, sanitize s ++ js " - NaN.epub"))
  /\ (series m = None \/ series m = Some [] ->
        calculateTargetPath m = calculateTargetPath (without_index m)).
Proof.
  intros Hms He Hnan m.
  assert (Hix : seriesIndex m = Some NaN).
  { unfold m, extractMetadata; simpl. rewrite Hms; simpl. rewrite He; simpl.
    by rewrite Hnan. }
  split; [done|]. split; [done|]. split.
  - intros s Hs Hne.
    rewrite (calculateTargetPath_series m s NaN Hs Hne Hix). done.
  - intros H.
    rewrite (calculateTargetPath_no_series m) by tauto.
    rewrite (calculateTargetPath_no_series (without_index m)) by (simpl; tauto).
    done.
Qed.

Lemma parseOpf_unparsable_index_witness :
  seriesIndex (extractMetadata unparsable_index_doc) = Some NaN
  /\ calculateTargetPath (extractMetadata unparsable_index_doc)
     = (js "Books", js "Books - NaN.epub").
Proof.
  destruct (parseOpf_unparsable_index unparsable_index_doc _ _
              eq_refl eq_refl eq_refl) as (_ & Hix & Hpath & _).
  split; [exact Hix|].
  exact (Hpath (js "Books") eq_refl ltac:(discriminate)).
Defined.

(** ** Paths and keys *)

Implicit Types (fs : gmap key node) (outDir d f source : list N).
Implicit Types (k dk tk sk : key) (m : OpfMetadata) (i j : N).
Implicit Types (entries : list (list N * OpfMetadata)).

Lemma slash_free_app a b : slash_free (a ++ b) = slash_free a && slash_free b.
Proof. apply forallb_app. Qed.

Lemma slash_free_rev a : slash_free (rev a) = slash_free a.
Proof.
  induction a as [|c r IH]; [done|]. simpl rev.
  rewrite slash_free_app, IH. simpl. rewrite andb_true_r. apply andb_comm.
Qed.

Lemma slash_free_take n a : slash_free a = true -> slash_free (take n a) = true.
Proof.
  revert n. induction a as [|c r IH]; intros [|n]; simpl; try done.
  intros [-> ?]%andb_true_iff. simpl. auto.
Qed.

Lemma slash_free_drop n a : slash_free a = true -> slash_free (drop n a) = true.
Proof.
  revert n. induction a as [|c r IH]; intros [|n]; simpl; try done.
  intros [_ ?]%andb_true_iff. auto.
Qed.

Lemma slash_free_replicate n c : c <> 47 -> slash_free (replicate n c) = true.
Proof.
  intros Hc. induction n as [|n IH]; simpl; [done|].
  rewrite IH, andb_true_r. apply negb_true_iff. by apply N.eqb_neq.
Qed.

Lemma slash_free_alnum s :
  Forall (fun c => is_alnum_space c = true) s -> slash_free s = true.
Proof.
  induction 1 as [|c r Hc _ IH]; [done|]. simpl. rewrite IH, andb_true_r.
  apply negb_true_iff, N.eqb_neq. intros ->. discriminate.
Qed.

Lemma split_slash_nonempty s : split_slash s <> [].
Proof.
  destruct s as [|c r]; simpl; [done|].
  destruct (c =? 47); [done|]. by destruct (split_slash r).
Qed.

Lemma split_slash_join a b :
  split_slash (a ++ js "/" ++ b) = split_slash a ++ split_slash b.
Proof.
  induction a as [|c r IH]; [done|]. simpl in *.
  destruct (c =? 47); [by rewrite IH|].
  rewrite IH.
  pose proof (split_slash_nonempty r). by destruct (split_slash r).
Qed.

Lemma split_slash_name s : slash_free s = true -> split_slash s = [s].
Proof.
  induction s as [|c r IH]; [done|]. simpl.
  intros [Hc Hr]%andb_true_iff. apply negb_true_iff in Hc. rewrite Hc.
  by rewrite (IH Hr).
Qed.

Lemma components_join a b :
  components (a ++ js "/" ++ b) = components a ++ components b.
Proof. unfold components. by rewrite split_slash_join, List.filter_app. Qed.

Lemma components_name s : entry_name s -> components s = [s].
Proof.
  intros [Hne Hs]. unfold components. rewrite (split_slash_name s Hs).
  simpl. by destruct s.
Qed.

Lemma components_empty : components [] = [].
Proof. done. Qed.

Lemma components_slash_free s :
  slash_free s = true -> components s = if nonempty s then [s] else [].
Proof.
  intros Hs. unfold components. rewrite (split_slash_name s Hs). done.
Qed.

Lemma split_slash_parts s : Forall (fun c => slash_free c = true) (split_slash s).
Proof.
  induction s as [|c r IH]; simpl; [by repeat constructor|].
  destruct (c =? 47) eqn:E; [by constructor|].
  destruct (split_slash r) as [|h t]; [by repeat constructor; simpl; rewrite E|].
  inversion IH; subst. constructor; [|done]. simpl. by rewrite E.
Qed.

Lemma components_names p : Forall entry_name (components p).
Proof.
  unfold components. apply List.Forall_forall. intros c Hc.
  apply List.filter_In in Hc as [Hin Hne].
  pose proof (split_slash_parts p) as Hall.
  rewrite List.Forall_forall in Hall. split; [by destruct c | auto].
Qed.

Lemma path_key_join a b :
  a <> [] -> path_key (a ++ js "/" ++ b) = kapp (path_key a) (components b).
Proof.
  intros Ha. unfold path_key, kapp. rewrite components_join.
  by destruct a.
Qed.

Lemma kapp_app k a b : kapp (kapp k a) b = kapp k (a ++ b).
Proof. unfold kapp. simpl. by rewrite <- app_assoc. Qed.

Lemma kapp_nil k : kapp k [] = k.
Proof. unfold kapp. destruct k. simpl. by rewrite app_nil_r. Qed.

Lemma kapp_inj k a b : kapp k a = kapp k b -> a = b.
Proof. unfold kapp. intros [= H]. by apply app_inv_head in H. Qed.

(** The rendering of a number has no separator. *)
Lemma uint_chars_slash_free u : slash_free (uint_chars u) = true.
Proof. induction u; simpl; try done. Qed.

Lemma drop_zeros_slash_free s : slash_free s = true -> slash_free (drop_zeros s) = true.
Proof.
  induction s as [|c r IH]; [done|]. simpl. intros H.
  destruct (c =? 48); [|done]. apply andb_true_iff in H as [_ H]. auto.
Qed.

Lemma Number_toString_slash_free x : slash_free (Number_toString x) = true.
Proof.
  destruct x as [|neg|neg m e]; unfold Number_toString;
    [done | by destruct neg |].
  destruct (m =? 0); [done|]. cbv zeta.
  assert (Hs : slash_free (rev (drop_zeros (rev (decimal_digits m)))) = true).
  { rewrite slash_free_rev. apply drop_zeros_slash_free.
    rewrite slash_free_rev. apply uint_chars_slash_free. }
  remember (rev (drop_zeros (rev (decimal_digits m)))) as s eqn:Heqs.
  clear Heqs.
  rewrite slash_free_app. apply andb_true_iff. split; [by destruct neg|].
  repeat case_match;
    repeat first
      [ rewrite slash_free_app; apply andb_true_iff; split
      | apply slash_free_take
      | apply slash_free_drop
      | apply slash_free_replicate; discriminate
      | apply uint_chars_slash_free
      | assumption
      | reflexivity ].
Qed.

Lemma sanitize_slash_free s : slash_free (sanitize s) = true.
Proof. apply slash_free_alnum, sanitize_alnum. Qed.

Lemma sanitized_or_name x dflt : entry_name dflt -> entry_name (sanitized_or x dflt).
Proof.
  intros Hd. unfold sanitized_or. destruct x as [s|]; [|done].
  destruct (sanitize s) eqn:E; [done|]. split; [done|].
  rewrite <- E. apply sanitize_slash_free.
Qed.

(** Both components of a target path are free of separators, and the file
    name is not empty. *)
Lemma calculateTargetPath_names m d f :
  calculateTargetPath m = (d, f) ->
  slash_free d = true /\ entry_name f.
Proof.
  assert (Hfallback : forall d f, titleCreatorPath m = (d, f) ->
            slash_free d = true /\ entry_name f).
  { intros d' f' H. unfold titleCreatorPath in H. cbv zeta in H.
    apply pair_equal_spec in H as [<- <-].
    destruct (sanitized_or_name (title m) (js "Unknown Title")) as [_ Ht];
      [done|].
    destruct (sanitized_or_name (creator m) (js "Unknown Creator")) as [_ Hc];
      [done|].
    unfold entry_name. rewrite !slash_free_app, Ht, Hc. split; [done|]. split; [|done].
    intros H. apply (f_equal (@length N)) in H.
    rewrite !length_app in H. simpl in H. lia. }
  unfold calculateTargetPath.
  destruct (series m) as [s|]; [|apply Hfallback].
  destruct (seriesIndex m) as [ix|]; [|apply Hfallback].
  case_bool_decide; [apply Hfallback|].
  cbv zeta. intros [<- <-]%pair_equal_spec. rewrite padStart_zero.
  unfold entry_name.
  rewrite !slash_free_app, sanitize_slash_free, Number_toString_slash_free.
  rewrite slash_free_replicate by done. split; [done|]. split; [|done].
  intros E. apply (f_equal (@length N)) in E.
  rewrite !length_app in E. simpl in E. lia.
Qed.

(** ** The monad *)

Lemma run_ret {A} (a : A) fs : (mret a : IO A) fs = (Returned a, fs, []).
Proof. done. Qed.

Lemma run_bind {A B} (m : IO A) (f : A -> IO B) fs :
  (m ≫= f) fs
  = match m fs with
    | (Returned a, fs1, t1) =>
        let '(r, fs2, t2) := f a fs1 in (r, fs2, t1 ++ t2)
    | (Thrown, fs1, t1) => (Thrown, fs1, t1)
    end.
Proof. done. Qed.

Lemma run_bind_returned {A B} (m : IO A) (f : A -> IO B) fs a fs1 t1 r fs2 t2 :
  m fs = (Returned a, fs1, t1) -> f a fs1 = (r, fs2, t2) ->
  (m ≫= f) fs = (r, fs2, t1 ++ t2).
Proof. intros Hm Hf. by rewrite run_bind, Hm, Hf. Qed.

Lemma run_try_returned {A} (m h : IO A) fs a fs1 t1 :
  m fs = (Returned a, fs1, t1) -> try_catch m h fs = (Returned a, fs1, t1).
Proof. intros Hm. unfold try_catch. by rewrite Hm. Qed.

Lemma run_try_thrown {A} (m h : IO A) fs fs1 t1 r fs2 t2 :
  m fs = (Thrown, fs1, t1) -> h fs1 = (r, fs2, t2) ->
  try_catch m h fs = (r, fs2, t1 ++ t2).
Proof. intros Hm Hh. unfold try_catch. by rewrite Hm, Hh. Qed.

(** ** Link counts *)

Lemma nlink_lookup (fs : gmap key node) k i :
  fs !! k = Some (File i) -> (1 <= nlink fs i)%nat.
Proof.
  intros Hk. unfold nlink.
  assert (H : size (filter (names_inode i) fs) <> 0%nat); [|lia].
  apply (map_size_ne_0_lookup_2 _ k). exists (File i).
  by apply map_lookup_filter_Some.
Qed.

Lemma nlink_two (fs : gmap key node) k1 k2 i :
  k1 <> k2 -> fs !! k1 = Some (File i) -> fs !! k2 = Some (File i) ->
  (2 <= nlink fs i)%nat.
Proof.
  intros Hne H1 H2. unfold nlink.
  set (m := filter (names_inode i) fs).
  assert (Hm1 : m !! k1 = Some (File i)) by by apply map_lookup_filter_Some.
  assert (Hm2 : m !! k2 = Some (File i)) by by apply map_lookup_filter_Some.
  assert (Hd : size (delete k1 m) <> 0%nat).
  { apply (map_size_ne_0_lookup_2 _ k2). exists (File i).
    by rewrite lookup_delete_ne. }
  rewrite map_size_delete, Hm1 in Hd. simpl in Hd. lia.
Qed.

Lemma nlink_insert_dir (fs : gmap key node) k n i :
  fs !! k = None -> nlink (<[k := Dir n]> fs) i = nlink fs i.
Proof.
  intros Hk. unfold nlink. rewrite map_filter_insert_not'; [done| |].
  - unfold names_inode. simpl. discriminate.
  - intros y. rewrite Hk. discriminate.
Qed.

Lemma nlink_insert_file (fs : gmap key node) k i x :
  fs !! k = None ->
  nlink (<[k := File i]> fs) x
  = if bool_decide (x = i) then S (nlink fs x) else nlink fs x.
Proof.
  intros Hk. unfold nlink. case_bool_decide as Hx.
  - subst x. rewrite map_filter_insert_True by done.
    rewrite map_size_insert_None; [done|].
    apply map_lookup_filter_None. left. done.
  - rewrite map_filter_insert_not'; [done| |].
    + unfold names_inode. simpl. congruence.
    + intros y. rewrite Hk. discriminate.
Qed.

Lemma nlink_delete_file (fs : gmap key node) k j x :
  fs !! k = Some (File j) ->
  nlink (delete k fs) x
  = if bool_decide (x = j) then pred (nlink fs x) else nlink fs x.
Proof.
  intros Hk. unfold nlink. rewrite map_filter_delete.
  rewrite map_size_delete. case_bool_decide as Hx.
  - subst x. by rewrite (map_lookup_filter_Some_2 _ _ _ (File j)).
  - rewrite (proj2 (map_lookup_filter_None _ _ k)); [done|].
    right. intros y Hy. rewrite Hk in Hy. injection Hy as <-.
    unfold names_inode. simpl. congruence.
Qed.

(** ** Keys *)

Lemma parent_kapp k c : parent (kapp k [c]) = k.
Proof. unfold parent, kapp. simpl. rewrite removelast_last. by destruct k. Qed.

Lemma kapp_ne_self k names : names <> [] -> kapp k names <> k.
Proof.
  unfold kapp. destruct k as [a cs]. simpl. intros Hne [= H].
  apply (f_equal length) in H. rewrite length_app in H.
  destruct names; [done|]. simpl in H. lia.
Qed.

Lemma kapp_length_ne k a b : length a <> length b -> kapp k a <> kapp k b.
Proof. intros Hne H. apply kapp_inj in H. by subst. Qed.

Lemma under_kapp k names : under k (kapp k names).
Proof. split; [done|]. by exists names. Qed.

Lemma not_under_ne root k names : ~ under root k -> k <> kapp root names.
Proof. intros Hn ->. apply Hn, under_kapp. Qed.

(** ** Trees *)

Lemma is_dir_true (fs : gmap key node) k :
  is_dir fs k = true <-> exists n, fs !! k = Some (Dir n).
Proof.
  unfold is_dir. destruct (fs !! k) as [[|n]|]; split; try done; eauto.
  - intros [? [=]].
  - intros [? [=]].
Qed.

Lemma is_dir_delete_ne fs k k' : k <> k' -> is_dir (delete k fs) k' = is_dir fs k'.
Proof. intros H. unfold is_dir. by rewrite lookup_delete_ne. Qed.

Lemma is_dir_insert_ne fs k k' nd :
  k <> k' -> is_dir (<[k := nd]> fs) k' = is_dir fs k'.
Proof. intros H. unfold is_dir. by rewrite lookup_insert_ne. Qed.

Lemma closed_ancestors (fs : gmap key node) (a : bool)
    (cs ext : list (list N)) (nd : node) :
  closed fs -> fs !! (a, cs ++ ext) = Some nd -> cs <> [] -> ext <> [] ->
  is_dir fs (a, cs) = true.
Proof.
  intros Hcl. revert nd. induction ext as [|c ext IH] using rev_ind;
    intros nd Hk Hcs Hext; [done|].
  rewrite app_assoc in Hk.
  destruct ext as [|c' ext'].
  - rewrite app_nil_r in Hk. by apply (Hcl _ _ _ _ Hk).
  - assert (Hp : is_dir fs (a, cs ++ c' :: ext') = true).
    { apply (Hcl _ _ _ _ Hk). by destruct cs. }
    apply is_dir_true in Hp as [n Hn]. by apply (IH _ Hn).
Qed.

Lemma mkdirs_existing (a : bool) (done todo rest : list (list N))
    (fs : gmap key node) :
  (forall pre, pre <> [] -> pre `prefix_of` todo ->
     is_dir fs (a, done ++ pre) = true) ->
  mkdirs a done (todo ++ rest) fs = mkdirs a (done ++ todo) rest fs.
Proof.
  revert done. induction todo as [|c todo IH]; intros done Hdirs.
  - by rewrite app_nil_r.
  - rewrite <- app_comm_cons. cbn [mkdirs].
    assert (Hc : is_dir fs (a, done ++ [c]) = true).
    { apply Hdirs; [done|]. by exists todo. }
    apply is_dir_true in Hc as [n Hn]. rewrite Hn.
    rewrite IH.
    + by rewrite <- app_assoc.
    + intros pre Hne [ext ->]. rewrite <- app_assoc. simpl.
      apply Hdirs; [done|]. by exists ext.
Qed.

Lemma root_ancestors (outDir : list N) (fs : gmap key node)
    (pre : list (list N)) :
  target_ready outDir fs -> pre <> [] -> pre `prefix_of` (path_key outDir).2 ->
  is_dir fs ((path_key outDir).1, pre) = true.
Proof.
  intros (_ & Hcl & _ & Hroot) Hne [ext Hext].
  destruct ext as [|c ext].
  - rewrite app_nil_r in Hext. destruct (path_key outDir) as [a cs].
    simpl in *. by subst.
  - apply is_dir_true in Hroot as [n Hn].
    destruct (path_key outDir) as [a cs]. simpl in *. subst cs.
    by apply (closed_ancestors fs a pre (c :: ext) (Dir n)).
Qed.

(** [mkdir] of the directory of a target below an existing target root. *)
Lemma mkdirs_below_root (outDir : list N) (fs : gmap key node)
    (names : list (list N)) :
  target_ready outDir fs ->
  mkdirs (path_key outDir).1 [] ((path_key outDir).2 ++ names) fs
  = mkdirs (path_key outDir).1 (path_key outDir).2 names fs.
Proof.
  intros Hready. rewrite mkdirs_existing; [done|].
  intros pre Hne Hpre. by apply root_ancestors.
Qed.

(** ** The linker, case by case *)

Lemma dir_key_path outDir d :
  outDir <> [] -> path_key (outDir ++ js "/" ++ d) = dir_key outDir d.
Proof. intros H. unfold dir_key. by rewrite path_key_join. Qed.

Lemma target_key_path outDir d f :
  outDir <> [] ->
  path_key (outDir ++ js "/" ++ d ++ js "/" ++ f) = target_key outDir d f.
Proof.
  intros H. unfold target_key, dir_key.
  by rewrite path_key_join, components_join, kapp_app.
Qed.

Lemma dir_key_cases outDir d :
  slash_free d = true ->
  (d = [] /\ dir_key outDir d = path_key outDir)
  \/ (entry_name d /\ dir_key outDir d = kapp (path_key outDir) [d]).
Proof.
  intros Hd. unfold dir_key. rewrite (components_slash_free d Hd).
  destruct d as [|c r]; [left | right].
  - by rewrite kapp_nil.
  - by repeat split.
Qed.

Lemma target_key_child outDir d f :
  entry_name f -> target_key outDir d f = kapp (dir_key outDir d) [f].
Proof. intros Hf. unfold target_key. by rewrite components_name. Qed.

Lemma target_key_under outDir d f :
  under (path_key outDir) (target_key outDir d f).
Proof.
  unfold target_key, dir_key. rewrite kapp_app. apply under_kapp.
Qed.

Lemma dir_key_under outDir d : under (path_key outDir) (dir_key outDir d).
Proof. apply under_kapp. Qed.

Lemma target_ne_dir outDir d f :
  entry_name f -> target_key outDir d f <> dir_key outDir d.
Proof.
  intros Hf. rewrite target_key_child by done. by apply kapp_ne_self.
Qed.

(** The directory of a target is found or made, unless a regular file is
    in the way. *)
Lemma mkdir_dir_key outDir d (fs : gmap key node) :
  target_ready outDir fs -> slash_free d = true ->
  (exists i, fs !! dir_key outDir d = Some (File i)
     /\ mkdir_recursive (outDir ++ js "/" ++ d) fs
        = (Thrown, fs, [(Mkdir (outDir ++ js "/" ++ d), false)]))
  \/ (exists fs1, dir_made fs (dir_key outDir d) fs1
     /\ mkdir_recursive (outDir ++ js "/" ++ d) fs
        = (Returned tt, fs1, [(Mkdir (outDir ++ js "/" ++ d), true)])).
Proof.
  intros Hready Hd. pose proof Hready as (Hne & Hcl & Hnames & Hroot).
  unfold mkdir_recursive. rewrite (dir_key_path outDir d Hne).
  destruct (dir_key_cases outDir d Hd) as [[-> Hk]|[Hname Hk]].
  - right. exists fs. split; [left; by rewrite Hk|].
    rewrite Hk.
    replace (path_key outDir).2 with ((path_key outDir).2 ++ [])
      by apply app_nil_r.
    by rewrite (mkdirs_below_root outDir fs [] Hready).
  - rewrite Hk.
    change (kapp (path_key outDir) [d]).1 with (path_key outDir).1.
    change (kapp (path_key outDir) [d]).2 with ((path_key outDir).2 ++ [d]).
    rewrite (mkdirs_below_root outDir fs [d] Hready). cbn [mkdirs].
    change ((path_key outDir).1, (path_key outDir).2 ++ [d])
      with (kapp (path_key outDir) [d]).
    destruct (fs !! kapp (path_key outDir) [d]) as [[i|n]|] eqn:E.
    + left. eauto.
    + right. exists fs. split; [|done]. left. split; [|done].
      apply is_dir_true. eauto.
    + right. exists (<[kapp (path_key outDir) [d] := Dir 2]> fs).
      split; [|done]. right. done.
Qed.

Lemma dir_made_is_dir fs dk fs1 : dir_made fs dk fs1 -> is_dir fs1 dk = true.
Proof.
  intros [[H ->]|[H ->]]; [done|]. unfold is_dir. by rewrite lookup_insert_eq.
Qed.

Lemma dir_made_lookup_ne (fs : gmap key node) dk fs1 k :
  dir_made fs dk fs1 -> k <> dk -> fs1 !! k = fs !! k.
Proof. intros [[H ->]|[H ->]] Hne; [done|]. by rewrite lookup_insert_ne. Qed.

Lemma dir_made_lookup_some (fs : gmap key node) dk fs1 k nd :
  dir_made fs dk fs1 -> fs !! k = Some nd -> fs1 !! k = Some nd.
Proof.
  intros [[H ->]|[H ->]] Hk; [done|].
  rewrite lookup_insert_ne; [done|]. intros ->. congruence.
Qed.

Lemma dir_made_nlink (fs : gmap key node) dk fs1 i :
  dir_made fs dk fs1 -> nlink fs1 i = nlink fs i.
Proof. intros [[H ->]|[H ->]]; [done|]. by apply nlink_insert_dir. Qed.

Lemma single_link_file (fs : gmap key node) j :
  single_link (node_stats fs (File j)) = true <-> nlink fs j = 1%nat.
Proof.
  unfold single_link. simpl. rewrite andb_true_iff, negb_true_iff.
  rewrite Nat.eqb_neq, Nat.ltb_lt. lia.
Qed.

(** [linkFile] never throws, and for an entry with a title whose source
    file exists outside the target tree it does one of six things. *)
Lemma linkFile_cases outDir source m d f i (fs : gmap key node) :
  target_ready outDir fs ->
  truthy (title m) = true ->
  calculateTargetPath m = (d, f) ->
  fs !! path_key source = Some (File i) ->
  ~ under (path_key outDir) (path_key source) ->
  exists r fs' t,
    linkFile outDir source m fs = (Returned r, fs', t)
    /\ link_case fs (dir_key outDir d) (target_key outDir d f)
         (path_key source)
         (outDir ++ js "/" ++ d) (outDir ++ js "/" ++ d ++ js "/" ++ f)
         source (d ++ js "/" ++ f) r fs' t.
Proof.
  intros Hready Htitle Hpath Hsrc Hout.
  pose proof Hready as (Hne & _).
  destruct (calculateTargetPath_names m d f Hpath) as [Hd Hf].
  unfold linkFile. rewrite Htitle, Hpath. cbn [negb]. cbv beta iota zeta.
  assert (Htk : path_key (outDir ++ js "/" ++ d ++ js "/" ++ f)
                = target_key outDir d f) by by apply target_key_path.
  assert (Hsk : path_key source <> target_key outDir d f).
  { intros E. apply Hout. rewrite E. apply target_key_under. }
  assert (Hsd : path_key source <> dir_key outDir d).
  { intros E. apply Hout. rewrite E. apply dir_key_under. }
  assert (Htd : target_key outDir d f <> dir_key outDir d)
    by by apply target_ne_dir.
  assert (Hparent : parent (target_key outDir d f) = dir_key outDir d).
  { rewrite target_key_child by done. apply parent_kapp. }
  pose proof (mkdir_dir_key outDir d fs Hready Hd) as Hmk.
  generalize dependent (target_key outDir d f). intros tk Htk Hsk Htd Hparent.
  generalize dependent (dir_key outDir d). intros dk Hsd Hmk Htd Hparent.
  destruct Hmk as [(j & Hj & Hrun)|(fs1 & Hmade & Hrun)].
  { exists None, fs, [(Mkdir (outDir ++ js "/" ++ d), false)]. split; [|by econstructor].
    unfold try_catch at 1. rewrite run_bind. by rewrite Hrun. }
  pose proof (dir_made_is_dir _ _ _ Hmade) as Hdir.
  assert (Hsrc1 : fs1 !! path_key source = Some (File i)).
  { by apply (dir_made_lookup_some fs dk). }
  unfold try_catch at 1. rewrite run_bind. rewrite Hrun.
  rewrite run_bind. unfold try_catch at 1. rewrite run_bind.
  unfold stat at 1. rewrite Htk.
  destruct (fs1 !! tk) as [nd|] eqn:Etk; cbn [mret IO_ret].
  - destruct (single_link (node_stats fs1 nd)) eqn:Esingle.
    + rewrite run_bind. unfold safeUnlink.
      destruct (unsafe_path (outDir ++ js "/" ++ d ++ js "/" ++ f)) eqn:Eunsafe.
      * cbn. eexists _, _, _. split; [done|]. by eapply LC_refused.
      * rewrite run_bind. unfold unlink at 1. rewrite Htk, Etk.
        destruct nd as [j|n].
        -- cbn [mret IO_ret negb]. rewrite run_bind.
           unfold link at 1. rewrite Htk, Hparent.
           rewrite lookup_delete_ne by done. rewrite Hsrc1.
           rewrite lookup_delete_eq.
           rewrite (is_dir_delete_ne fs1 tk dk Htd), Hdir.
           cbn. eexists _, _, _. split; [done|].
           eapply LC_replaced; eauto. by apply single_link_file.
        -- cbn. eexists _, _, _. split; [done|]. by eapply LC_not_a_file.
    + cbn. eexists _, _, _. split; [done|]. by eapply LC_kept.
  - rewrite run_bind. unfold link at 1. rewrite Htk, Hparent, Hsrc1, Etk, Hdir.
    cbn. eexists _, _, _. split; [done|]. by eapply LC_created.
Qed.

(** ** What a call of the linker preserves *)

Section LinkCase.
Context (fs : gmap key node) (dk tk sk : key).
Context (dirp target source rel : list N).
Context (r : option (list N)) (fs' : gmap key node) (t : trace).
Context (Hcase : link_case fs dk tk sk dirp target source rel r fs' t).
Context (Htd : tk <> dk) (Hsk : sk <> tk) (Hsd : sk <> dk).

(** Only the directory and the target are touched. *)
Lemma link_case_frame k : k <> dk -> k <> tk -> fs' !! k = fs !! k.
Proof using Hcase.
  intros Hd Ht. destruct Hcase;
    rewrite ?lookup_insert_ne, ?lookup_delete_ne by done;
    eauto using dir_made_lookup_ne.
Qed.

Lemma link_case_source : fs' !! sk = fs !! sk.
Proof using Hcase Hsk Hsd. by apply link_case_frame. Qed.

(** Directories stay. *)
Lemma link_case_dir k n : fs !! k = Some (Dir n) -> fs' !! k = Some (Dir n).
Proof using Hcase.
  intros Hk. destruct Hcase as [| | | |fs1 j i Hm Ht|fs1 i Hm Ht];
    eauto using dir_made_lookup_some.
  - pose proof (dir_made_lookup_some _ _ _ _ _ Hm Hk) as Hk1.
    assert (k <> tk) by congruence.
    by rewrite lookup_insert_ne, lookup_delete_ne.
  - pose proof (dir_made_lookup_some _ _ _ _ _ Hm Hk) as Hk1.
    assert (k <> tk) by congruence.
    by rewrite lookup_insert_ne.
Qed.

(** A regular file stays a regular file; it is the same file unless it
    is the target, has a single link, and was replaced by a link of the
    source. *)
Lemma link_case_file k j :
  fs !! k = Some (File j) ->
  fs' !! k = Some (File j)
  \/ (k = tk /\ nlink fs j = 1%nat /\ unsafe_path target = false
      /\ exists i, fs !! sk = Some (File i) /\ fs' !! k = Some (File i)).
Proof using Hcase Hsk Hsd.
  intros Hk.
  destruct Hcase as [| | | |fs1 j' i Hm Ht Hn Hu Hs|fs1 i Hm Ht];
    eauto using dir_made_lookup_some.
  - pose proof (dir_made_lookup_some _ _ _ _ _ Hm Hk) as Hk1.
    destruct (decide (k = tk)) as [->|Hne].
    + right. rewrite Ht in Hk1. injection Hk1 as ->.
      rewrite <- (dir_made_nlink fs dk fs1 j Hm).
      repeat split; try done. exists i. rewrite lookup_insert_eq.
      split; [|done]. rewrite <- Hs. symmetry.
      by apply (dir_made_lookup_ne fs dk).
    + left. by rewrite lookup_insert_ne, lookup_delete_ne.
  - pose proof (dir_made_lookup_some _ _ _ _ _ Hm Hk) as Hk1.
    assert (k <> tk) by congruence.
    left. by rewrite lookup_insert_ne.
Qed.

Lemma link_case_file_some k j :
  fs !! k = Some (File j) -> exists j', fs' !! k = Some (File j').
Proof using Hcase Hsk Hsd.
  intros Hk. destruct (link_case_file k j Hk) as [H|(_ & _ & _ & i & _ & H)];
    eauto.
Qed.

(** Nothing disappears. *)
Lemma link_case_some k nd :
  fs !! k = Some nd -> exists nd', fs' !! k = Some nd'.
Proof using Hcase Hsk Hsd.
  intros Hk. destruct nd as [j|n].
  - destruct (link_case_file_some k j Hk) as [j' H]. eauto.
  - eauto using link_case_dir.
Qed.

(** What is new is the directory or the target. *)
Lemma link_case_new k :
  fs !! k = None -> fs' !! k = None \/ k = dk \/ k = tk.
Proof using Hcase.
  intros Hk. destruct (decide (k = dk)); [tauto|].
  destruct (decide (k = tk)); [tauto|].
  left. by rewrite link_case_frame.
Qed.

(** A regular file after the call was there before, or is the target. *)
Lemma link_case_file_inv k i :
  fs' !! k = Some (File i) -> fs !! k = Some (File i) \/ k = tk.
Proof using Hcase Htd.
  intros Hk. destruct (decide (k = tk)) as [|Hne]; [by right|]. left.
  destruct (decide (k = dk)) as [->|Hnd].
  - revert Hk. destruct Hcase as [|fs1 nd Hm|fs1 nd Hm|fs1 n Hm|fs1 j i' Hm|fs1 i' Hm];
      intros Hk; try done;
      apply dir_made_is_dir, is_dir_true in Hm as [n' Hn'];
      rewrite ?lookup_insert_ne, ?lookup_delete_ne in Hk by done; congruence.
  - by rewrite <- (link_case_frame k).
Qed.

(** The file at the target after the call was there before, or is a link
    of the source. *)
Lemma link_case_target_file x :
  fs' !! tk = Some (File x) ->
  fs !! tk = Some (File x) \/ fs !! sk = Some (File x).
Proof using Hcase Htd Hsd.
  intros Hk. revert Hk.
  destruct Hcase as [|fs1 nd Hm|fs1 nd Hm|fs1 n Hm|fs1 j i Hm Ht Hn Hu Hs
                    |fs1 i Hm Ht Hs]; intros Hk; try (by left).
  - left. by rewrite <- (dir_made_lookup_ne fs dk fs1).
  - left. by rewrite <- (dir_made_lookup_ne fs dk fs1).
  - left. by rewrite <- (dir_made_lookup_ne fs dk fs1).
  - right. rewrite lookup_insert_eq in Hk. injection Hk as <-.
    by rewrite <- (dir_made_lookup_ne fs dk fs1).
  - right. rewrite lookup_insert_eq in Hk. injection Hk as <-.
    by rewrite <- (dir_made_lookup_ne fs dk fs1).
Qed.

(** After the call the directory of the entry is a directory, unless a
    regular file is in its way. *)
Lemma link_case_is_dir :
  is_dir fs' dk = true \/ (exists i, fs !! dk = Some (File i) /\ fs' = fs).
Proof using Hcase Htd.
  destruct Hcase as [i|fs1 nd Hm|fs1 nd Hm|fs1 n Hm|fs1 j i Hm|fs1 i Hm];
    [right; eauto|left..];
    rewrite ?is_dir_insert_ne, ?is_dir_delete_ne by done;
    by eapply dir_made_is_dir.
Qed.

(** The link counts: only a replaced file loses a link (its only one),
    and only the inode of the source gains one. *)
Lemma link_case_nlink x :
  nlink fs' x = nlink fs x
  \/ (exists i, fs !! sk = Some (File i) /\ fs' !! tk = Some (File i)
      /\ ((x = i /\ nlink fs' x = S (nlink fs x))
          \/ (x <> i /\ nlink fs x = 1%nat /\ nlink fs' x = 0%nat
              /\ fs !! tk = Some (File x)))).
Proof using Hcase Hsk Hsd Htd.
  destruct Hcase as [| | | |fs1 j i Hm Ht Hn Hu Hs|fs1 i Hm Ht Hs];
    eauto using dir_made_nlink.
  - assert (Hij : i <> j).
    { intros ->. pose proof (nlink_two fs1 sk tk j Hsk Hs Ht). lia. }
    assert (Hs0 : fs !! sk = Some (File i)).
    { rewrite <- Hs. symmetry. by apply (dir_made_lookup_ne fs dk). }
    assert (Ht0 : fs !! tk = Some (File j)).
    { rewrite <- Ht. symmetry. by apply (dir_made_lookup_ne fs dk). }
    rewrite nlink_insert_file by apply lookup_delete_eq.
    rewrite (nlink_delete_file fs1 tk j x Ht).
    rewrite !(dir_made_nlink fs dk fs1) by done.
    rewrite (dir_made_nlink fs dk fs1) in Hn by done.
    repeat case_bool_decide; subst; try done.
    + right. exists i. rewrite lookup_insert_eq. eauto.
    + right. exists i. rewrite lookup_insert_eq.
      split; [done|]. split; [done|]. right. rewrite Hn. by repeat split.
    + by left.
  - assert (Hs0 : fs !! sk = Some (File i)).
    { rewrite <- Hs. symmetry. by apply (dir_made_lookup_ne fs dk). }
    rewrite nlink_insert_file by done.
    rewrite !(dir_made_nlink fs dk fs1) by done.
    case_bool_decide; subst; [|by left].
    right. exists i. rewrite lookup_insert_eq. eauto.
Qed.

(** When a path is returned, the target exists and, if it is a regular
    file, it has several links. *)
Lemma link_case_returned p :
  r = Some p ->
  p = rel /\
  exists nd, fs' !! tk = Some nd
    /\ forall j, nd = File j -> nlink fs' j <> 1%nat.
Proof using Hcase Hsk Hsd Htd.
  intros Hr. revert Hr.
  destruct Hcase as [|fs1 nd Hm Ht Hsingle| | |fs1 j i Hm Ht Hn Hu Hs
                    |fs1 i Hm Ht Hs]; intros Hr; try done;
    injection Hr as <-; (split; [done|]).
  - exists nd. split; [done|]. intros j ->. intros Hone.
    apply single_link_file in Hone. congruence.
  - exists (File i). rewrite lookup_insert_eq. split; [done|].
    intros ? [= <-].
    assert (2 <= nlink (<[tk:=File i]> (delete tk fs1)) i)%nat; [|lia].
    apply (nlink_two _ sk tk); [done| |apply lookup_insert_eq].
    by rewrite lookup_insert_ne, lookup_delete_ne.
  - exists (File i). rewrite lookup_insert_eq. split; [done|].
    intros ? [= <-].
    assert (2 <= nlink (<[tk:=File i]> fs1) i)%nat; [|lia].
    apply (nlink_two _ sk tk); [done| |apply lookup_insert_eq].
    by rewrite lookup_insert_ne.
Qed.

(** When nothing is returned, nothing but the directory has changed. *)
Lemma link_case_not_returned k :
  r = None -> k <> dk -> fs' !! k = fs !! k.
Proof using Hcase.
  intros Hr Hne. revert Hr.
  destruct Hcase; intros Hr; try done; eauto using dir_made_lookup_ne.
Qed.
End LinkCase.

(** ** The tree stays a tree *)

Lemma closed_insert_new fs k nd :
  closed fs -> fs !! k = None ->
  (forall a cs c, k = (a, cs ++ [c]) -> cs <> [] -> is_dir fs (a, cs) = true) ->
  closed (<[k := nd]> fs).
Proof.
  intros Hcl Hk Hparent a cs c nd' Hlook Hcs.
  assert (Hd : is_dir fs (a, cs) = true).
  { destruct (decide (k = (a, cs ++ [c]))) as [->|Hne].
    - by apply (Hparent a cs c).
    - rewrite lookup_insert_ne in Hlook by done. by apply (Hcl a cs c nd'). }
  rewrite is_dir_insert_ne; [done|].
  intros ->. apply is_dir_true in Hd as [n Hn]. congruence.
Qed.

Lemma closed_delete_file fs k j :
  closed fs -> fs !! k = Some (File j) -> closed (delete k fs).
Proof.
  intros Hcl Hk a cs c nd Hlook Hcs.
  assert (Hd : is_dir fs (a, cs) = true).
  { apply (Hcl a cs c nd); [|done].
    destruct (decide (k = (a, cs ++ [c]))) as [->|Hne].
    - by rewrite lookup_delete_eq in Hlook.
    - by rewrite lookup_delete_ne in Hlook. }
  rewrite is_dir_delete_ne; [done|].
  intros ->. apply is_dir_true in Hd as [n Hn]. congruence.
Qed.

Lemma names_ok_insert fs k nd :
  names_ok fs -> Forall entry_name k.2 -> names_ok (<[k := nd]> fs).
Proof.
  intros Hn Hk k' nd' Hlook. destruct (decide (k = k')) as [->|Hne]; [done|].
  rewrite lookup_insert_ne in Hlook by done. eauto.
Qed.

Lemma names_ok_delete fs k : names_ok fs -> names_ok (delete k fs).
Proof.
  intros Hn k' nd' Hlook. destruct (decide (k = k')) as [->|Hne].
  - by rewrite lookup_delete_eq in Hlook.
  - rewrite lookup_delete_ne in Hlook by done. eauto.
Qed.

Lemma names_ok_root outDir fs :
  target_ready outDir fs -> Forall entry_name (path_key outDir).2.
Proof.
  intros (_ & _ & Hn & Hroot). apply is_dir_true in Hroot as [n Hroot].
  apply (Hn _ _ Hroot).
Qed.

Lemma kapp_snoc_inv k c (a : bool) cs x :
  kapp k [c] = (a, cs ++ [x]) -> k = (a, cs) /\ c = x.
Proof.
  unfold kapp. destruct k as [b ks]. simpl. intros [= -> H].
  apply app_inj_tail in H as [-> ->]. done.
Qed.

(** The keys a call of the linker works on. *)
Lemma link_keys outDir source m :
  ~ under (path_key outDir) (path_key source) ->
  let d := (calculateTargetPath m).1 in
  let f := (calculateTargetPath m).2 in
  slash_free d = true /\ entry_name f
  /\ target_key outDir d f = kapp (dir_key outDir d) [f]
  /\ target_key outDir d f <> dir_key outDir d
  /\ path_key source <> target_key outDir d f
  /\ path_key source <> dir_key outDir d.
Proof.
  intros Hout d f.
  destruct (calculateTargetPath_names m d f) as [Hd Hf];
    [by destruct (calculateTargetPath m)|].
  split; [done|]. split; [done|]. split; [|split; [|split]].
  - by apply target_key_child.
  - by apply target_ne_dir.
  - intros E. apply Hout. rewrite E. apply target_key_under.
  - intros E. apply Hout. rewrite E. apply dir_key_under.
Qed.

Lemma link_step_run outDir source m i fs :
  target_ready outDir fs ->
  fs !! path_key source = Some (File i) ->
  ~ under (path_key outDir) (path_key source) ->
  exists r fs' t,
    linkFile outDir source m fs = (Returned r, fs', t)
    /\ link_step outDir source m fs r fs' t.
Proof.
  intros Hready Hsrc Hout. destruct (truthy (title m)) eqn:Htitle.
  - destruct (linkFile_cases outDir source m
                (calculateTargetPath m).1 (calculateTargetPath m).2 i fs)
      as (r & fs' & t & Hrun & Hcase); try done.
    { by destruct (calculateTargetPath m). }
    exists r, fs', t. split; [done|]. right. done.
  - exists None, fs, []. split; [|left; done].
    unfold linkFile. by rewrite Htitle.
Qed.

Lemma dir_made_ready outDir fs d fs1 :
  target_ready outDir fs -> slash_free d = true ->
  dir_made fs (dir_key outDir d) fs1 -> target_ready outDir fs1.
Proof.
  intros Hready Hd [[_ ->]|[Hnone ->]]; [done|].
  pose proof (names_ok_root outDir fs Hready) as Hroot_names.
  destruct Hready as (Hne & Hcl & Hn & Hroot).
  destruct (dir_key_cases outDir d Hd) as [[-> Hk]|[Hname Hk]].
  { rewrite Hk in Hnone. apply is_dir_true in Hroot as [n Hroot]. congruence. }
  rewrite Hk in *.
  split; [done|]. split; [|split].
  - apply closed_insert_new; [done..|].
    intros a cs c [E ->]%kapp_snoc_inv _. by rewrite <- E.
  - apply names_ok_insert; [done|].
    unfold kapp. simpl. apply Forall_app. split; [done|]. by constructor.
  - rewrite is_dir_insert_ne; [done|]. by apply kapp_ne_self.
Qed.

(** A call of the linker leaves the file system ready for the next. *)
Lemma link_step_ready outDir source m fs r fs' t :
  link_step outDir source m fs r fs' t ->
  ~ under (path_key outDir) (path_key source) ->
  target_ready outDir fs -> target_ready outDir fs'.
Proof.
  intros [(_ & _ & -> & _)|[_ Hcase]] Hout Hready; [done|].
  destruct (link_keys outDir source m Hout) as (Hd & Hf & Hchild & Htd & Hsk & Hsd).
  assert (Hmade_ready : forall fs1,
            dir_made fs (dir_key outDir (calculateTargetPath m).1) fs1 ->
            target_ready outDir fs1) by eauto using dir_made_ready.
  assert (Hlinked : forall fs1 i,
            target_ready outDir fs1 ->
            is_dir fs1 (dir_key outDir (calculateTargetPath m).1) = true ->
            fs1 !! target_key outDir (calculateTargetPath m).1
                     (calculateTargetPath m).2 = None ->
            target_ready outDir
              (<[target_key outDir (calculateTargetPath m).1
                   (calculateTargetPath m).2 := File i]> fs1)).
  { intros fs1 i Hr1 Hdir Hnone.
    pose proof (names_ok_root outDir fs1 Hr1) as Hroot_names.
    destruct Hr1 as (Hne & Hcl & Hn & Hroot).
    split; [done|]. split; [|split].
    - apply closed_insert_new; [done..|].
      rewrite Hchild. intros a cs c [E _]%kapp_snoc_inv _. by rewrite <- E.
    - apply names_ok_insert; [done|]. rewrite Hchild.
      unfold kapp, dir_key. simpl. rewrite !Forall_app.
      split; [split; [done|apply components_names]|by constructor].
    - destruct (decide (target_key outDir (calculateTargetPath m).1
                          (calculateTargetPath m).2 = path_key outDir))
        as [E|Hne'].
      + rewrite E in Hnone. apply is_dir_true in Hroot as [n Hroot]. congruence.
      + by rewrite is_dir_insert_ne. }
  destruct Hcase as [| | | |fs1 j i Hm Ht Hn Hu Hs|fs1 i Hm Ht Hs]; eauto.
  - apply Hlinked.
    + pose proof (Hmade_ready fs1 Hm) as Hr1.
      pose proof (names_ok_root outDir fs1 Hr1) as Hroot_names.
      destruct Hr1 as (Hne & Hcl & Hnames & Hroot).
      split; [done|]. split; [|split].
      * by apply (closed_delete_file fs1 _ j).
      * by apply names_ok_delete.
      * rewrite is_dir_delete_ne; [done|]. intros E. rewrite E in Ht.
        apply is_dir_true in Hroot as [n Hroot]. congruence.
    + rewrite is_dir_delete_ne by done. by eapply dir_made_is_dir.
    + apply lookup_delete_eq.
  - apply Hlinked; eauto using dir_made_is_dir.
Qed.

(** A call of the linker changes nothing outside the target tree. *)
Lemma link_step_outside outDir source m fs r fs' t k :
  link_step outDir source m fs r fs' t ->
  ~ under (path_key outDir) k -> fs' !! k = fs !! k.
Proof.
  intros [(_ & _ & -> & _)|[_ Hcase]] Hout; [done|].
  eapply link_case_frame; [done| |].
  - intros ->. apply Hout, dir_key_under.
  - intros ->. apply Hout, target_key_under.
Qed.

Lemma sources_ready_outside outDir entries fs fs' :
  (forall k, ~ under (path_key outDir) k -> fs' !! k = fs !! k) ->
  sources_ready outDir entries fs -> sources_ready outDir entries fs'.
Proof.
  intros Hframe Hs src m Hin. destruct (Hs src m Hin) as [Hout [i Hi]].
  split; [done|]. exists i. by rewrite Hframe.
Qed.

Lemma backed_outside outDir entries fs fs' j :
  (forall k, ~ under (path_key outDir) k -> fs' !! k = fs !! k) ->
  sources_ready outDir entries fs ->
  backed entries fs' j <-> backed entries fs j.
Proof.
  intros Hframe Hs. split; intros (src & m & Hin & Hj);
    exists src, m; (split; [done|]); destruct (Hs src m Hin) as [Hout _].
  - by rewrite <- Hframe.
  - by rewrite Hframe.
Qed.

(** A backed file of the target tree has at least two links. *)
Lemma backed_nlink outDir entries fs k j :
  sources_ready outDir entries fs -> under (path_key outDir) k ->
  fs !! k = Some (File j) -> backed entries fs j -> (2 <= nlink fs j)%nat.
Proof.
  intros Hs Hunder Hk (src & m & Hin & Hj).
  destruct (Hs src m Hin) as [Hout _].
  apply (nlink_two fs (path_key src) k); [|done..].
  intros E. apply Hout. by rewrite E.
Qed.

(** ** The target scanner *)

Lemma child_of_spec k (entry : key * node) ent :
  child_of k entry = Some ent <->
  entry.1 = kapp k [d_name ent]
  /\ d_isDirectory ent = match entry.2 with Dir _ => true | _ => false end
  /\ d_isFile ent = match entry.2 with File _ => true | _ => false end.
Proof.
  unfold child_of. destruct entry as [[a cs] nd]. simpl.
  destruct (rev cs) as [|name above] eqn:Erev.
  - split; [done|]. intros [E _]. unfold kapp in E. injection E as _ E.
    rewrite E, rev_app_distr in Erev. done.
  - assert (Hcs : cs = rev above ++ [name]).
    { rewrite <- (rev_involutive cs), Erev. done. }
    case_bool_decide as Hk.
    + split.
      * intros [= <-]. simpl. subst k cs. done.
      * intros (E & Hd & Hf). f_equal. destruct ent as [n' dd df]. simpl in *.
        unfold kapp in E. injection E as _ E. subst cs.
        apply app_inj_tail in E as [_ <-]. by subst.
    + split; [done|]. intros (E & _). exfalso. apply Hk.
      unfold kapp in E. destruct k as [b ks]. simpl in *.
      injection E as -> E. subst cs. by apply app_inj_tail in E as [-> _].
Qed.

Lemma elem_of_children k fs ent :
  ent ∈ omap (child_of k) (map_to_list fs) <->
  exists nd, fs !! kapp k [d_name ent] = Some nd
    /\ d_isDirectory ent = match nd with Dir _ => true | _ => false end
    /\ d_isFile ent = match nd with File _ => true | _ => false end.
Proof.
  rewrite list_elem_of_omap. split.
  - intros ([k' nd] & Hin & Hc). apply elem_of_map_to_list in Hin.
    apply child_of_spec in Hc as (E & Hd & Hf). simpl in *. subst k'. eauto.
  - intros (nd & Hk & Hd & Hf). exists (kapp k [d_name ent], nd).
    split; [by apply elem_of_map_to_list|]. by apply child_of_spec.
Qed.

Lemma readdir_run p fs :
  is_dir fs (path_key p) = true ->
  readdir p fs
  = (Returned (omap (child_of (path_key p)) (map_to_list fs)), fs,
     [(Readdir p, true)]).
Proof. intros H. unfold readdir. by rewrite H. Qed.

Lemma elem_of_set_add x y (s : list (list N)) :
  x ∈ set_add y s <-> x ∈ s \/ x = y.
Proof.
  unfold set_add, set_has. case_bool_decide as Hy.
  - split; [tauto|]. intros [?| ->]; done.
  - rewrite elem_of_app, list_elem_of_singleton. done.
Qed.

Lemma elem_of_set_delete x y (s : list (list N)) :
  x ∈ set_delete y s <-> x ∈ s /\ x <> y.
Proof.
  unfold set_delete. rewrite !list_elem_of_In, List.filter_In.
  rewrite negb_true_iff, bool_decide_eq_false. done.
Qed.

Lemma elem_of_scan_books dirName bookFiles epubs s :
  s ∈ scan_books dirName bookFiles epubs <->
  s ∈ epubs
  \/ exists file, file ∈ bookFiles /\ d_isFile file = true
       /\ ends_with (js ".epub") (d_name file) = true
       /\ s = dirName ++ js "/" ++ d_name file.
Proof.
  revert epubs. induction bookFiles as [|file rest IH]; intros epubs; simpl.
  - split; [tauto|]. intros [?|(file & Hin & _)]; [done|]. inversion Hin.
  - rewrite IH. clear IH.
    destruct (d_isFile file && ends_with (js ".epub") (d_name file)) eqn:E.
    + apply andb_true_iff in E as [E1 E2]. rewrite elem_of_set_add. split.
      * intros [[?| ->]|(x & Hin & ?)]; [tauto| |].
        -- right. exists file. repeat split; try done. by left.
        -- right. exists x. split; [by right|done].
      * intros [?|(x & [->|Hin]%elem_of_cons & H1 & H2 & ->)]; [tauto| |].
        -- left. by right.
        -- right. exists x. done.
    + split.
      * intros [?|(x & Hin & ?)]; [tauto|].
        right. exists x. split; [by right|done].
      * intros [?|(x & [->|Hin]%elem_of_cons & H1 & H2 & ->)]; [tauto| |].
        -- rewrite H1, H2 in E. done.
        -- right. exists x. done.
Qed.

Lemma scan_series_run outDir fs seriesDirs epubs :
  target_ready outDir fs ->
  (forall dir, dir ∈ seriesDirs ->
     dir ∈ omap (child_of (path_key outDir)) (map_to_list fs)) ->
  exists T t,
    scan_series outDir seriesDirs epubs fs = (Returned T, fs, t)
    /\ changes t = []
    /\ forall s, s ∈ T <->
         s ∈ epubs
         \/ exists dir file,
              dir ∈ seriesDirs /\ d_isDirectory dir = true
              /\ file ∈ omap (child_of (kapp (path_key outDir) [d_name dir]))
                         (map_to_list fs)
              /\ d_isFile file = true
              /\ ends_with (js ".epub") (d_name file) = true
              /\ s = d_name dir ++ js "/" ++ d_name file.
Proof.
  intros Hready. pose proof Hready as (Hne & _ & Hnames & _).
  revert epubs. induction seriesDirs as [|dir rest IH]; intros epubs Hdirs.
  - exists epubs, []. split; [done|]. split; [done|]. intros s.
    split; [tauto|]. intros [?|(dir & file & Hin & _)]; [done|]. inversion Hin.
  - cbn [scan_series].
    assert (Hrest : forall dir', dir' ∈ rest ->
              dir' ∈ omap (child_of (path_key outDir)) (map_to_list fs)).
    { intros dir' Hin. apply Hdirs. by right. }
    destruct (d_isDirectory dir) eqn:Edir; cbn [negb].
    + assert (Hdir : dir ∈ omap (child_of (path_key outDir)) (map_to_list fs)).
      { apply Hdirs. by left. }
      apply elem_of_children in Hdir as (nd & Hk & Hd & _).
      rewrite Edir in Hd. destruct nd as [|n]; [done|].
      assert (Hname : entry_name (d_name dir)).
      { pose proof (Hnames _ _ Hk) as Hall. unfold kapp in Hall. simpl in Hall.
        apply Forall_app in Hall as [_ Hall]. by inversion Hall. }
      assert (Hkey : path_key (outDir ++ js "/" ++ d_name dir)
                     = kapp (path_key outDir) [d_name dir]).
      { by rewrite path_key_join, components_name. }
      destruct (IH (scan_books (d_name dir)
                      (omap (child_of (kapp (path_key outDir) [d_name dir]))
                         (map_to_list fs)) epubs) Hrest)
        as (T & t & Hrun & Hquiet & Hspec).
      exists T, ((Readdir (outDir ++ js "/" ++ d_name dir), true) :: t).
      split; [|split].
      * rewrite run_bind, readdir_run.
        -- rewrite Hkey, Hrun. done.
        -- rewrite Hkey. apply is_dir_true. eauto.
      * unfold changes in *. simpl. done.
      * intros s. rewrite Hspec, elem_of_scan_books. split.
        -- intros [[?|(file & Hin & H1 & H2 & ->)]|(d' & file & Hin & H)];
             [tauto| |].
           ++ right. exists dir, file. split; [by left|]. done.
           ++ right. exists d', file. split; [by right|]. done.
        -- intros [?|(d' & file & [->|Hin]%elem_of_cons & H)]; [tauto| |].
           ++ left. right. exists file. tauto.
           ++ right. exists d', file. tauto.
    + destruct (IH epubs Hrest) as (T & t & Hrun & Hquiet & Hspec).
      exists T, t. split; [done|]. split; [done|].
      intros s. rewrite Hspec. split.
      * intros [?|(d' & file & Hin & H)]; [tauto|].
        right. exists d', file. split; [by right|]. done.
      * intros [?|(d' & file & [->|Hin]%elem_of_cons & H)]; [tauto| |].
        -- destruct H as [H _]. congruence.
        -- right. exists d', file. tauto.
Qed.

(** [getFilesInTargetDir] returns the relative paths of the e-book files of
    the subdirectories of the target root, and changes nothing. *)
Lemma getFilesInTargetDir_run outDir fs :
  target_ready outDir fs ->
  exists T t,
    getFilesInTargetDir outDir fs = (Returned T, fs, t)
    /\ changes t = []
    /\ forall s, s ∈ T <-> target_file outDir fs s.
Proof.
  intros Hready. pose proof Hready as (Hne & _ & Hnames & Hroot).
  destruct (scan_series_run outDir fs
              (omap (child_of (path_key outDir)) (map_to_list fs)) [] Hready)
    as (T & t & Hrun & Hquiet & Hspec); [done|].
  exists T, ((Readdir outDir, true) :: t). split; [|split].
  - unfold getFilesInTargetDir. rewrite run_bind, readdir_run by done.
    by rewrite Hrun.
  - done.
  - intros s. rewrite Hspec. unfold target_file. split.
    + intros [Hin|(dir & file & Hdir & Edir & Hfile & Efile & Hepub & ->)];
        [inversion Hin|].
      apply elem_of_children in Hdir as (nd & Hk & Hd & _).
      apply elem_of_children in Hfile as (nd' & Hk' & _ & Hf).
      rewrite Edir in Hd. rewrite Efile in Hf.
      destruct nd as [|n]; [done|]. destruct nd' as [j|]; [|done].
      exists (d_name dir), (d_name file), j, n. rewrite kapp_app in Hk'. done.
    + intros (d & f & j & n & -> & Hd & Hf & Hepub). right.
      exists {| d_name := d; d_isDirectory := true; d_isFile := false |},
             {| d_name := f; d_isDirectory := false; d_isFile := true |}.
      simpl. repeat split; try done.
      * apply elem_of_children. simpl. eauto.
      * apply elem_of_children. simpl. rewrite kapp_app. eauto.
Qed.

Lemma target_file_names outDir fs s :
  target_ready outDir fs -> target_file outDir fs s ->
  exists d f, s = d ++ js "/" ++ f /\ entry_name d /\ entry_name f
    /\ split_slash s = [d; f]
    /\ is_dir fs (kapp (path_key outDir) [d]) = true
    /\ exists j, fs !! kapp (path_key outDir) [d; f] = Some (File j).
Proof.
  intros (_ & _ & Hnames & _) (d & f & j & n & -> & Hd & Hf & _).
  pose proof (Hnames _ _ Hf) as Hall. unfold kapp in Hall. simpl in Hall.
  apply Forall_app in Hall as [_ Hall].
  inversion Hall as [|? ? Hdn Hall']; subst. inversion Hall' as [|? ? Hfn _]; subst.
  exists d, f. repeat split; try done; try apply Hdn; try apply Hfn.
  - rewrite split_slash_join.
    by rewrite (split_slash_name d), (split_slash_name f)
      by (apply Hdn || apply Hfn).
  - apply is_dir_true. eauto.
  - eauto.
Qed.

(** ** The two loops of the reconciler *)

Lemma link_all_cons outDir source m rest T fs r fs1 t1 :
  linkFile outDir source m fs = (Returned r, fs1, t1) ->
  link_all outDir ((source, m) :: rest) T fs
  = let '(res, fs2, t2) := link_all outDir rest (confirm r T) fs1 in
    (res, fs2, t1 ++ t2).
Proof.
  intros Hrun. cbn [link_all]. rewrite run_bind.
  unfold try_catch. rewrite run_bind, Hrun. cbn [mret IO_ret].
  rewrite app_nil_r. done.
Qed.

(** Induction over the first loop: a property of the entries linked so far,
    of what is left of [targetFiles], of the file system and of the calls
    made that every call of the linker preserves holds at the end. *)
Lemma link_all_ind outDir entries
    (P : list (list N * OpfMetadata) -> list (list N) -> gmap key node
         -> trace -> Prop) :
  (forall linked source m todo T fs t r fs' t',
     entries = linked ++ (source, m) :: todo ->
     target_ready outDir fs -> sources_ready outDir entries fs ->
     P linked T fs t ->
     link_step outDir source m fs r fs' t' ->
     P (linked ++ [(source, m)]) (confirm r T) fs' (t ++ t')) ->
  forall todo linked T fs t,
    entries = linked ++ todo ->
    target_ready outDir fs -> sources_ready outDir entries fs ->
    P linked T fs t ->
    exists T' fs' t',
      link_all outDir todo T fs = (Returned T', fs', t')
      /\ target_ready outDir fs' /\ sources_ready outDir entries fs'
      /\ P entries T' fs' (t ++ t').
Proof.
  intros Hstep. induction todo as [|[source m] todo IH];
    intros linked T fs t Hall Hready Hsources HP.
  - exists T, fs, []. rewrite !app_nil_r in *. subst. done.
  - destruct (Hsources source m) as [Hout [i Hi]].
    { rewrite Hall. apply elem_of_app. right. by left. }
    destruct (link_step_run outDir source m i fs Hready Hi Hout)
      as (r & fs1 & t1 & Hrun & Hlink).
    assert (Hready1 : target_ready outDir fs1)
      by by eapply link_step_ready.
    assert (Hsources1 : sources_ready outDir entries fs1).
    { eapply sources_ready_outside; [|done].
      intros k Hk. by eapply link_step_outside. }
    destruct (IH (linked ++ [(source, m)]) (confirm r T) fs1 (t ++ t1))
      as (T' & fs' & t' & Hrest & Hready' & Hsources' & HP').
    + by rewrite <- app_assoc.
    + done.
    + done.
    + exact (Hstep linked source m todo T fs t r fs1 t1
               Hall Hready Hsources HP Hlink).
    + exists T', fs', (t1 ++ t'). rewrite (link_all_cons _ _ _ _ _ _ _ _ _ Hrun).
      rewrite Hrest. rewrite app_assoc. done.
Qed.

Lemma confirm_subset r T s : s ∈ confirm r T -> s ∈ T.
Proof.
  unfold confirm. destruct r as [p|]; [|done].
  destruct (nonempty p && set_has p T); [|done].
  rewrite elem_of_set_delete. tauto.
Qed.

Lemma confirm_spec r T s :
  s ∈ confirm r T <-> s ∈ T /\ (r = Some s -> s = []).
Proof.
  unfold confirm. destruct r as [p|].
  - destruct (nonempty p && set_has p T) eqn:E.
    + rewrite elem_of_set_delete. apply andb_true_iff in E as [E1 E2].
      split.
      * intros [Hin Hne]. split; [done|]. intros [= ->]. done.
      * intros [Hin Hne]. split; [done|]. intros ->.
        specialize (Hne eq_refl). subst. done.
    + split; [|tauto]. intros Hin. split; [done|]. intros [= ->].
      destruct s; [done|]. simpl in E.
      unfold set_has in E. rewrite bool_decide_eq_true_2 in E; done.
  - split; [|tauto]. intros Hin. split; [done|]. done.
Qed.

(** The second loop. *)
Lemma prune_all_run outDir unused fs :
  prune_all outDir unused fs
  = (Returned tt, prune_fs outDir unused fs, prune_trace outDir unused fs).
Proof.
  revert fs. induction unused as [|s rest IH]; intros fs; [done|].
  cbn [prune_all prune_trace]. fold (prune_path outDir s).
  unfold prune_fs. cbn [foldl]. fold (prune_fs outDir rest (prune_one outDir fs s)).
  rewrite run_bind. unfold prune_one.
  destruct (unsafe_path (prune_path outDir s)) eqn:Eunsafe.
  - rewrite (run_try_thrown _ _ fs fs [] (Returned tt) fs []); [|by unfold safeUnlink; rewrite Eunsafe|done].
    by rewrite IH.
  - unfold safeUnlink. rewrite Eunsafe.
    destruct (fs !! path_key (prune_path outDir s)) as [[j|n]|] eqn:Ek.
    + rewrite (run_try_returned _ _ fs tt
                 (delete (path_key (prune_path outDir s)) fs)
                 [(Unlink (prune_path outDir s), true)]).
      * by rewrite IH.
      * rewrite !run_bind. unfold unlink. by rewrite Ek.
    + rewrite (run_try_thrown _ _ fs fs
                 [(Unlink (prune_path outDir s), false)] (Returned tt) fs []);
        [by rewrite IH| |done].
      rewrite !run_bind. unfold unlink. by rewrite Ek.
    + rewrite (run_try_thrown _ _ fs fs
                 [(Unlink (prune_path outDir s), false)] (Returned tt) fs []);
        [by rewrite IH| |done].
      rewrite !run_bind. unfold unlink. by rewrite Ek.
Qed.

Lemma prune_path_names outDir d f :
  slash_free d = true -> slash_free f = true ->
  prune_path outDir (d ++ js "/" ++ f) = outDir ++ js "/" ++ d ++ js "/" ++ f.
Proof.
  intros Hd Hf. unfold prune_path.
  by rewrite split_slash_join, (split_slash_name d), (split_slash_name f).
Qed.

Lemma prune_path_under outDir s :
  outDir <> [] -> under (path_key outDir) (path_key (prune_path outDir s)).
Proof.
  intros Hne. unfold prune_path. rewrite target_key_path by done.
  apply target_key_under.
Qed.

Lemma prune_one_lookup outDir fs s k :
  prune_one outDir fs s !! k = fs !! k
  \/ (k = path_key (prune_path outDir s)
      /\ unsafe_path (prune_path outDir s) = false
      /\ (exists j, fs !! k = Some (File j))
      /\ prune_one outDir fs s !! k = None).
Proof.
  unfold prune_one. destruct (unsafe_path (prune_path outDir s)); [by left|].
  destruct (fs !! path_key (prune_path outDir s)) as [[j|n]|] eqn:E;
    [|by left..].
  destruct (decide (k = path_key (prune_path outDir s))) as [->|Hne].
  - right. rewrite lookup_delete_eq. eauto.
  - left. by rewrite lookup_delete_ne.
Qed.

Lemma prune_fs_lookup outDir unused fs k :
  prune_fs outDir unused fs !! k = fs !! k
  \/ (prune_fs outDir unused fs !! k = None
      /\ (exists j, fs !! k = Some (File j))
      /\ exists s, s ∈ unused /\ k = path_key (prune_path outDir s)
           /\ unsafe_path (prune_path outDir s) = false).
Proof.
  revert fs. induction unused as [|s rest IH]; intros fs; [by left|].
  unfold prune_fs. cbn [foldl]. fold (prune_fs outDir rest (prune_one outDir fs s)).
  destruct (IH (prune_one outDir fs s)) as [E|(E & [j Hj] & s' & Hin & Hk & Hsafe)].
  - rewrite E. destruct (prune_one_lookup outDir fs s k)
      as [E'|(Hk & Hsafe & Hfile & Hnone)]; [by left|].
    right. repeat split; try done. exists s. split; [by left|done].
  - right. split; [done|].
    destruct (prune_one_lookup outDir fs s k)
      as [E'|(_ & _ & _ & Hnone)]; [|congruence].
    rewrite E' in Hj. split; [eauto|]. exists s'. split; [by right|done].
Qed.

Lemma prune_fs_removed outDir unused fs s j :
  s ∈ unused -> unsafe_path (prune_path outDir s) = false ->
  fs !! path_key (prune_path outDir s) = Some (File j) ->
  prune_fs outDir unused fs !! path_key (prune_path outDir s) = None.
Proof.
  revert fs. induction unused as [|s' rest IH]; intros fs Hin Hsafe Hk;
    [inversion Hin|].
  unfold prune_fs. cbn [foldl]. fold (prune_fs outDir rest (prune_one outDir fs s')).
  destruct (prune_fs_lookup outDir rest (prune_one outDir fs s')
              (path_key (prune_path outDir s))) as [E|[E _]]; [|done].
  rewrite E.
  destruct (prune_one_lookup outDir fs s' (path_key (prune_path outDir s)))
    as [E'|(_ & _ & _ & Hnone)]; [|done].
  apply elem_of_cons in Hin as [->|Hin].
  - unfold prune_one. rewrite Hsafe, Hk. apply lookup_delete_eq.
  - rewrite <- E. apply IH; [done..|]. by rewrite E'.
Qed.

Lemma prune_one_quiet outDir fs s :
  unsafe_path (prune_path outDir s) = true
  \/ (forall j, fs !! path_key (prune_path outDir s) <> Some (File j)) ->
  prune_one outDir fs s = fs.
Proof.
  intros H. unfold prune_one.
  destruct (unsafe_path (prune_path outDir s)); [done|].
  destruct H as [H|H]; [done|].
  destruct (fs !! path_key (prune_path outDir s)) as [[j|n]|]; try done.
  by destruct (H j).
Qed.

(** When every path left is refused or names no regular file, the second
    loop changes nothing. *)
Lemma prune_quiet outDir unused fs :
  (forall s, s ∈ unused ->
     unsafe_path (prune_path outDir s) = true
     \/ forall j, fs !! path_key (prune_path outDir s) <> Some (File j)) ->
  prune_fs outDir unused fs = fs /\ changes (prune_trace outDir unused fs) = [].
Proof.
  induction unused as [|s rest IH]; intros H; [done|].
  unfold prune_fs. cbn [foldl prune_trace].
  assert (Hs : unsafe_path (prune_path outDir s) = true
               \/ forall j, fs !! path_key (prune_path outDir s) <> Some (File j)).
  { apply H. by left. }
  rewrite (prune_one_quiet outDir fs s Hs).
  destruct IH as [IH1 IH2]. { intros s' Hin. apply H. by right. }
  split; [done|]. unfold changes in *. rewrite List.filter_app, IH2, app_nil_r.
  destruct (unsafe_path (prune_path outDir s)); [done|].
  destruct Hs as [?|Hs]; [done|].
  destruct (fs !! path_key (prune_path outDir s)) as [[j|n]|]; try done.
  by destruct (Hs j).
Qed.

(** The calls of the second loop are [unlink] calls on the paths it makes
    of the elements of [targetFiles]. *)
Lemma prune_trace_calls outDir unused fs e :
  e ∈ prune_trace outDir unused fs ->
  exists s, s ∈ unused /\ e.1 = Unlink (prune_path outDir s)
    /\ unsafe_path (prune_path outDir s) = false.
Proof.
  revert fs. induction unused as [|s rest IH]; intros fs Hin; [inversion Hin|].
  cbn [prune_trace] in Hin. apply elem_of_app in Hin as [Hin|Hin].
  - destruct (unsafe_path (prune_path outDir s)) eqn:E; [inversion Hin|].
    apply list_elem_of_singleton in Hin as ->. exists s. split; [by left|done].
  - destruct (IH _ Hin) as (s' & Hin' & H). exists s'. split; [by right|done].
Qed.

Lemma prune_one_ready outDir fs s :
  target_ready outDir fs -> target_ready outDir (prune_one outDir fs s).
Proof.
  intros Hready. unfold prune_one.
  destruct (unsafe_path (prune_path outDir s)); [done|].
  destruct (fs !! path_key (prune_path outDir s)) as [[j|n]|] eqn:E; try done.
  destruct Hready as (Hne & Hcl & Hn & Hroot).
  split; [done|]. split; [|split].
  - by apply (closed_delete_file fs _ j).
  - by apply names_ok_delete.
  - rewrite is_dir_delete_ne; [done|]. intros E'. rewrite E' in E.
    apply is_dir_true in Hroot as [n Hroot]. congruence.
Qed.

Lemma prune_fs_ready outDir unused fs :
  target_ready outDir fs -> target_ready outDir (prune_fs outDir unused fs).
Proof.
  revert fs. induction unused as [|s rest IH]; intros fs Hready; [done|].
  unfold prune_fs. cbn [foldl]. apply IH. by apply prune_one_ready.
Qed.

Lemma prune_fs_outside outDir unused fs k :
  outDir <> [] -> ~ under (path_key outDir) k ->
  prune_fs outDir unused fs !! k = fs !! k.
Proof.
  intros Hne Hout.
  destruct (prune_fs_lookup outDir unused fs k)
    as [E|(_ & _ & s & _ & -> & _)]; [done|].
  destruct Hout. by apply prune_path_under.
Qed.

(** ** The safe remover and the title check of the linker *)

(** C8: a path with fewer than two separators, or one that begins with a
    doubled separator, is refused: [safeUnlink] returns [false], does not
    throw and makes no call; on any other path the error of [unlink] is
    thrown to the caller, and a successful removal returns [true]. *)
Theorem safeUnlink_guard filePath fs :
  ((count_slashes filePath < 2)%nat \/ starts_with (js "//") filePath = true ->
     safeUnlink filePath fs = (Returned false, fs, []))
  /\ (~ ((count_slashes filePath < 2)%nat
         \/ starts_with (js "//") filePath = true) ->
      (forall fs' t, unlink filePath fs = (Thrown, fs', t) ->
         safeUnlink filePath fs = (Thrown, fs', t))
      /\ (forall fs' t, unlink filePath fs = (Returned tt, fs', t) ->
         safeUnlink filePath fs = (Returned true, fs', t))).
Proof.
  assert (Hguard : unsafe_path filePath = true <->
            (count_slashes filePath < 2)%nat
            \/ starts_with (js "//") filePath = true).
  { unfold unsafe_path. rewrite orb_true_iff, Nat.ltb_lt. done. }
  split.
  - intros H. apply Hguard in H. unfold safeUnlink. by rewrite H.
  - intros H. assert (Hsafe : unsafe_path filePath = false).
    { destruct (unsafe_path filePath); [|done]. destruct H. by apply Hguard. }
    unfold safeUnlink. rewrite Hsafe. split; intros fs' t Hrun.
    + by rewrite run_bind, Hrun.
    + rewrite run_bind, Hrun. cbn. by rewrite app_nil_r.
Qed.

(** The unsafe path of the test suite. *)
Lemma safeUnlink_guard_witness :
  safeUnlink (js "/root-file") (∅ : gmap key node) = (Returned false, ∅, []).
Proof.
  apply (proj1 (safeUnlink_guard (js "/root-file") ∅)).
  left. vm_compute. lia.
Defined.

(** A missing file below the target root: the error of [unlink] reaches the
    caller. *)
Example safeUnlink_throws :
  safeUnlink (js "/out/Books/gone.epub") (∅ : gmap key node)
  = (Thrown, ∅, [(Unlink (js "/out/Books/gone.epub"), false)]).
Proof. reflexivity. Qed.

(** C9: for metadata without a title [linkFile] returns [null] (here
    [None]) and makes no call: no directory is made, no file removed, no
    link created. *)
Theorem linkFile_without_title outDir source m fs :
  title m = None ->
  linkFile outDir source m fs = (Returned None, fs, []).
Proof. intros H. unfold linkFile. by rewrite H. Qed.

Lemma linkFile_without_title_witness :
  linkFile (js "/out") (js "/in/Jane Doe/A Book/A Book.epub")
    (mk_meta None None None None) (∅ : gmap key node)
  = (Returned None, ∅, []).
Proof. apply linkFile_without_title. reflexivity. Defined.

(** The same holds for the empty title, which is falsy as well. *)
Lemma linkFile_empty_title outDir source m fs :
  title m = Some [] ->
  linkFile outDir source m fs = (Returned None, fs, []).
Proof. intros H. unfold linkFile. by rewrite H. Qed.

(** On the paths that the linker and the pruning loop build, the guard only
    looks at the target root: such a path has two separators, and it
    begins with a doubled separator when the target root followed by a
    separator does. *)
Lemma unsafe_target_path outDir d f :
  outDir <> [] ->
  unsafe_path (outDir ++ js "/" ++ d ++ js "/" ++ f)
  = starts_with (js "//") (outDir ++ js "/").
Proof.
  intros Hne. unfold unsafe_path.
  assert (Hcount : (2 <= count_slashes (outDir ++ js "/" ++ d ++ js "/" ++ f))%nat).
  { unfold count_slashes. rewrite !List.filter_app, !length_app.
    change (length (List.filter (fun c => c =? 47) (js "/"))) with 1%nat. lia. }
  apply Nat.ltb_ge in Hcount. rewrite Hcount. cbn [orb].
  destruct outDir as [|c [|c' r]]; [done|..]; reflexivity.
Qed.

(** ** Pruning and the files of the target root *)

Lemma target_key_names outDir d f :
  entry_name d -> entry_name f ->
  target_key outDir d f = kapp (path_key outDir) [d; f].
Proof.
  intros Hd Hf. unfold target_key, dir_key.
  by rewrite kapp_app, !components_name.
Qed.

Lemma target_key_root outDir f :
  entry_name f -> target_key outDir [] f = kapp (path_key outDir) [f].
Proof.
  intros Hf. unfold target_key, dir_key.
  by rewrite kapp_app, (components_name f).
Qed.

Lemma linkFile_returns outDir source m fs :
  exists r fs' t, linkFile outDir source m fs = (Returned r, fs', t).
Proof.
  unfold linkFile. destruct (negb (truthy (title m))); [by eexists _, _, _|].
  destruct (calculateTargetPath m) as [d f]. unfold try_catch at 1.
  match goal with |- context [match ?b with _ => _ end] =>
    destruct b as [[[a|] fs1] t1] end; by eexists _, _, _.
Qed.

(** Whatever the linker does, the first loop only takes paths out of
    [targetFiles]. *)
Lemma link_all_subset outDir entries T fs :
  exists unused fs1 t1,
    link_all outDir entries T fs = (Returned unused, fs1, t1)
    /\ forall s, s ∈ unused -> s ∈ T.
Proof.
  revert T fs. induction entries as [|[source m] rest IH]; intros T fs.
  - exists T, fs, []. split; [reflexivity|auto].
  - destruct (linkFile_returns outDir source m fs) as (r & fs1 & t1 & Hrun).
    destruct (IH (confirm r T) fs1) as (unused & fs2 & t2 & Hrest & Hsub).
    exists unused, fs2, (t1 ++ t2).
    rewrite (link_all_cons _ _ _ _ _ _ _ _ _ Hrun), Hrest.
    split; [done|]. intros s Hs. eapply confirm_subset. eauto.
Qed.

Lemma syncFiles_run outDir entries fs T t0 unused fs1 t1 :
  getFilesInTargetDir outDir fs = (Returned T, fs, t0) ->
  link_all outDir entries T fs = (Returned unused, fs1, t1) ->
  syncFiles outDir entries fs
  = (Returned tt, prune_fs outDir unused fs1,
     t0 ++ t1 ++ prune_trace outDir unused fs1).
Proof.
  intros Hscan Hlink. unfold syncFiles.
  rewrite run_bind, Hscan, run_bind, Hlink, prune_all_run. done.
Qed.

(** C10 as stated fails for the pass as a whole: the linker removes a
    single-link file that lies directly in the target root when the
    sanitized series of an entry is empty, and puts a link of the source
    file in its place. *)
Lemma linker_replaces_root_file :
  root_stray_fs !! kapp (path_key (js "/out")) [js " - 01.epub"]
    = Some (File 7)
  /\ path_key (js "/out// - 01.epub")
     = kapp (path_key (js "/out")) [js " - 01.epub"]
  /\ removed_paths
       (calls_of (syncFiles (js "/out") odd_series_entries root_stray_fs))
     = [js "/out// - 01.epub"]
  /\ fs_after (syncFiles (js "/out") odd_series_entries root_stray_fs)
       !! kapp (path_key (js "/out")) [js " - 01.epub"]
     = Some (File 1).
Proof. repeat split; by vm_compute. Qed.

(** ** One pass of the reconciler *)

(** Induction over a pass: the scan, then the first loop with a property
    that every call of the linker preserves, then the pruning of what is
    left of [targetFiles]. *)
Lemma syncFiles_ind outDir entries fs
    (P : list (list N * OpfMetadata) -> list (list N) -> gmap key node
         -> trace -> Prop) :
  target_ready outDir fs -> sources_ready outDir entries fs ->
  (forall T : list (list N),
     (forall s, s ∈ T <-> target_file outDir fs s) -> P [] T fs []) ->
  (forall linked source m todo T fs0 t r fs' t',
     entries = linked ++ (source, m) :: todo ->
     target_ready outDir fs0 -> sources_ready outDir entries fs0 ->
     P linked T fs0 t ->
     link_step outDir source m fs0 r fs' t' ->
     P (linked ++ [(source, m)]) (confirm r T) fs' (t ++ t')) ->
  exists (T : list (list N)) t0 (unused : list (list N)) fs1 t1,
    (forall s, s ∈ T <-> target_file outDir fs s)
    /\ changes t0 = []
    /\ syncFiles outDir entries fs
       = (Returned tt, prune_fs outDir unused fs1,
          t0 ++ t1 ++ prune_trace outDir unused fs1)
    /\ target_ready outDir fs1 /\ sources_ready outDir entries fs1
    /\ (forall s, s ∈ unused -> s ∈ T)
    /\ P entries unused fs1 t1.
Proof.
  intros Hready Hsources Hinit Hstep.
  destruct (getFilesInTargetDir_run outDir fs Hready)
    as (T & t0 & Hscan & Hquiet & HT).
  destruct (link_all_ind outDir entries P Hstep entries [] T fs [])
    as (unused & fs1 & t1 & Hlink & Hready1 & Hsources1 & HP); auto.
  destruct (link_all_subset outDir entries T fs)
    as (unused' & fs1' & t1' & Hlink' & Hsub).
  rewrite Hlink in Hlink'. injection Hlink' as <- <- <-.
  exists T, t0, unused, fs1, t1.
  split; [done|]. split; [done|].
  split; [by apply (syncFiles_run outDir entries fs T)|].
  split; [done|]. split; [done|]. split; done.
Qed.

Lemma join_inj d f d' f' :
  slash_free d = true -> slash_free f = true ->
  slash_free d' = true -> slash_free f' = true ->
  d ++ js "/" ++ f = d' ++ js "/" ++ f' -> d = d' /\ f = f'.
Proof.
  intros Hd Hf Hd' Hf' E. apply (f_equal split_slash) in E.
  rewrite !split_slash_join in E.
  rewrite (split_slash_name d), (split_slash_name f),
    (split_slash_name d'), (split_slash_name f') in E by done.
  by injection E.
Qed.

Lemma join_nonempty d f : d ++ js "/" ++ f <> [].
Proof. by destruct d. Qed.

Lemma target_names outDir fs d f nd :
  target_ready outDir fs ->
  fs !! kapp (path_key outDir) [d; f] = Some nd ->
  entry_name d /\ entry_name f.
Proof.
  intros (_ & _ & Hnames & _) Hk. pose proof (Hnames _ _ Hk) as Hall.
  unfold kapp in Hall. simpl in Hall. apply Forall_app in Hall as [_ Hall].
  inversion Hall as [|? ? Hd Hall']; subst.
  by inversion Hall' as [|? ? Hf _]; subst.
Qed.

(** The directory of an entry is not a key two levels below the root, and
    its target is one only for the same directory and file name. *)
Lemma dir_key_ne_target outDir d' d f :
  slash_free d' = true ->
  dir_key outDir d' <> kapp (path_key outDir) [d; f].
Proof.
  intros Hd'. destruct (dir_key_cases outDir d' Hd') as [[_ ->]|[_ ->]].
  - intros E. symmetry in E. by apply kapp_ne_self in E.
  - by apply kapp_length_ne.
Qed.

Lemma target_key_eq_inv outDir d' f' d f :
  slash_free d' = true -> entry_name f' ->
  target_key outDir d' f' = kapp (path_key outDir) [d; f] ->
  d' = d /\ f' = f.
Proof.
  intros Hd' Hf'. rewrite target_key_child by done.
  destruct (dir_key_cases outDir d' Hd') as [[_ ->]|[_ ->]];
    rewrite ?kapp_app; intros E%kapp_inj; simpl in E; by simplify_eq.
Qed.

(** A file of the target tree that is the target of no entry with a title
    is left alone by the first loop and stays in [targetFiles]. *)
Lemma unclaimed_survives_linking outDir entries fs d f j :
  target_ready outDir fs -> sources_ready outDir entries fs ->
  fs !! kapp (path_key outDir) [d; f] = Some (File j) ->
  (forall source m, (source, m) ∈ entries -> truthy (title m) = true ->
     calculateTargetPath m <> (d, f)) ->
  forall linked source m todo T fs0 r fs' t',
    entries = linked ++ (source, m) :: todo ->
    sources_ready outDir entries fs0 ->
    (d ++ js "/" ++ f) ∈ T /\ fs0 !! kapp (path_key outDir) [d; f] = Some (File j) ->
    link_step outDir source m fs0 r fs' t' ->
    (d ++ js "/" ++ f) ∈ confirm r T
    /\ fs' !! kapp (path_key outDir) [d; f] = Some (File j).
Proof.
  intros Hready Hsources Hk Hunclaimed linked source m todo T fs0 r fs' t'
    Hall Hsources0 [HT Hk0] Hstep.
  destruct (target_names outDir fs d f _ Hready Hk) as [Hd Hf].
  assert (Hin : (source, m) ∈ entries).
  { rewrite Hall. apply elem_of_app. right. by left. }
  destruct Hstep as [(_ & -> & -> & _)|[Htitle Hcase]]; [done|].
  destruct (Hsources0 source m Hin) as [Hout _].
  destruct (link_keys outDir source m Hout)
    as (Hd' & Hf' & Hchild & Htd & Hsk & Hsd).
  assert (Hne : (calculateTargetPath m).1 <> d \/ (calculateTargetPath m).2 <> f).
  { destruct (decide ((calculateTargetPath m).1 = d)) as [E1|]; [|tauto].
    destruct (decide ((calculateTargetPath m).2 = f)) as [E2|]; [|tauto].
    destruct (Hunclaimed source m Hin Htitle).
    destruct (calculateTargetPath m). simpl in *. by subst. }
  split.
  - apply confirm_spec. split; [done|]. intros ->.
    destruct (link_case_returned _ _ _ _ _ _ _ _ _ _ _ Hcase Htd Hsk Hsd _ eq_refl)
      as [E _].
    apply join_inj in E as [E1 E2];
      [|apply Hd|apply Hf|done|apply Hf']. destruct Hne; congruence.
  - rewrite <- Hk0. eapply link_case_frame; [done| |].
    + intros E. symmetry in E. by apply dir_key_ne_target in E.
    + intros E. symmetry in E.
      apply target_key_eq_inv in E as [E1 E2]; [|done..].
      destruct Hne; congruence.
Qed.

(** An e-book file of the target tree that is the target of no entry with
    a title is gone after the pass, when the safe remover accepts its
    path. *)
Lemma unclaimed_file_pruned outDir entries fs d f j n :
  target_ready outDir fs -> sources_ready outDir entries fs ->
  fs !! kapp (path_key outDir) [d] = Some (Dir n) ->
  fs !! kapp (path_key outDir) [d; f] = Some (File j) ->
  ends_with (js ".epub") f = true ->
  (forall source m, (source, m) ∈ entries -> truthy (title m) = true ->
     calculateTargetPath m <> (d, f)) ->
  unsafe_path (outDir ++ js "/" ++ d ++ js "/" ++ f) = false ->
  fs_after (syncFiles outDir entries fs) !! kapp (path_key outDir) [d; f] = None.
Proof.
  intros Hready Hsources Hdir Hk Hepub Hunclaimed Hsafe.
  pose proof Hready as (Hne & _).
  destruct (target_names outDir fs d f _ Hready Hk) as [Hd Hf].
  destruct (syncFiles_ind outDir entries fs
    (fun _ T fs0 _ =>
       (d ++ js "/" ++ f) ∈ T
       /\ fs0 !! kapp (path_key outDir) [d; f] = Some (File j)) Hready Hsources)
    as (T & t0 & unused & fs1 & t1 & _ & _ & Hrun & _ & _ & _ & Hin & Hk1).
  - intros T HT. split; [|done]. apply HT. exists d, f, j, n. done.
  - intros linked source m todo T fs0 t r fs' t' Hall _ Hsources0 HP Hstep.
    by eapply (unclaimed_survives_linking outDir entries fs).
  - rewrite Hrun. unfold fs_after. cbn [fst snd].
    assert (Hpath : prune_path outDir (d ++ js "/" ++ f)
                    = outDir ++ js "/" ++ d ++ js "/" ++ f).
    { apply prune_path_names; [apply Hd|apply Hf]. }
    assert (Hkey : path_key (prune_path outDir (d ++ js "/" ++ f))
                   = kapp (path_key outDir) [d; f]).
    { by rewrite Hpath, target_key_path, target_key_names. }
    rewrite <- Hkey.
    apply (prune_fs_removed outDir unused fs1 _ j); [done| |].
    + by rewrite Hpath.
    + by rewrite Hkey.
Qed.

(** An e-book file of the target tree that is the target of an entry with
    a title is a file after the pass as well. *)
Lemma claimed_file_kept outDir entries fs d f j n source0 m0 :
  target_ready outDir fs -> sources_ready outDir entries fs ->
  fs !! kapp (path_key outDir) [d] = Some (Dir n) ->
  fs !! kapp (path_key outDir) [d; f] = Some (File j) ->
  (source0, m0) ∈ entries -> truthy (title m0) = true ->
  calculateTargetPath m0 = (d, f) ->
  exists j',
    fs_after (syncFiles outDir entries fs) !! kapp (path_key outDir) [d; f]
    = Some (File j').
Proof.
  intros Hready Hsources Hdir Hk Hin0 Htitle0 Hpath0.
  pose proof Hready as (Hne & _).
  destruct (target_names outDir fs d f _ Hready Hk) as [Hd Hf].
  destruct (syncFiles_ind outDir entries fs
    (fun linked T fs0 _ =>
       fs0 !! kapp (path_key outDir) [d] = Some (Dir n)
       /\ (exists j', fs0 !! kapp (path_key outDir) [d; f] = Some (File j'))
       /\ ((source0, m0) ∈ linked ->
           (d ++ js "/" ++ f) ∉ T
           \/ unsafe_path (outDir ++ js "/" ++ d ++ js "/" ++ f) = true))
    Hready Hsources)
    as (T & t0 & unused & fs1 & t1 & HT & _ & Hrun & Hready1 & _ & Hsub
        & Hdir1 & [j1 Hk1] & Hdone).
  - intros T HT. split; [done|]. split; [eauto|]. intros Hin. inversion Hin.
  - intros linked source m todo T fs0 t r fs' t' Hall Hready0 Hsources0
      (Hdir0 & [j0 Hk0] & Hdone) Hstep.
    assert (Hin : (source, m) ∈ entries).
    { rewrite Hall. apply elem_of_app. right. by left. }
    destruct (Hsources0 source m Hin) as [Hout _].
    destruct (link_keys outDir source m Hout)
      as (Hd' & Hf' & Hchild & Htd & Hsk & Hsd).
    assert (Hold : (source0, m0) ∈ linked ->
              (d ++ js "/" ++ f) ∉ confirm r T
              \/ unsafe_path (outDir ++ js "/" ++ d ++ js "/" ++ f) = true).
    { intros Hl. destruct (Hdone Hl) as [Hnot|?]; [left|by right].
      intros Hc. by apply confirm_subset in Hc. }
    destruct Hstep as [(Hfalsy & -> & -> & _)|[Htitle Hcase]].
    { split; [done|]. split; [eauto|].
      intros [Hl|Hl%list_elem_of_singleton]%elem_of_app; [by apply Hold|].
      injection Hl as _ <-. congruence. }
    split; [by eapply link_case_dir|].
    split; [by eapply link_case_file_some|].
    intros [Hl|Hl%list_elem_of_singleton]%elem_of_app; [by apply Hold|].
    injection Hl as <- <-. rewrite Hpath0 in Hcase. cbn [fst snd] in Hcase.
    rewrite Hpath0 in Htd, Hsk, Hsd. cbn [fst snd] in Htd, Hsk, Hsd.
    assert (Hdk : dir_key outDir d = kapp (path_key outDir) [d]).
    { unfold dir_key. by rewrite components_name. }
    rewrite (target_key_names outDir d f Hd Hf), Hdk in *.
    destruct r as [p|].
    + left. intros Hc. apply confirm_spec in Hc as [_ Hc].
      destruct (link_case_returned _ _ _ _ _ _ _ _ _ _ _ Hcase Htd Hsk Hsd _ eq_refl)
        as [-> _].
      by destruct (join_nonempty d f); apply Hc.
    + right. revert Hcase. generalize (eq_refl (@None (list N))).
      generalize (@None (list N)) at 1 3. intros r Hr Hcase.
      destruct Hcase as [i Hblocked| |fs2 nd Hm Ht Hs Hu
                        |fs2 n' Hm Ht Hs Hu| |]; try done.
      * congruence.
      * pose proof (dir_made_lookup_some _ _ _ _ _ Hm Hk0). congruence.
  - rewrite Hrun. unfold fs_after. cbn [fst snd].
    destruct (prune_fs_lookup outDir unused fs1 (kapp (path_key outDir) [d; f]))
      as [E|(_ & _ & s & Hs & Hkey & Hsafe)]; [rewrite E; eauto|].
    exfalso.
    assert (Hs0 : target_file outDir fs s) by by apply HT, Hsub.
    destruct (target_file_names outDir fs s Hready Hs0)
      as (d' & f' & -> & Hd' & Hf' & _).
    rewrite prune_path_names in Hkey, Hsafe by (apply Hd' || apply Hf').
    rewrite target_key_path, target_key_names in Hkey by done.
    apply kapp_inj in Hkey. injection Hkey as <- <-.
    destruct Hdone as [Hnot|Hunsafe]; [done|done|congruence].
Qed.

(** ** The checks are sound *)

Lemma closedb_sound fs : closedb fs = true -> closed fs.
Proof.
  unfold closedb. rewrite forallb_forall. intros H a cs c nd Hk Hcs.
  specialize (H ((a, cs ++ [c]), nd)). cbn [fst snd] in H.
  rewrite rev_app_distr in H. cbn [rev app] in H.
  destruct (rev cs) as [|c' r] eqn:E.
  - destruct Hcs. by rewrite <- (rev_involutive cs), E.
  - assert (E2 : rev (c' :: r) = cs) by by rewrite <- E, rev_involutive.
    simpl in H, E2. rewrite E2 in H. apply H.
    apply list_elem_of_In. by apply elem_of_map_to_list.
Qed.

Lemma entry_nameb_sound s : entry_nameb s = true -> entry_name s.
Proof.
  unfold entry_nameb. intros [H1 H2]%andb_true_iff. split; [|done].
  by destruct s.
Qed.

Lemma names_okb_sound fs : names_okb fs = true -> names_ok fs.
Proof.
  unfold names_okb. rewrite forallb_forall. intros H k nd Hk.
  specialize (H (k, nd)). simpl in H. apply List.Forall_forall.
  intros c Hc. apply entry_nameb_sound.
  assert (Hall : forallb entry_nameb k.2 = true).
  { apply H. apply list_elem_of_In. by apply elem_of_map_to_list. }
  rewrite forallb_forall in Hall. by apply Hall.
Qed.

Lemma target_readyb_sound outDir fs :
  target_readyb outDir fs = true -> target_ready outDir fs.
Proof.
  unfold target_readyb. rewrite !andb_true_iff. intros [[[H1 H2] H3] H4].
  split; [by destruct outDir|].
  split; [by apply closedb_sound|]. split; [by apply names_okb_sound|done].
Qed.

Lemma sources_readyb_sound outDir entries fs :
  sources_readyb outDir entries fs = true -> sources_ready outDir entries fs.
Proof.
  unfold sources_readyb. rewrite forallb_forall. intros H source m Hin.
  specialize (H (source, m)). simpl in H.
  apply list_elem_of_In in Hin. apply H in Hin.
  apply andb_true_iff in Hin as [H1 H2].
  apply negb_true_iff, bool_decide_eq_false in H1. split; [done|].
  destruct (fs !! path_key source) as [[i|]|]; try done. eauto.
Qed.

Lemma links_backedb_sound outDir entries fs :
  links_backedb outDir entries fs = true -> links_backed outDir entries fs.
Proof.
  unfold links_backedb. rewrite forallb_forall. intros H k j Hunder Hk.
  specialize (H (k, File j)). simpl in H.
  assert (Hin : In (k, File j) (map_to_list fs)).
  { apply list_elem_of_In. by apply elem_of_map_to_list. }
  apply H in Hin. rewrite !orb_true_iff in Hin.
  destruct Hin as [[Hn|Hn]|Hn].
  - apply negb_true_iff, bool_decide_eq_false in Hn. done.
  - left. by apply Nat.eqb_eq.
  - right. apply existsb_exists in Hn as ([source m] & Hin & Hs).
    apply bool_decide_eq_true in Hs. exists source, m.
    split; [by apply list_elem_of_In|done].
Qed.

(** C1, as stated, fails in two ways. A file directly in the target root
    that no source entry stands for is still there after the pass (the
    scanner only looks into subdirectories). And a single-link file that a
    source entry stands for is removed by the pass, before the link of the
    source takes its place. *)
Lemma syncFiles_prune_exceptions :
  unused_root_fs !! path_key (js "/out/unused-file.epub") = Some (File 9)
  /\ fs_after (syncFiles (js "/out") [] unused_root_fs)
       !! path_key (js "/out/unused-file.epub") = Some (File 9)
  /\ stray_target_fs !! path_key (js "/out/Books/Books - 01.epub")
     = Some (File 5)
  /\ calculateTargetPath (book "A Book" (Some "Books") (Some "1"))%string
     = (js "Books", js "Books - 01.epub")
  /\ removed_paths
       (calls_of (syncFiles (js "/out") first_book_entries stray_target_fs))
     = [js "/out/Books/Books - 01.epub"].
Proof. repeat split; by vm_compute. Qed.

(** ** Two entries with one target *)

Lemma dot_free_app a b : dot_free (a ++ b) = dot_free a && dot_free b.
Proof. apply forallb_app. Qed.

Lemma dot_free_alnum s :
  Forall (fun c => is_alnum_space c = true) s -> dot_free s = true.
Proof.
  induction 1 as [|c r Hc _ IH]; [done|]. simpl. rewrite IH, andb_true_r.
  apply negb_true_iff, N.eqb_neq. intros ->. discriminate.
Qed.

Lemma sanitized_or_dot_free x dflt :
  dot_free dflt = true -> dot_free (sanitized_or x dflt) = true.
Proof.
  intros Hd. unfold sanitized_or. destruct x as [s|]; [|done].
  destruct (sanitize s) eqn:E; [done|]. rewrite <- E.
  apply dot_free_alnum, sanitize_alnum.
Qed.

(** No directory of the path policy has a dot, every file name has one. *)
Lemma directory_dot_free m : dot_free (calculateTargetPath m).1 = true.
Proof.
  assert (Hfallback : dot_free (titleCreatorPath m).1 = true).
  { unfold titleCreatorPath. cbn [fst]. rewrite !dot_free_app.
    by rewrite !sanitized_or_dot_free. }
  unfold calculateTargetPath.
  destruct (series m) as [s|]; [|done].
  destruct (seriesIndex m) as [ix|]; [|done].
  case_bool_decide; [done|]. cbn [fst].
  apply dot_free_alnum, sanitize_alnum.
Qed.

Lemma file_name_has_dot m : dot_free (calculateTargetPath m).2 = false.
Proof.
  assert (Hepub : forall s, dot_free (s ++ js ".epub") = false).
  { intros s. rewrite dot_free_app. apply andb_false_r. }
  unfold calculateTargetPath, titleCreatorPath.
  destruct (series m) as [s|]; [|apply Hepub].
  destruct (seriesIndex m) as [ix|]; [|apply Hepub].
  case_bool_decide; apply Hepub.
Qed.

Lemma file_name_not_directory m m' :
  (calculateTargetPath m).2 <> (calculateTargetPath m').1.
Proof.
  intros E. pose proof (file_name_has_dot m) as H1.
  pose proof (directory_dot_free m') as H2. congruence.
Qed.

Lemma app_cons_position {A} (l1 l2 l1' l2' : list A) (x y : A) :
  l1 ++ x :: l2 = l1' ++ y :: l2' ->
  (length l1' < length l1 /\ y ∈ l1)%nat
  \/ (l1' = l1 /\ y = x /\ l2' = l2)
  \/ (length l1 < length l1')%nat.
Proof.
  intros E. destruct (lt_eq_lt_dec (length l1') (length l1)) as [[Hlt|Heq]|Hgt].
  - left. split; [done|].
    assert (H : (l1 ++ x :: l2) !! length l1' = Some y).
    { rewrite E. apply list_lookup_middle. done. }
    rewrite lookup_app_l in H by done. by eapply list_elem_of_lookup_2.
  - right. left. apply app_inj_1 in E as [-> [= -> ->]]; done.
  - right. right. done.
Qed.

(** The target of an entry does not turn a missing or existing directory
    of another entry into a regular file. *)
Lemma link_step_directory outDir source m fs r fs' t d0 m0 i :
  link_step outDir source m fs r fs' t ->
  ~ under (path_key outDir) (path_key source) ->
  d0 = (calculateTargetPath m0).1 ->
  fs' !! kapp (path_key outDir) [d0] = Some (File i) ->
  fs !! kapp (path_key outDir) [d0] = Some (File i).
Proof.
  intros [(_ & _ & -> & _)|[_ Hcase]] Hout Hd0 Hk; [done|].
  destruct (link_keys outDir source m Hout)
    as (Hd' & Hf' & Hchild & Htd & Hsk & Hsd).
  destruct (link_case_file_inv _ _ _ _ _ _ _ _ _ _ _ Hcase Htd _ _ Hk)
    as [?|E]; [done|].
  exfalso. rewrite Hchild in E. symmetry in E.
  destruct (dir_key_cases outDir (calculateTargetPath m).1 Hd')
    as [[_ Hdk]|[_ Hdk]]; rewrite Hdk, ?kapp_app in E;
    apply kapp_inj in E; simpl in E; simplify_eq.
  by eapply file_name_not_directory.
Qed.

(** C3, as stated, fails: of two entries with the same target path the
    first one processed gets the target, the second finds a target with
    two links and leaves it. *)
Lemma collision_first_wins :
  calculateTargetPath (book "A Book" (Some "Books") (Some "1"))%string
  = calculateTargetPath (book "B Book" (Some "Books") (Some "1"))%string
  /\ fs_of library_fs !! path_key a_book_path = Some (File 1)
  /\ fs_of library_fs !! path_key b_book_path = Some (File 2)
  /\ fs_after (syncFiles (js "/out") colliding_entries (fs_of library_fs))
       !! path_key (js "/out/Books/Books - 01.epub")
     = Some (File 1)
  /\ fs_after (syncFiles (js "/out") colliding_entries (fs_of library_fs))
       !! path_key (js "/out/Books/Books - 01.epub")
     <> Some (File 2).
Proof. repeat split; by vm_compute. Qed.

(** ** A second pass *)

Lemma target_key_inj outDir d f d0 f0 :
  slash_free d = true -> entry_name f ->
  slash_free d0 = true -> entry_name f0 ->
  target_key outDir d f = target_key outDir d0 f0 -> d = d0 /\ f = f0.
Proof.
  intros Hd Hf Hd0 Hf0. rewrite !target_key_child by done.
  destruct (dir_key_cases outDir d Hd) as [[-> ->]|[Hn ->]];
    destruct (dir_key_cases outDir d0 Hd0) as [[-> ->]|[Hn0 ->]];
    rewrite ?kapp_app; intros E%kapp_inj; simpl in E; by simplify_eq.
Qed.

Lemma prune_path_rel outDir m :
  prune_path outDir (rel_path m) = target_path outDir m.
Proof.
  destruct (calculateTargetPath_names m (calculateTargetPath m).1
              (calculateTargetPath m).2) as [Hd Hf];
    [by destruct (calculateTargetPath m)|].
  unfold rel_path, target_path. apply prune_path_names; [done|apply Hf].
Qed.

Lemma rel_path_inj m m0 :
  rel_path m = rel_path m0 -> calculateTargetPath m = calculateTargetPath m0.
Proof.
  destruct (calculateTargetPath_names m (calculateTargetPath m).1
              (calculateTargetPath m).2) as [Hd Hf];
    [by destruct (calculateTargetPath m)|].
  destruct (calculateTargetPath_names m0 (calculateTargetPath m0).1
              (calculateTargetPath m0).2) as [Hd0 Hf0];
    [by destruct (calculateTargetPath m0)|].
  unfold rel_path. intros E.
  apply join_inj in E as [E1 E2]; [|done|apply Hf|done|apply Hf0].
  destruct (calculateTargetPath m), (calculateTargetPath m0). simpl in *.
  by subst.
Qed.

Lemma rel_path_nonempty m : rel_path m <> [].
Proof. apply join_nonempty. Qed.

(** For a settled entry the linker changes nothing. *)
Lemma settled_quiet outDir entries T fs source m r fs' t :
  sources_ready outDir entries fs -> (source, m) ∈ entries ->
  settled outDir entries T fs (source, m) ->
  link_step outDir source m fs r fs' t ->
  fs' = fs /\ changes t = [].
Proof.
  intros Hsources Hin Hsettled [(_ & _ & -> & ->)|[Htitle Hcase]]; [done|].
  destruct (Hsources source m Hin) as [Hout _].
  destruct (link_keys outDir source m Hout)
    as (Hd & Hf & Hchild & Htd & Hsk & Hsd).
  unfold settled in Hsettled. cbn [snd] in Hsettled.
  assert (Hmade : forall fs1,
            dir_made fs (dir_key outDir (calculateTargetPath m).1) fs1 ->
            fs1 = fs /\
            exists nd,
              fs !! target_key outDir (calculateTargetPath m).1
                      (calculateTargetPath m).2 = Some nd
              /\ forall j, nd = File j ->
                   (backed entries fs j /\ rel_path m ∉ T)
                   \/ unsafe_path (target_path outDir m) = true).
  { intros fs1 [[Hdir ->]|[Hnone ->]].
    - split; [done|].
      destruct Hsettled as [?|[[i Hi]|[_ H]]]; [congruence| |done].
      apply is_dir_true in Hdir as [n Hn]. congruence.
    - exfalso. destruct Hsettled as [?|[[i Hi]|[Hdir _]]]; [congruence..|].
      apply is_dir_true in Hdir as [n Hn]. congruence. }
  destruct Hcase as [i Hb|fs1 nd Hm Ht|fs1 nd Hm Ht|fs1 n Hm Ht
                    |fs1 j i Hm Ht Hn Hu Hs|fs1 i Hm Ht Hs]; try done.
  - by destruct (Hmade fs1 Hm) as [-> _].
  - by destruct (Hmade fs1 Hm) as [-> _].
  - by destruct (Hmade fs1 Hm) as [-> _].
  - exfalso. destruct (Hmade fs1 Hm) as [-> (nd & Hnd & Hfile)].
    rewrite Ht in Hnd. injection Hnd as <-.
    destruct (Hfile j eq_refl) as [[Hbacked _]|Hunsafe].
    + pose proof (backed_nlink outDir entries fs _ j Hsources
                    (target_key_under outDir _ _) Ht Hbacked). lia.
    + unfold target_path in Hunsafe. congruence.
  - exfalso. destruct (Hmade fs1 Hm) as [-> (nd & Hnd & _)]. congruence.
Qed.

(** An entry that holds its target gets its relative path returned. *)
Lemma holds_target_returned outDir entries fs source m r fs' t :
  sources_ready outDir entries fs -> (source, m) ∈ entries ->
  holds_target outDir entries fs (source, m) ->
  link_step outDir source m fs r fs' t ->
  r = Some (rel_path m).
Proof.
  unfold holds_target. cbn [snd].
  intros Hsources Hin (Htitle & Hdir & j & Hj & Hbacked)
    [(Hfalsy & _)|[_ Hcase]]; [congruence|].
  pose proof (backed_nlink outDir entries fs _ j Hsources
                (target_key_under outDir _ _) Hj Hbacked) as Hlinks.
  assert (Hmade : forall fs1,
            dir_made fs (dir_key outDir (calculateTargetPath m).1) fs1 ->
            fs1 = fs).
  { intros fs1 [[_ ->]|[Hnone ->]]; [done|].
    apply is_dir_true in Hdir as [n Hn]. congruence. }
  destruct Hcase as [i Hb|fs1 nd Hm Ht|fs1 nd Hm Ht Hsingle
                    |fs1 n Hm Ht|fs1 j' i Hm Ht Hn|fs1 i Hm Ht Hs]; try done.
  - apply is_dir_true in Hdir as [n Hn]. congruence.
  - rewrite (Hmade fs1 Hm) in *. rewrite Hj in Ht. injection Ht as <-.
    apply single_link_file in Hsingle. lia.
  - rewrite (Hmade fs1 Hm) in *. congruence.
Qed.

(** A pass over settled entries whose target tree holds only targets of
    entries and files that the safe remover refuses changes nothing. *)
Lemma settled_pass_quiet outDir entries fs :
  target_ready outDir fs -> sources_ready outDir entries fs ->
  (forall e, e ∈ entries -> settled outDir entries [] fs e) ->
  (forall s, target_file outDir fs s ->
     unsafe_path (prune_path outDir s) = true
     \/ exists e, e ∈ entries /\ holds_target outDir entries fs e
          /\ s = rel_path e.2) ->
  fs_after (syncFiles outDir entries fs) = fs
  /\ changes (calls_of (syncFiles outDir entries fs)) = [].
Proof.
  intros Hready Hsources Hsettled Hcovered.
  destruct (syncFiles_ind outDir entries fs
    (fun linked T fs0 t =>
       fs0 = fs /\ changes t = []
       /\ forall s e, s ∈ T -> e ∈ linked ->
            holds_target outDir entries fs e -> s <> rel_path e.2)
    Hready Hsources)
    as (T & t0 & unused & fs1 & t1 & HT & Hquiet0 & Hrun & _ & _ & Hsub
        & -> & Hquiet1 & Hunclaimed).
  - intros T HT. split; [done|]. split; [done|]. intros s e _ He.
    inversion He.
  - intros linked source m todo T fs0 t r fs' t' Hall _ Hsources0
      (-> & Hquiet & Hunclaimed) Hstep.
    assert (Hin : (source, m) ∈ entries).
    { rewrite Hall. apply elem_of_app. right. by left. }
    destruct (settled_quiet outDir entries [] fs source m r fs' t'
                Hsources Hin (Hsettled _ Hin) Hstep) as [-> Hquiet'].
    split; [done|]. split.
    { unfold changes in *. by rewrite List.filter_app, Hquiet, Hquiet'. }
    intros s e [Hs Hr]%confirm_spec
      [He|He%list_elem_of_singleton]%elem_of_app Hholds; [by eapply Hunclaimed|].
    subst e. cbn [snd]. intros ->.
    destruct (rel_path_nonempty m). apply Hr.
    by eapply holds_target_returned.
  - assert (Hrefused : forall s, s ∈ unused ->
              unsafe_path (prune_path outDir s) = true
              \/ forall j, fs !! path_key (prune_path outDir s) <> Some (File j)).
    { intros s Hs. left.
      destruct (Hcovered s) as [?|(e & He & Hholds & ->)]; [by apply HT, Hsub|done|].
      by destruct (Hunclaimed (rel_path e.2) e Hs He Hholds). }
    destruct (prune_quiet outDir unused fs Hrefused) as [Hfs Hquiet2].
    rewrite Hrun. unfold fs_after, calls_of. cbn [fst snd].
    split; [done|]. unfold changes in *.
    by rewrite !List.filter_app, Hquiet0, Hquiet1, Hquiet2.
Qed.

(** ** The first pass settles every entry *)

Lemma link_step_backed outDir entries source m fs r fs' t j :
  link_step outDir source m fs r fs' t ->
  sources_ready outDir entries fs ->
  backed entries fs' j <-> backed entries fs j.
Proof.
  intros Hstep Hsources. apply (backed_outside outDir); [|done].
  intros k Hk. by eapply link_step_outside.
Qed.

(** The link-count heuristic stays sound. *)
Lemma links_backed_step outDir entries source m fs r fs' t :
  sources_ready outDir entries fs -> (source, m) ∈ entries ->
  links_backed outDir entries fs ->
  link_step outDir source m fs r fs' t ->
  links_backed outDir entries fs'.
Proof.
  intros Hsources Hin Hlb Hstep k x Hunder Hk.
  pose proof (link_step_backed outDir entries source m fs r fs' t x
                Hstep Hsources) as Hbacked.
  destruct Hstep as [(_ & _ & -> & _)|[_ Hcase]]; [by apply (Hlb k)|].
  destruct (Hsources source m Hin) as [Hout _].
  destruct (link_keys outDir source m Hout)
    as (Hd & Hf & Hchild & Htd & Hsk & Hsd).
  assert (Hsource : forall i, fs !! path_key source = Some (File i) ->
            backed entries fs i).
  { intros i Hi. by exists source, m. }
  assert (Hold : fs !! k = Some (File x) \/ backed entries fs x).
  { destruct (link_case_file_inv _ _ _ _ _ _ _ _ _ _ _ Hcase Htd _ _ Hk)
      as [?| ->]; [by left|].
    destruct (link_case_target_file _ _ _ _ _ _ _ _ _ _ _ Hcase Htd Hsd _ Hk);
      [by left|right; by apply Hsource]. }
  destruct Hold as [Hk0|?]; [|right; by apply Hbacked].
  destruct (Hlb k x Hunder Hk0) as [Hone|?]; [|right; by apply Hbacked].
  destruct (link_case_nlink _ _ _ _ _ _ _ _ _ _ _ Hcase Htd Hsk Hsd x)
    as [E|(i & Hi & _ & [[-> _]|(_ & _ & Hzero & _)])].
  - left. congruence.
  - right. by apply Hbacked, Hsource.
  - pose proof (nlink_lookup fs' k x Hk). lia.
Qed.

(** An entry that holds its target keeps holding it. *)
Lemma holds_target_step outDir entries source m fs r fs' t e0 :
  sources_ready outDir entries fs -> (source, m) ∈ entries ->
  holds_target outDir entries fs e0 ->
  link_step outDir source m fs r fs' t ->
  holds_target outDir entries fs' e0.
Proof.
  intros Hsources Hin (Htitle0 & Hdir0 & j & Hj & Hbacked) Hstep.
  pose proof (link_step_backed outDir entries source m fs r fs' t j
                Hstep Hsources) as Hb.
  destruct Hstep as [(_ & _ & -> & _)|[_ Hcase]];
    [by split; [|split; [|exists j]]|].
  destruct (Hsources source m Hin) as [Hout _].
  destruct (link_keys outDir source m Hout)
    as (Hd & Hf & Hchild & Htd & Hsk & Hsd).
  split; [done|]. split.
  - apply is_dir_true in Hdir0 as [n Hn]. apply is_dir_true. exists n.
    by eapply link_case_dir.
  - exists j. split; [|by apply Hb].
    destruct (link_case_file _ _ _ _ _ _ _ _ _ _ _ Hcase Hsk Hsd _ j Hj)
      as [?|(_ & Hone & _)]; [done|].
    pose proof (backed_nlink outDir entries fs _ j Hsources
                  (target_key_under outDir _ _) Hj Hbacked). lia.
Qed.

(** A settled entry stays settled. *)
Lemma settled_step outDir entries T source m fs r fs' t e0 :
  sources_ready outDir entries fs -> (source, m) ∈ entries ->
  settled outDir entries T fs e0 ->
  link_step outDir source m fs r fs' t ->
  settled outDir entries (confirm r T) fs' e0.
Proof.
  intros Hsources Hin Hsettled Hstep.
  assert (Hbacked : forall j, backed entries fs' j <-> backed entries fs j).
  { intros j. by eapply link_step_backed. }
  destruct (calculateTargetPath_names e0.2 (calculateTargetPath e0.2).1
              (calculateTargetPath e0.2).2) as [Hd0 Hf0];
    [by destruct (calculateTargetPath e0.2)|].
  destruct Hsettled as [?|[[i Hi]|(Hdir & nd & Hnd & Hfile)]]; [by left| |].
  - right. left.
    destruct Hstep as [(_ & _ & -> & _)|[_ Hcase]]; [eauto|].
    destruct (Hsources source m Hin) as [Hout _].
    destruct (link_keys outDir source m Hout)
      as (Hd & Hf & Hchild & Htd & Hsk & Hsd).
    by eapply link_case_file_some.
  - right. right.
    assert (Hnot : forall j, rel_path e0.2 ∉ T ->
              rel_path e0.2 ∉ confirm r T).
    { intros _ Hn Hc. by apply confirm_subset in Hc. }
    destruct Hstep as [(_ & _ & -> & _)|[_ Hcase]].
    { split; [done|]. exists nd. split; [done|].
      intros j Hj. destruct (Hfile j Hj) as [[? ?]|?]; [left|by right].
      split; [done|]. by apply (Hnot j). }
    destruct (Hsources source m Hin) as [Hout _].
    destruct (link_keys outDir source m Hout)
      as (Hd & Hf & Hchild & Htd & Hsk & Hsd).
    split.
    { apply is_dir_true in Hdir as [n Hn]. apply is_dir_true. exists n.
      by eapply link_case_dir. }
    destruct nd as [j|n].
    + destruct (link_case_file _ _ _ _ _ _ _ _ _ _ _ Hcase Hsk Hsd _ j Hnd)
        as [Hsame|(Htk & Hone & Hsafe & i & Hi & Hnew)].
      * exists (File j). split; [done|]. intros ? [= <-].
        destruct (Hfile j eq_refl) as [[? ?]|?]; [left|by right].
        split; [by apply Hbacked|]. by apply (Hnot j).
      * exfalso. destruct (Hfile j eq_refl) as [[Hb _]|Hunsafe].
        -- pose proof (backed_nlink outDir entries fs _ j Hsources
                         (target_key_under outDir _ _) Hnd Hb). lia.
        -- apply target_key_inj in Htk as [E1 E2]; [|done..].
           unfold target_path in Hunsafe. rewrite E1, E2 in Hunsafe.
           congruence.
    + exists (Dir n). split; [by eapply link_case_dir|]. intros j [=].
Qed.

(** What a call of the linker leaves behind for its own entry: a regular
    file in the way of the directory; or a directory as target; or a target
    that is a link of a source file, with the relative path returned; or a
    single-link target that the safe remover refuses, with nothing
    returned. *)
Lemma linked_outcome outDir entries source m fs r fs' t :
  sources_ready outDir entries fs -> (source, m) ∈ entries ->
  links_backed outDir entries fs ->
  truthy (title m) = true ->
  link_step outDir source m fs r fs' t ->
  (r = None /\ fs' = fs
   /\ exists i, fs !! dir_key outDir (calculateTargetPath m).1 = Some (File i))
  \/ (is_dir fs' (dir_key outDir (calculateTargetPath m).1) = true
      /\ exists nd,
           fs' !! target_key outDir (calculateTargetPath m).1
                    (calculateTargetPath m).2 = Some nd
           /\ forall j, nd = File j ->
                (r = Some (rel_path m) /\ backed entries fs' j)
                \/ (r = None /\ unsafe_path (target_path outDir m) = true)).
Proof.
  intros Hsources Hin Hlb Htitle Hstep.
  assert (Hbacked : forall j, backed entries fs' j <-> backed entries fs j).
  { intros j. by eapply link_step_backed. }
  destruct Hstep as [(Hfalsy & _)|[_ Hcase]]; [congruence|].
  destruct (Hsources source m Hin) as [Hout _].
  destruct (link_keys outDir source m Hout)
    as (Hd & Hf & Hchild & Htd & Hsk & Hsd).
  assert (Hsource : forall i, fs !! path_key source = Some (File i) ->
            backed entries fs' i).
  { intros i Hi. apply Hbacked. by exists source, m. }
  revert Hbacked Hsource.
  destruct Hcase as [i Hb|fs1 nd Hm Ht Hsingle|fs1 nd Hm Ht Hsingle Hu
                    |fs1 n Hm Ht|fs1 j i Hm Ht Hn Hu Hs|fs1 i Hm Ht Hs];
    intros Hbacked Hsource.
  - left. eauto.
  - right. split; [by eapply dir_made_is_dir|]. exists nd. split; [done|].
    intros j ->. left. split; [done|]. apply Hbacked.
    assert (Ht0 : fs !! target_key outDir (calculateTargetPath m).1
                          (calculateTargetPath m).2 = Some (File j)).
    { by rewrite <- (dir_made_lookup_ne _ _ _ _ Hm). }
    destruct (Hlb _ j (target_key_under outDir _ _) Ht0) as [Hone|?]; [|done].
    exfalso. rewrite <- (dir_made_nlink _ _ _ j Hm) in Hone.
    apply single_link_file in Hone. congruence.
  - right. split; [by eapply dir_made_is_dir|]. exists nd. split; [done|].
    intros j _. by right.
  - right. split; [by eapply dir_made_is_dir|]. exists (Dir n).
    split; [done|]. intros j [=].
  - right. split.
    { rewrite is_dir_insert_ne, is_dir_delete_ne by done.
      by eapply dir_made_is_dir. }
    exists (File i). rewrite lookup_insert_eq. split; [done|].
    intros ? [= <-]. left. split; [done|]. apply Hsource.
    by rewrite <- (dir_made_lookup_ne _ _ _ _ Hm).
  - right. split.
    { rewrite is_dir_insert_ne by done. by eapply dir_made_is_dir. }
    exists (File i). rewrite lookup_insert_eq. split; [done|].
    intros ? [= <-]. left. split; [done|]. apply Hsource.
    by rewrite <- (dir_made_lookup_ne _ _ _ _ Hm).
Qed.

(** After its call of the linker an entry is settled. *)
Lemma settled_new outDir entries T source m fs r fs' t :
  sources_ready outDir entries fs -> (source, m) ∈ entries ->
  links_backed outDir entries fs ->
  link_step outDir source m fs r fs' t ->
  settled outDir entries (confirm r T) fs' (source, m).
Proof.
  intros Hsources Hin Hlb Hstep. unfold settled. cbn [snd].
  destruct (truthy (title m)) eqn:Htitle; [|by left]. right.
  destruct (linked_outcome outDir entries source m fs r fs' t
              Hsources Hin Hlb Htitle Hstep)
    as [(_ & -> & Hb)|(Hdir & nd & Hnd & Hfile)]; [by left|right].
  split; [done|]. exists nd. split; [done|]. intros j Hj.
  destruct (Hfile j Hj) as [[-> Hb]|[_ ?]]; [left|by right].
  split; [done|]. intros [_ Hc]%confirm_spec.
  by destruct (rel_path_nonempty m); apply Hc.
Qed.

(** Every e-book file of the target tree stays covered. *)
Lemma covered_step outDir entries linked T source m fs r fs' t s :
  target_ready outDir fs -> target_ready outDir fs' ->
  sources_ready outDir entries fs -> (source, m) ∈ entries ->
  links_backed outDir entries fs ->
  (forall s0, target_file outDir fs s0 ->
     covered outDir entries linked T fs s0) ->
  link_step outDir source m fs r fs' t ->
  target_file outDir fs' s ->
  covered outDir entries (linked ++ [(source, m)]) (confirm r T) fs' s.
Proof.
  intros Hready Hready' Hsources Hin Hlb Hcov Hstep Hs.
  assert (Hkeep : target_file outDir fs s ->
            (r = Some s -> False) ->
            covered outDir entries (linked ++ [(source, m)]) (confirm r T) fs' s).
  { intros Hs0 Hr. destruct (Hcov s Hs0) as [HT|[?|(e0 & He0 & Hh & ->)]].
    - left. apply confirm_spec. split; [done|]. intros E. by destruct Hr.
    - right. by left.
    - right. right. exists e0. split; [apply elem_of_app; by left|].
      split; [|done]. by eapply holds_target_step. }
  destruct (truthy (title m)) eqn:Htitle.
  2:{ destruct Hstep as [(_ & -> & -> & _)|[? _]]; [|congruence].
      by apply Hkeep. }
  destruct (Hsources source m Hin) as [Hout _].
  destruct (link_keys outDir source m Hout)
    as (Hd' & Hf' & Hchild & Htd & Hsk & Hsd).
  pose proof Hs as (d & f & j & n & -> & Hdir & Hk & Hepub).
  destruct (target_names outDir fs' d f _ Hready' Hk) as [Hd Hf].
  destruct (decide (kapp (path_key outDir) [d; f]
                    = target_key outDir (calculateTargetPath m).1
                        (calculateTargetPath m).2)) as [Heq|Hne].
  - symmetry in Heq. pose proof Heq as Heq'.
    apply target_key_eq_inv in Heq' as [E1 E2]; [|done..].
    assert (Hrel : rel_path m = d ++ js "/" ++ f).
    { unfold rel_path. by rewrite E1, E2. }
    destruct (linked_outcome outDir entries source m fs r fs' t
                Hsources Hin Hlb Htitle Hstep)
      as [(-> & -> & _)|(Hdir' & nd & Hnd & Hfile)].
    { by apply Hkeep. }
    rewrite Heq, Hk in Hnd. injection Hnd as <-.
    destruct (Hfile j eq_refl) as [[_ Hb]|[_ Hunsafe]].
    + right. right. exists (source, m).
      split; [apply elem_of_app; right; by left|].
      split; [|symmetry; exact Hrel].
      split; [done|]. split; [done|]. exists j. cbn [snd]. by rewrite Heq.
    + right. left. by rewrite <- Hrel, prune_path_rel.
  - destruct Hstep as [(? & _)|[_ Hcase]]; [congruence|].
    assert (Hk0 : fs !! kapp (path_key outDir) [d; f] = Some (File j)).
    { destruct (link_case_file_inv _ _ _ _ _ _ _ _ _ _ _ Hcase Htd _ _ Hk);
        done. }
    apply Hkeep.
    + destruct Hready as (_ & Hcl & _).
      assert (Hd0 : is_dir fs (kapp (path_key outDir) [d]) = true).
      { apply (Hcl (path_key outDir).1 ((path_key outDir).2 ++ [d]) f (File j)).
        - unfold kapp in Hk0. simpl in Hk0. by rewrite <- app_assoc.
        - by destruct ((path_key outDir).2). }
      apply is_dir_true in Hd0 as [n0 Hn0]. by exists d, f, j, n0.
    + intros ->.
      destruct (link_case_returned _ _ _ _ _ _ _ _ _ _ _ Hcase Htd Hsk Hsd
                  _ eq_refl) as [E _].
      apply join_inj in E as [E1 E2]; [|apply Hd|apply Hf|done|apply Hf'].
      apply Hne. rewrite <- E1, <- E2. by rewrite target_key_names.
Qed.

Lemma prune_fs_some outDir unused fs k nd :
  prune_fs outDir unused fs !! k = Some nd -> fs !! k = Some nd.
Proof.
  intros H. destruct (prune_fs_lookup outDir unused fs k) as [E|[E _]];
    congruence.
Qed.

Lemma prune_fs_dir outDir unused fs k n :
  fs !! k = Some (Dir n) -> prune_fs outDir unused fs !! k = Some (Dir n).
Proof.
  intros H. destruct (prune_fs_lookup outDir unused fs k)
    as [E|(_ & [j Hj] & _)]; congruence.
Qed.

Lemma prune_fs_is_dir outDir unused fs k :
  is_dir fs k = true -> is_dir (prune_fs outDir unused fs) k = true.
Proof.
  intros [n Hn]%is_dir_true. apply is_dir_true. exists n.
  by apply prune_fs_dir.
Qed.

(** The paths of [targetFiles] that the pruning loop removes. *)
Lemma prune_fs_target outDir fs0 unused fs k :
  target_ready outDir fs0 ->
  (forall s, s ∈ unused -> target_file outDir fs0 s) ->
  prune_fs outDir unused fs !! k = fs !! k
  \/ exists d f,
       entry_name d /\ entry_name f /\ (d ++ js "/" ++ f) ∈ unused
       /\ k = kapp (path_key outDir) [d; f]
       /\ unsafe_path (outDir ++ js "/" ++ d ++ js "/" ++ f) = false.
Proof.
  intros Hready Hsub. pose proof Hready as (Hne & _).
  destruct (prune_fs_lookup outDir unused fs k)
    as [E|(_ & _ & s & Hs & Hkey & Hsafe)]; [by left|right].
  destruct (target_file_names outDir fs0 s Hready (Hsub s Hs))
    as (d & f & -> & Hd & Hf & _).
  rewrite prune_path_names in Hkey, Hsafe by (apply Hd || apply Hf).
  rewrite target_key_path, target_key_names in Hkey by done.
  exists d, f. done.
Qed.

(** After a pass over a target tree in which the link-count heuristic is
    sound, every entry is settled and every e-book file of the target tree
    is the target of an entry or refused by the safe remover. *)
Lemma first_pass_settles outDir entries fs :
  target_ready outDir fs -> sources_ready outDir entries fs ->
  links_backed outDir entries fs ->
  target_ready outDir (fs_after (syncFiles outDir entries fs))
  /\ sources_ready outDir entries (fs_after (syncFiles outDir entries fs))
  /\ (forall e, e ∈ entries ->
        settled outDir entries [] (fs_after (syncFiles outDir entries fs)) e)
  /\ (forall s, target_file outDir (fs_after (syncFiles outDir entries fs)) s ->
        unsafe_path (prune_path outDir s) = true
        \/ exists e, e ∈ entries
             /\ holds_target outDir entries
                  (fs_after (syncFiles outDir entries fs)) e
             /\ s = rel_path e.2).
Proof.
  intros Hready Hsources Hlb. pose proof Hready as (Hne & _).
  destruct (syncFiles_ind outDir entries fs
    (fun linked T fs0 _ =>
       links_backed outDir entries fs0
       /\ (forall e, e ∈ linked -> settled outDir entries T fs0 e)
       /\ (forall s, target_file outDir fs0 s ->
             covered outDir entries linked T fs0 s))
    Hready Hsources)
    as (T & t0 & unused & fs1 & t1 & HT & _ & Hrun & Hready1 & Hsources1
        & Hsub & Hlb1 & Hsettled & Hcovered).
  - intros T HT. split; [done|]. split; [intros e He; inversion He|].
    intros s Hs. left. by apply HT.
  - intros linked source m todo T fs0 t r fs' t' Hall Hready0 Hsources0
      (Hlb0 & Hsettled0 & Hcovered0) Hstep.
    assert (Hin : (source, m) ∈ entries).
    { rewrite Hall. apply elem_of_app. right. by left. }
    destruct (Hsources0 source m Hin) as [Hout _].
    split; [by eapply links_backed_step|]. split.
    + intros e [He|He%list_elem_of_singleton]%elem_of_app.
      * by eapply settled_step; eauto.
      * subst e. by eapply settled_new.
    + intros s Hs. eapply covered_step; eauto.
      by eapply link_step_ready.
  - rewrite Hrun. unfold fs_after. cbn [fst snd].
    assert (Hsub0 : forall s, s ∈ unused -> target_file outDir fs s).
    { intros s Hs. by apply HT, Hsub. }
    assert (Hbacked : forall j,
              backed entries (prune_fs outDir unused fs1) j
              <-> backed entries fs1 j).
    { intros j. apply (backed_outside outDir); [|done].
      intros k Hk. by apply prune_fs_outside. }
    split; [by apply prune_fs_ready|]. split; [|split].
    + eapply sources_ready_outside; [|done].
      intros k Hk. by apply prune_fs_outside.
    + intros e He.
      destruct (calculateTargetPath_names e.2 (calculateTargetPath e.2).1
                  (calculateTargetPath e.2).2) as [Hd Hf];
        [by destruct (calculateTargetPath e.2)|].
      destruct (Hsettled e He) as [?|[[i Hi]|(Hdir & nd & Hnd & Hfile)]];
        [by left| |].
      * right. left. exists i.
        destruct (prune_fs_target outDir fs unused fs1
                    (dir_key outDir (calculateTargetPath e.2).1) Hready Hsub0)
          as [E|(d & f & _ & _ & _ & Hk & _)]; [by rewrite E|].
        by apply dir_key_ne_target in Hk.
      * right. right. split; [by apply prune_fs_is_dir|].
        exists nd. split.
        -- destruct nd as [j|n]; [|by apply prune_fs_dir].
           destruct (prune_fs_target outDir fs unused fs1
                       (target_key outDir (calculateTargetPath e.2).1
                          (calculateTargetPath e.2).2) Hready Hsub0)
             as [E|(d & f & Hdn & Hfn & Hin & Hk & Hsafe)]; [by rewrite E|].
           exfalso. apply target_key_eq_inv in Hk as [E1 E2]; [|done..].
           destruct (Hfile j eq_refl) as [[_ Hnot]|Hunsafe].
           ++ apply Hnot. unfold rel_path. by rewrite E1, E2.
           ++ unfold target_path in Hunsafe. rewrite E1, E2 in Hunsafe.
              congruence.
        -- intros j Hj. destruct (Hfile j Hj) as [[Hb _]|?]; [left|by right].
           split; [by apply Hbacked|]. intros Hx. inversion Hx.
    + intros s Hs. pose proof Hs as (d & f & j & n & -> & Hdir & Hk & Hepub).
      assert (Hs1 : target_file outDir fs1 (d ++ js "/" ++ f)).
      { exists d, f, j, n. split; [done|].
        split; [by eapply prune_fs_some|]. split; [by eapply prune_fs_some|done]. }
      destruct (target_names outDir fs1 d f (File j) Hready1) as [Hd Hf];
        [by eapply prune_fs_some|].
      assert (Hpath : prune_path outDir (d ++ js "/" ++ f)
                      = outDir ++ js "/" ++ d ++ js "/" ++ f).
      { apply prune_path_names; [apply Hd|apply Hf]. }
      destruct (Hcovered _ Hs1) as [HU|[?|(e & He & Hholds & Hrel)]].
      * left. destruct (unsafe_path (prune_path outDir (d ++ js "/" ++ f)))
          eqn:Hsafe; [done|]. exfalso.
        assert (Hkey : path_key (prune_path outDir (d ++ js "/" ++ f))
                       = kapp (path_key outDir) [d; f]).
        { by rewrite Hpath, target_key_path, target_key_names. }
        pose proof (prune_fs_removed outDir unused fs1 (d ++ js "/" ++ f) j
                      HU Hsafe) as Hgone.
        rewrite Hkey in Hgone. rewrite Hgone in Hk; [done|].
        by eapply prune_fs_some.
      * by left.
      * right. exists e. split; [done|]. split; [|done].
        destruct Hholds as (Htitle & Hdir' & j' & Hj' & Hb).
        split; [done|]. split; [by apply prune_fs_is_dir|].
        assert (Hpair : calculateTargetPath e.2 = (d, f)).
        { destruct (calculateTargetPath_names e.2 (calculateTargetPath e.2).1
                      (calculateTargetPath e.2).2) as [Hd' Hf'];
            [by destruct (calculateTargetPath e.2)|].
          unfold rel_path in Hrel.
          apply join_inj in Hrel as [E1 E2]; [|apply Hd|apply Hf|done|apply Hf'].
          destruct (calculateTargetPath e.2). simpl in *. by subst. }
        rewrite Hpair in *. cbn [fst snd] in *.
        rewrite (target_key_names outDir d f Hd Hf) in *.
        exists j. split; [done|]. apply Hbacked.
        apply (prune_fs_some outDir unused) in Hk. congruence.
Qed.

(** C2, as stated, fails: two files of the target tree that are links of
    each other, but of no source file, pass for mirrored files. The first
    pass keeps the one that is the target of the source entry and prunes
    the other; the second pass then finds a single-link target, removes it
    and creates the link. *)
Lemma second_pass_relinks :
  target_readyb (js "/out") twin_targets_fs = true
  /\ sources_readyb (js "/out") first_book_entries twin_targets_fs = true
  /\ changes (calls_of (syncFiles (js "/out") first_book_entries twin_targets_fs))
     = [(Unlink (js "/out/Books/Books - 02.epub"), true)]
  /\ changes
       (calls_of
          (syncFiles (js "/out") first_book_entries
             (fs_after (syncFiles (js "/out") first_book_entries
                          twin_targets_fs))))
     = [(Unlink (js "/out/Books/Books - 01.epub"), true);
        (Link a_book_path (js "/out/Books/Books - 01.epub"), true)].
Proof. repeat split; by vm_compute. Qed.

(** C2, amended: when, before the first pass, every file of the target
    tree that has several links is a link of the file of a source entry,
    a second pass over the same source entries creates no hard link,
    removes no file and leaves the file system as the first pass left
    it. *)
Theorem second_pass_changes_nothing outDir entries fs :
  target_ready outDir fs -> sources_ready outDir entries fs ->
  links_backed outDir entries fs ->
  changes
    (calls_of
       (syncFiles outDir entries (fs_after (syncFiles outDir entries fs))))
  = []
  /\ fs_after
       (syncFiles outDir entries (fs_after (syncFiles outDir entries fs)))
     = fs_after (syncFiles outDir entries fs).
Proof.
  intros Hready Hsources Hlb.
  destruct (first_pass_settles outDir entries fs Hready Hsources Hlb)
    as (Hready2 & Hsources2 & Hsettled & Hcovered).
  destruct (settled_pass_quiet outDir entries
              (fs_after (syncFiles outDir entries fs))
              Hready2 Hsources2 Hsettled Hcovered) as [Hfs Hquiet].
  done.
Qed.

Lemma second_pass_changes_nothing_witness :
  changes
    (calls_of
       (syncFiles (js "/out") first_book_entries
          (fs_after (syncFiles (js "/out") first_book_entries mirrored_fs))))
  = []
  /\ fs_after
       (syncFiles (js "/out") first_book_entries
          (fs_after (syncFiles (js "/out") first_book_entries mirrored_fs)))
     = fs_after (syncFiles (js "/out") first_book_entries mirrored_fs).
Proof.
  apply second_pass_changes_nothing.
  - apply target_readyb_sound. vm_compute. reflexivity.
  - apply sources_readyb_sound. vm_compute. reflexivity.
  - apply links_backedb_sound. vm_compute. reflexivity.
Defined.

(** On this file system the first pass does work: it prunes the file that
    no book stands for. *)
Example first_pass_prunes :
  changes (calls_of (syncFiles (js "/out") first_book_entries mirrored_fs))
  = [(Unlink (js "/out/Old/old.epub"), true)].
Proof. by vm_compute. Qed.

(** ** More on the path policy *)

Lemma starts_with_app a b : starts_with a (a ++ b) = true.
Proof.
  induction a as [|c a IH]; [done|]. cbn [app starts_with].
  by rewrite N.eqb_refl, IH.
Qed.

Lemma ends_with_app a b : ends_with b (a ++ b) = true.
Proof. unfold ends_with. rewrite rev_app_distr. apply starts_with_app. Qed.

Lemma dot_free_not_dots s : dot_free s = true -> s <> js "." /\ s <> js "..".
Proof. intros H. split; intros ->; by vm_compute in H. Qed.

(** The shape of every target path: the directory has no separator and no
    dot, so it is neither [.] nor [..]; the file name is a single name that
    ends in [.epub] and begins with the name of the directory. *)
Theorem calculateTargetPath_shape m :
  slash_free (calculateTargetPath m).1 = true
  /\ dot_free (calculateTargetPath m).1 = true
  /\ (calculateTargetPath m).1 <> js "." /\ (calculateTargetPath m).1 <> js ".."
  /\ entry_name (calculateTargetPath m).2
  /\ ends_with (js ".epub") (calculateTargetPath m).2 = true
  /\ starts_with (calculateTargetPath m).1 (calculateTargetPath m).2 = true.
Proof.
  destruct (calculateTargetPath_names m (calculateTargetPath m).1
              (calculateTargetPath m).2) as [Hd Hf]; [by destruct calculateTargetPath|].
  pose proof (directory_dot_free m) as Hdot.
  destruct (dot_free_not_dots _ Hdot) as [H1 H2].
  repeat (split; [done|]).
  unfold calculateTargetPath, titleCreatorPath.
  destruct (series m) as [s|], (seriesIndex m) as [ix|]; cbn [fst snd];
    try (split; [apply ends_with_app|apply starts_with_app]).
  case_bool_decide; cbn [fst snd].
  - split; [apply ends_with_app|apply starts_with_app].
  - split.
    + rewrite !(assoc_L (++)). apply ends_with_app.
    + rewrite <- !(assoc_L (++)). apply starts_with_app.
Qed.

(** Among the code units of [[a-zA-Z0-9 ]] only the space is white space. *)
Lemma alnum_whitespace c :
  is_alnum_space c = true -> is_whitespace c = (c =? 32).
Proof.
  intros H. destruct (decide (c = 32)) as [->|Hne]; [done|].
  apply N.eqb_neq in Hne as Hne'. rewrite Hne'.
  apply not_true_iff_false. intros Hw.
  unfold is_alnum_space in H. unfold is_whitespace in Hw.
  repeat (rewrite ?orb_true_iff, ?andb_true_iff, ?N.leb_le, ?N.eqb_eq in H).
  repeat (rewrite ?orb_true_iff, ?andb_true_iff, ?N.leb_le, ?N.eqb_eq in Hw).
  lia.
Qed.

Lemma replace_ws_runs_clean b s :
  Forall (fun c => is_alnum_space c = true) s -> single_spaced s = true ->
  (b = true -> forall c r, s = c :: r -> c <> 32) ->
  replace_ws_runs b s = s.
Proof.
  revert b. induction s as [|c s IH]; intros b Hall Hsingle Hb; [done|].
  apply Forall_cons in Hall as [Hc Hall].
  cbn [replace_ws_runs]. rewrite (alnum_whitespace c Hc).
  assert (Htail : single_spaced s = true).
  { cbn [single_spaced] in Hsingle. destruct s; [done|].
    by apply andb_prop in Hsingle as [_ ?]. }
  destruct (N.eqb_spec c 32) as [->|Hne].
  - destruct b; [by destruct (Hb eq_refl 32 s eq_refl)|].
    f_equal. apply IH; [done..|]. intros _ c' r ->.
    cbn [single_spaced] in Hsingle. intros ->. by vm_compute in Hsingle.
  - f_equal. by apply IH.
Qed.

(** A name of ASCII letters, digits and single spaces is kept as it is. *)
Lemma sanitize_clean_name s :
  Forall (fun c => is_alnum_space c = true) s -> single_spaced s = true ->
  sanitize s = s.
Proof.
  intros Hall Hsingle. unfold sanitize, strip_non_alnum.
  rewrite (replace_ws_runs_clean false s Hall Hsingle) by done.
  clear Hsingle. induction Hall as [|c r Hc _ IH]; [done|].
  cbn [List.filter]. by rewrite Hc, IH.
Qed.

(** ** Numerals *)

Lemma digits_value_acc u acc :
  fold_left (fun a c => 10 * a + (c - 48)) (uint_chars u) (N.pos acc)
  = N.pos (Pos.of_uint_acc u acc).
Proof.
  revert acc. induction u as [|u IH|u IH|u IH|u IH|u IH|u IH|u IH|u IH|u IH|u IH];
    intros acc; [done|..];
    cbn [uint_chars fold_left Pos.of_uint_acc]; rewrite <- IH; f_equal;
    unfold digit_char; lia.
Qed.

Lemma digits_value_uint u : digits_value (uint_chars u) = N.of_uint u.
Proof.
  unfold digits_value, N.of_uint.
  induction u as [|u IH|u IH|u IH|u IH|u IH|u IH|u IH|u IH|u IH|u IH];
    [done|exact IH|..];
    cbn [uint_chars fold_left Pos.of_uint]; rewrite <- digits_value_acc; f_equal.
Qed.

(** Reading the decimal numeral of a number gives the number. *)
Lemma digits_value_decimal n : digits_value (decimal_digits n) = n.
Proof.
  unfold decimal_digits. rewrite digits_value_uint. apply Unsigned.of_to.
Qed.

Lemma uint_chars_digits u : forallb is_digit (uint_chars u) = true.
Proof. induction u; cbn [uint_chars forallb]; by rewrite ?IHu. Qed.

Lemma match_no_point {A} (rest : list N) (a : list N -> A) (b : A) :
  (forall r, rest <> 46 :: r) ->
  match rest with 46 :: r => a r | _ => b end = b.
Proof.
  intros Hne. destruct rest as [|c r]; [done|].
  destruct (decide (c = 46)) as [->|Hc]; [by destruct (Hne r)|].
  destruct c as [|p]; [done|].
  do 6 (try (destruct p as [p|p|]; try done)).
Qed.

Lemma take_digits_all s rest :
  forallb is_digit s = true -> ends_numeral rest = true ->
  take_digits (s ++ rest) = (s, rest)
  /\ (forall r, rest <> 46 :: r)
  /\ parse_exponent rest = 0%Z.
Proof.
  intros Hs Hrest. split; [|split].
  - induction s as [|c s IH]; cbn [app].
    + destruct rest as [|c r]; [done|]. cbn [take_digits].
      cbn [ends_numeral] in Hrest. by destruct (is_digit c).
    + cbn [forallb] in Hs. apply andb_prop in Hs as [Hc Hs].
      cbn [take_digits]. by rewrite Hc, (IH Hs).
  - intros r ->. by vm_compute in Hrest.
  - destruct rest as [|c r]; [done|]. cbn [ends_numeral] in Hrest.
    cbn [parse_exponent].
    destruct (c =? 101), (c =? 69); try done;
      by rewrite ?orb_true_r in Hrest.
Qed.

Lemma decimal_digits_nonempty n : decimal_digits n <> [].
Proof.
  unfold decimal_digits. destruct n as [|p]; [done|].
  cbn [N.to_uint]. unfold Pos.to_uint.
  pose proof (DecimalPos.Unsigned.to_uint_nonnil p) as Hnil.
  unfold Pos.to_uint in Hnil. by destruct (Decimal.rev _).
Qed.

Lemma digit_cases c :
  is_digit c = true ->
  c ∈ [48; 49; 50; 51; 52; 53; 54; 55; 56; 57].
Proof.
  unfold is_digit. rewrite andb_true_iff, !N.leb_le. intros [H1 H2].
  assert (c = 48 \/ c = 49 \/ c = 50 \/ c = 51 \/ c = 52 \/ c = 53
          \/ c = 54 \/ c = 55 \/ c = 56 \/ c = 57) as H by lia.
  repeat (destruct H as [->|H]; [set_solver|]). subst. set_solver.
Qed.

(** A text that begins with a digit has no sign and no leading white
    space, and is not [Infinity]. *)
Lemma parseFloat_digit c r :
  is_digit c = true ->
  parseFloat (c :: r)
  = let '(int_part, r1) := take_digits (c :: r) in
    let '(frac_part, r2) :=
      match r1 with
      | 46 :: r => take_digits r
      | _ => ([], r1)
      end in
    match int_part ++ frac_part with
    | [] => NaN
    | ds => Finite false (digits_value ds)
              (parse_exponent r2 - Z.of_nat (length frac_part))
    end.
Proof.
  intros Hc. apply digit_cases in Hc.
  repeat (apply elem_of_cons in Hc as [->|Hc]; [reflexivity|]).
  by apply elem_of_nil in Hc.
Qed.

(** [parseFloat] reads a decimal numeral, and ignores what follows it. *)
Lemma parseFloat_numeral n rest :
  ends_numeral rest = true ->
  parseFloat (decimal_digits n ++ rest) = Finite false n 0.
Proof.
  intros Hrest.
  pose proof (uint_chars_digits (N.to_uint n)) as Hdigits.
  fold (decimal_digits n) in Hdigits.
  destruct (take_digits_all _ rest Hdigits Hrest) as (Htake & Hpoint & Hexp).
  pose proof (decimal_digits_nonempty n) as Hne.
  pose proof (digits_value_decimal n) as Hval.
  destruct (decimal_digits n) as [|c s] eqn:E; [done|].
  cbn [forallb] in Hdigits. apply andb_prop in Hdigits as [Hc _].
  cbn [app]. rewrite (parseFloat_digit c (s ++ rest) Hc).
  change (c :: s ++ rest) with ((c :: s) ++ rest). rewrite Htake.
  rewrite (match_no_point rest _ _ Hpoint).
  rewrite app_nil_r, Hexp, Hval. reflexivity.
Qed.

(** A series index written as a natural number of at most 15 digits, with
    whatever follows the numeral, is rendered as the numeral. *)
Lemma series_index_round_trip n rest :
  (length (decimal_digits n) <= 15)%nat -> ends_numeral rest = true ->
  parseFloat (decimal_digits n ++ rest) = Finite false n 0
  /\ Number_toString (parseFloat (decimal_digits n ++ rest)) = decimal_digits n
  /\ padStart 2 (js "0") (Number_toString (parseFloat (decimal_digits n ++ rest)))
     = replicate (2 - length (decimal_digits n)) 48 ++ decimal_digits n.
Proof.
  intros Hlen Hrest. rewrite (parseFloat_numeral n rest Hrest).
  assert (Hs : Number_toString (Finite false n 0) = decimal_digits n).
  { destruct (decide (n = 0)) as [->|Hn]; [done|].
    apply Number_toString_integer; [done|lia]. }
  split; [done|]. split; [done|]. by rewrite padStart_zero, Hs.
Qed.

(** A book whose title and creator are clean names, and that has no
    series or no index, is filed under exactly these names; a clean series
    name is the directory of a book that has an index. *)
Theorem calculateTargetPath_clean_names m :
  (forall t c, title m = Some t -> creator m = Some c ->
     clean_name t -> clean_name c ->
     series m = None \/ series m = Some [] \/ seriesIndex m = None ->
     calculateTargetPath m
     = (t ++ js " - " ++ c, (t ++ js " - " ++ c) ++ js ".epub"))
  /\ (forall s ix, series m = Some s -> seriesIndex m = Some ix ->
        clean_name s -> (calculateTargetPath m).1 = s).
Proof.
  split.
  - intros t c Ht Hc (Htne & Htall & Htsp) (Hcne & Hcall & Hcsp) Hno.
    rewrite (calculateTargetPath_no_series m Hno).
    unfold titleCreatorPath, sanitized_or. rewrite Ht, Hc.
    rewrite !sanitize_clean_name by done.
    by destruct t, c.
  - intros s ix Hs Hix (Hsne & Hsall & Hssp).
    rewrite (calculateTargetPath_series m s ix Hs Hsne Hix). cbn [fst].
    by apply sanitize_clean_name.
Qed.

(** A document with a series and with an index written as a natural
    number of at most 15 digits, whatever follows the numeral: the file is
    named after the sanitized series and the numeral, padded with a zero
    to two digits. *)
Theorem numbered_series_target (doc : PackageMetadata) (ms : list Meta)
    (s e : Meta) (n : N) (rest : list N) :
  meta doc = Some ms ->
  List.find (has_name (js "calibre:series")) ms = Some s ->
  meta_content s <> [] ->
  List.find (has_name (js "calibre:series_index")) ms = Some e ->
  meta_content e = decimal_digits n ++ rest ->
  ends_numeral rest = true ->
  (length (decimal_digits n) <= 15)%nat ->
  seriesIndex (extractMetadata doc) = Some (Finite false n 0)
  /\ calculateTargetPath (extractMetadata doc)
     = (sanitize (meta_content s),
        sanitize (meta_content s) ++ js " - "
          ++ (replicate (2 - length (decimal_digits n)) 48 ++ decimal_digits n)
          ++ js ".epub").
Proof.
  intros Hms Hs Hne He Hcontent Hrest Hlen.
  destruct (series_index_round_trip n rest Hlen Hrest) as (Hparse & _ & Hpad).
  assert (Hix : seriesIndex (extractMetadata doc) = Some (Finite false n 0)).
  { unfold extractMetadata. cbn [seriesIndex]. rewrite Hms. cbn [mbind option_bind].
    rewrite He. cbn [fmap option_fmap option_map]. by rewrite Hcontent, Hparse. }
  split; [done|].
  rewrite (calculateTargetPath_series (extractMetadata doc) (meta_content s)
             (Finite false n 0)); [|  |done|done].
  - by rewrite <- Hparse, Hpad.
  - unfold extractMetadata. cbn [series]. rewrite Hms. cbn [mbind option_bind].
    by rewrite Hs.
Qed.

Lemma numbered_series_target_witness :
  seriesIndex (extractMetadata (book_document "A Book"))
  = Some (Finite false 1 0)
  /\ calculateTargetPath (extractMetadata (book_document "A Book"))
     = (sanitize (js "Books"),
        sanitize (js "Books") ++ js " - "
          ++ (replicate (2 - length (decimal_digits 1)) 48 ++ decimal_digits 1)
          ++ js ".epub").
Proof.
  apply (numbered_series_target (book_document "A Book")
           [ {| meta_name := js "calibre:series";
                meta_content := js "Books" |};
             {| meta_name := js "calibre:series_index";
                meta_content := js "1" |} ]
           {| meta_name := js "calibre:series"; meta_content := js "Books" |}
           {| meta_name := js "calibre:series_index";
              meta_content := js "1" |} 1 []).
  - reflexivity.
  - reflexivity.
  - by vm_compute.
  - reflexivity.
  - reflexivity.
  - reflexivity.
  - vm_compute. lia.
Defined.

Lemma clean_name_check s :
  nonempty s && forallb is_alnum_space s && single_spaced s = true ->
  clean_name s.
Proof.
  intros H. apply andb_prop in H as [H Hs]. apply andb_prop in H as [Hne Hall].
  split; [by destruct s|]. split; [|done].
  apply Forall_forall. intros c Hc. rewrite forallb_forall in Hall.
  by apply Hall, list_elem_of_In.
Qed.

Lemma calculateTargetPath_clean_names_witness :
  calculateTargetPath
    (mk_meta (Some "Just a Book"%string) (Some "John Smith"%string) None None)
  = (js "Just a Book" ++ js " - " ++ js "John Smith",
     (js "Just a Book" ++ js " - " ++ js "John Smith") ++ js ".epub").
Proof.
  apply (proj1 (calculateTargetPath_clean_names
                  (mk_meta (Some "Just a Book"%string)
                     (Some "John Smith"%string) None None))
           (js "Just a Book") (js "John Smith")).
  - reflexivity.
  - reflexivity.
  - apply clean_name_check. vm_compute. reflexivity.
  - apply clean_name_check. vm_compute. reflexivity.
  - by left.
Defined.

(** ** The linker on any source *)

(** [linkFile] for an entry with a title: a regular file is in the way of
    the directory, or the directory is found or made and the outcome is
    [link_outcome]. *)
Lemma linkFile_run outDir source m d f (fs : gmap key node) :
  target_ready outDir fs ->
  truthy (title m) = true ->
  calculateTargetPath m = (d, f) ->
  (exists i, fs !! dir_key outDir d = Some (File i)
     /\ linkFile outDir source m fs
        = (Returned None, fs, [(Mkdir (outDir ++ js "/" ++ d), false)]))
  \/ (exists fs1, dir_made fs (dir_key outDir d) fs1
     /\ linkFile outDir source m fs
        = link_outcome fs1 (target_key outDir d f) (path_key source)
            (outDir ++ js "/" ++ d) (outDir ++ js "/" ++ d ++ js "/" ++ f)
            source (d ++ js "/" ++ f)).
Proof.
  intros Hready Htitle Hpath.
  pose proof Hready as (Hne & _).
  destruct (calculateTargetPath_names m d f Hpath) as [Hd Hf].
  unfold linkFile. rewrite Htitle, Hpath. cbn [negb]. cbv beta iota zeta.
  assert (Htk : path_key (outDir ++ js "/" ++ d ++ js "/" ++ f)
                = target_key outDir d f) by by apply target_key_path.
  assert (Htd : target_key outDir d f <> dir_key outDir d)
    by by apply target_ne_dir.
  assert (Hparent : parent (target_key outDir d f) = dir_key outDir d).
  { rewrite target_key_child by done. apply parent_kapp. }
  pose proof (mkdir_dir_key outDir d fs Hready Hd) as Hmk.
  unfold link_outcome.
  generalize dependent (target_key outDir d f). intros tk Htk Htd Hparent.
  generalize dependent (dir_key outDir d). intros dk Hmk Htd Hparent.
  destruct Hmk as [(j & Hj & Hrun)|(fs1 & Hmade & Hrun)].
  { left. exists j. split; [done|].
    unfold try_catch at 1. rewrite run_bind. by rewrite Hrun. }
  right. exists fs1. split; [done|].
  pose proof (dir_made_is_dir _ _ _ Hmade) as Hdir.
  unfold try_catch at 1. rewrite run_bind. rewrite Hrun.
  rewrite run_bind. unfold try_catch at 1. rewrite run_bind.
  unfold stat at 1. rewrite Htk.
  destruct (fs1 !! tk) as [nd|] eqn:Etk; cbn [mret IO_ret].
  - destruct (single_link (node_stats fs1 nd)) eqn:Esingle.
    + rewrite run_bind. unfold safeUnlink.
      destruct (unsafe_path (outDir ++ js "/" ++ d ++ js "/" ++ f)) eqn:Eunsafe.
      * by cbn.
      * rewrite run_bind. unfold unlink at 1. rewrite Htk, Etk.
        destruct nd as [j|n]; [|by cbn].
        cbn [mret IO_ret negb]. rewrite run_bind.
        unfold link at 1. rewrite Htk, Hparent.
        rewrite lookup_delete_eq.
        rewrite (is_dir_delete_ne fs1 tk dk Htd), Hdir.
        by destruct (delete tk fs1 !! path_key source) as [[i|n]|].
    + by cbn.
  - rewrite run_bind. unfold link at 1. rewrite Htk, Hparent, Etk, Hdir.
    by destruct (fs1 !! path_key source) as [[i|n]|].
Qed.

(** The directory of an existing target is a directory. *)
Lemma target_parent_dir outDir d f fs nd :
  target_ready outDir fs -> slash_free d = true -> entry_name f ->
  fs !! target_key outDir d f = Some nd ->
  is_dir fs (dir_key outDir d) = true.
Proof.
  intros (Hne & Hclosed & Hnames & Hroot) Hd Hf Hnd.
  rewrite target_key_child in Hnd by done.
  destruct (dir_key_cases outDir d Hd) as [[-> Hk]|[Hdn Hk]]; rewrite Hk in *;
    [done|].
  apply (Hclosed (path_key outDir).1 ((path_key outDir).2 ++ [d]) f nd).
  - exact Hnd.
  - by destruct (path_key outDir).2.
Qed.

(** A target that does not look like a single-link file is kept. *)
Lemma linkFile_kept outDir source m fs nd :
  target_ready outDir fs -> truthy (title m) = true ->
  fs !! target_key outDir (calculateTargetPath m).1 (calculateTargetPath m).2
  = Some nd ->
  single_link (node_stats fs nd) = false ->
  linkFile outDir source m fs
  = (Returned (Some (rel_path m)), fs,
     [(Mkdir (outDir ++ js "/" ++ (calculateTargetPath m).1), true);
      (Stat (target_path outDir m), true)]).
Proof.
  intros Hready Htitle Hnd Hsingle.
  destruct (calculateTargetPath m) as [d f] eqn:Hpath. cbn [fst snd] in *.
  destruct (calculateTargetPath_names m d f Hpath) as [Hd Hf].
  pose proof (target_parent_dir outDir d f fs nd Hready Hd Hf Hnd) as Hdir.
  destruct (linkFile_run outDir source m d f fs Hready Htitle Hpath)
    as [(i & Hi & _)|(fs1 & Hmade & ->)].
  { apply is_dir_true in Hdir as [n Hn]. congruence. }
  assert (fs1 = fs) as ->.
  { destruct Hmade as [[_ ->]|[Hnone _]]; [done|].
    apply is_dir_true in Hdir as [n Hn]. congruence. }
  unfold link_outcome, rel_path, target_path. rewrite Hnd, Hsingle, Hpath. done.
Qed.

Lemma linkFile_frame outDir source m fs :
  target_ready outDir fs ->
  exists r fs' t,
    linkFile outDir source m fs = (Returned r, fs', t)
    /\ (r = None \/ r = Some (rel_path m))
    /\ (forall k, ~ under (path_key outDir) k -> fs' !! k = fs !! k)
    /\ (forall k n, fs !! k = Some (Dir n) -> fs' !! k = Some (Dir n)).
Proof.
  intros Hready.
  destruct (truthy (title m)) eqn:Htitle; cycle 1.
  { exists None, fs, []. unfold linkFile. rewrite Htitle. by repeat split; eauto. }
  destruct (calculateTargetPath m) as [d f] eqn:Hpath.
  destruct (linkFile_run outDir source m d f fs Hready Htitle Hpath)
    as [(i & Hi & ->)|(fs1 & Hmade & ->)].
  { eexists _, _, _. by repeat split; eauto. }
  assert (Hout : forall k, ~ under (path_key outDir) k ->
            k <> target_key outDir d f /\ fs1 !! k = fs !! k).
  { intros k Hk. split.
    - intros ->. apply Hk, target_key_under.
    - apply (dir_made_lookup_ne fs (dir_key outDir d)); [done|].
      intros ->. apply Hk, dir_key_under. }
  assert (Hdirs : forall k n, fs !! k = Some (Dir n) -> fs1 !! k = Some (Dir n))
    by eauto using dir_made_lookup_some.
  assert (Hdk : forall k n, fs !! k = Some (Dir n) ->
            fs1 !! target_key outDir d f <> Some (Dir n) ->
            k <> target_key outDir d f).
  { intros k n Hk Htk ->. apply Hdirs in Hk. congruence. }
  unfold link_outcome, rel_path. rewrite Hpath. cbn [fst snd].
  destruct (fs1 !! target_key outDir d f) as [nd|] eqn:Etk.
  - destruct (single_link (node_stats fs1 nd));
      [|eexists _, _, _; by repeat split; eauto; intros k Hk; apply Hout].
    destruct (unsafe_path _);
      [eexists _, _, _; by repeat split; eauto; intros k Hk; apply Hout|].
    destruct nd as [j|n];
      [|eexists _, _, _; by repeat split; eauto; intros k Hk; apply Hout].
    destruct (delete (target_key outDir d f) fs1 !! path_key source)
      as [[i|n]|]; eexists _, _, _; (split; [done|]); (split; [by eauto|]);
      (split;
       [intros k Hk; destruct (Hout k Hk) as [Hne Hsame];
        by rewrite ?lookup_insert_ne, ?lookup_delete_ne by done
       |intros k n' Hk; pose proof (Hdk k n' Hk ltac:(done));
        rewrite ?lookup_insert_ne, ?lookup_delete_ne by done; eauto]).
  - destruct (fs1 !! path_key source) as [[i|n]|];
      eexists _, _, _; (split; [done|]); (split; [by eauto|]);
      (split;
       [intros k Hk; destruct (Hout k Hk) as [Hne Hsame];
        by rewrite ?lookup_insert_ne by done
       |intros k n' Hk; pose proof (Hdk k n' Hk ltac:(done));
        rewrite ?lookup_insert_ne by done; eauto]).
Qed.

Lemma is_dir_kept (fs fs' : gmap key node) :
  (forall k n, fs !! k = Some (Dir n) -> fs' !! k = Some (Dir n)) ->
  forall k, is_dir fs k = true -> is_dir fs' k = true.
Proof.
  intros Hdirs k [n Hn]%is_dir_true. apply is_dir_true. eauto.
Qed.

(** [linkFile] never throws, whatever the source path and the state of the
    target tree. It returns nothing or the relative target path of the
    entry; entries outside the target tree are left as they are, and no
    directory is removed. *)
Theorem linkFile_confined outDir source m fs :
  target_ready outDir fs ->
  exists r fs' t,
    linkFile outDir source m fs = (Returned r, fs', t)
    /\ (r = None \/ r = Some (rel_path m))
    /\ (forall k, ~ under (path_key outDir) k -> fs' !! k = fs !! k)
    /\ (forall k, is_dir fs k = true -> is_dir fs' k = true).
Proof.
  intros Hready.
  destruct (linkFile_frame outDir source m fs Hready)
    as (r & fs' & t & Hrun & Hr & Hout & Hdirs).
  exists r, fs', t. repeat (split; [done|]). by apply is_dir_kept.
Qed.

Lemma linkFile_confined_witness :
  exists r fs' t,
    linkFile (js "/out") a_book_path a_book
      stray_target_fs = (Returned r, fs', t)
    /\ (r = None
        \/ r = Some (rel_path a_book))
    /\ (forall k, ~ under (path_key (js "/out")) k ->
          fs' !! k = stray_target_fs !! k)
    /\ (forall k, is_dir stray_target_fs k = true -> is_dir fs' k = true).
Proof.
  apply linkFile_confined. apply target_readyb_sound. vm_compute. reflexivity.
Defined.

(** A target with two or more links is kept as it is, whatever the source
    path: the inode of the target is not compared with that of the source,
    and the source need not even exist. *)
Theorem linkFile_keeps_linked_target outDir source m fs j :
  target_ready outDir fs -> truthy (title m) = true ->
  fs !! target_key outDir (calculateTargetPath m).1 (calculateTargetPath m).2
  = Some (File j) ->
  (2 <= nlink fs j)%nat ->
  linkFile outDir source m fs
  = (Returned (Some (rel_path m)), fs,
     [(Mkdir (outDir ++ js "/" ++ (calculateTargetPath m).1), true);
      (Stat (target_path outDir m), true)]).
Proof.
  intros Hready Htitle Hj Hn. apply (linkFile_kept outDir source m fs (File j));
    [done..|].
  destruct (single_link (node_stats fs (File j))) eqn:E; [|done].
  apply single_link_file in E. lia.
Qed.

Lemma linkFile_keeps_linked_target_witness :
  linkFile (js "/out") b_book_path b_book
    mirrored_fs
  = (Returned (Some (js "Books/Books - 01.epub")), mirrored_fs,
     [(Mkdir (js "/out/Books"), true);
      (Stat (js "/out/Books/Books - 01.epub"), true)]).
Proof.
  apply (linkFile_keeps_linked_target (js "/out") b_book_path
           b_book mirrored_fs 1).
  - apply target_readyb_sound. vm_compute. reflexivity.
  - reflexivity.
  - vm_compute. reflexivity.
  - vm_compute. lia.
Defined.

(** For a target that does not exist, the directory is found or made and
    the target becomes a hard link of the source file: it has the inode of
    the source, whose link count goes up by one. *)
Theorem linkFile_links_fresh_target outDir source m fs i :
  target_ready outDir fs -> truthy (title m) = true ->
  fs !! path_key source = Some (File i) ->
  fs !! target_key outDir (calculateTargetPath m).1 (calculateTargetPath m).2
  = None ->
  (forall x, fs !! dir_key outDir (calculateTargetPath m).1 <> Some (File x)) ->
  exists fs' t,
    linkFile outDir source m fs = (Returned (Some (rel_path m)), fs', t)
    /\ fs' !! target_key outDir (calculateTargetPath m).1
               (calculateTargetPath m).2 = Some (File i)
    /\ is_dir fs' (dir_key outDir (calculateTargetPath m).1) = true
    /\ nlink fs' i = S (nlink fs i)
    /\ (forall k, k <> target_key outDir (calculateTargetPath m).1
                         (calculateTargetPath m).2 ->
                  k <> dir_key outDir (calculateTargetPath m).1 ->
                  fs' !! k = fs !! k)
    /\ changes t = [(Link source (target_path outDir m), true)].
Proof.
  intros Hready Htitle Hsrc Hnone Hfree. unfold rel_path, target_path.
  destruct (calculateTargetPath m) as [d f] eqn:Hpath. cbn [fst snd] in *.
  destruct (calculateTargetPath_names m d f Hpath) as [Hd Hf].
  pose proof (target_ne_dir outDir d f Hf) as Htd.
  destruct (linkFile_run outDir source m d f fs Hready Htitle Hpath)
    as [(x & Hx & _)|(fs1 & Hmade & ->)]; [by destruct (Hfree x)|].
  assert (Hsd : path_key source <> dir_key outDir d).
  { intros E. rewrite E in Hsrc.
    destruct Hmade as [[Hdir _]|[Hno _]]; [|congruence].
    apply is_dir_true in Hdir as [n Hn]. congruence. }
  assert (Hnone1 : fs1 !! target_key outDir d f = None).
  { by rewrite (dir_made_lookup_ne fs (dir_key outDir d)). }
  assert (Hsrc1 : fs1 !! path_key source = Some (File i)).
  { by apply (dir_made_lookup_some fs (dir_key outDir d)). }
  unfold link_outcome. rewrite Hnone1, Hsrc1.
  eexists _, _. split; [done|]. split; [apply lookup_insert_eq|].
  split; [|split; [|split]].
  - rewrite is_dir_insert_ne by done. by eapply dir_made_is_dir.
  - rewrite nlink_insert_file by done. rewrite bool_decide_true by done.
    by rewrite (dir_made_nlink fs (dir_key outDir d)).
  - intros k Hk1 Hk2. rewrite lookup_insert_ne by done.
    by apply (dir_made_lookup_ne fs (dir_key outDir d)).
  - done.
Qed.

Lemma linkFile_links_fresh_target_witness :
  exists fs' t,
    linkFile (js "/out") a_book_path a_book
      (fs_of library_fs)
    = (Returned (Some (rel_path a_book)),
       fs', t)
    /\ fs' !! target_key (js "/out") (js "Books") (js "Books - 01.epub")
       = Some (File 1).
Proof.
  destruct (linkFile_links_fresh_target (js "/out") a_book_path
              a_book (fs_of library_fs) 1)
    as (fs' & t & Hrun & Htarget & _).
  - apply target_readyb_sound. vm_compute. reflexivity.
  - reflexivity.
  - vm_compute. reflexivity.
  - vm_compute. reflexivity.
  - intros x. vm_compute. discriminate.
  - exists fs', t. split; [exact Hrun|exact Htarget].
Defined.

(** A target that is a regular file with a single link is taken for a
    stale copy: it is removed and the source is linked in its place, so
    that the inode of the old file is no longer named. *)
Theorem linkFile_replaces_stale_target outDir source m fs i j :
  target_ready outDir fs -> truthy (title m) = true ->
  fs !! path_key source = Some (File i) ->
  path_key source
  <> target_key outDir (calculateTargetPath m).1 (calculateTargetPath m).2 ->
  fs !! target_key outDir (calculateTargetPath m).1 (calculateTargetPath m).2
  = Some (File j) ->
  nlink fs j = 1%nat ->
  unsafe_path (target_path outDir m) = false ->
  let fs' := <[target_key outDir (calculateTargetPath m).1
                 (calculateTargetPath m).2 := File i]> fs in
  linkFile outDir source m fs
  = (Returned (Some (rel_path m)), fs',
     [(Mkdir (outDir ++ js "/" ++ (calculateTargetPath m).1), true);
      (Stat (target_path outDir m), true);
      (Unlink (target_path outDir m), true);
      (Link source (target_path outDir m), true)])
  /\ nlink fs' j = 0%nat /\ nlink fs' i = S (nlink fs i).
Proof.
  intros Hready Htitle Hsrc Hst Hj Hn Hsafe. unfold rel_path, target_path in *.
  destruct (calculateTargetPath m) as [d f] eqn:Hpath. cbn [fst snd] in *.
  destruct (calculateTargetPath_names m d f Hpath) as [Hd Hf].
  pose proof (target_parent_dir outDir d f fs _ Hready Hd Hf Hj) as Hdir.
  assert (Hij : i <> j).
  { intros ->.
    pose proof (nlink_two fs _ _ j Hst Hsrc Hj). lia. }
  cbv zeta. rewrite <- (insert_delete_eq fs).
  split; [|split].
  - destruct (linkFile_run outDir source m d f fs Hready Htitle Hpath)
      as [(x & Hx & _)|(fs1 & Hmade & ->)].
    { apply is_dir_true in Hdir as [n Hdn]. congruence. }
    assert (fs1 = fs) as ->.
    { destruct Hmade as [[_ ->]|[Hnone _]]; [done|].
      apply is_dir_true in Hdir as [n Hdn]. congruence. }
    unfold link_outcome. rewrite Hj.
    rewrite (proj2 (single_link_file fs j) Hn), Hsafe.
    by rewrite lookup_delete_ne, Hsrc by done.
  - rewrite nlink_insert_file by apply lookup_delete_eq.
    rewrite (nlink_delete_file fs _ j j Hj).
    rewrite bool_decide_false by done. rewrite bool_decide_true by done.
    by rewrite Hn.
  - rewrite nlink_insert_file by apply lookup_delete_eq.
    rewrite (nlink_delete_file fs _ j i Hj).
    rewrite bool_decide_true by done. by rewrite bool_decide_false by done.
Qed.

Lemma linkFile_replaces_stale_target_witness :
  linkFile (js "/out") a_book_path a_book stray_target_fs
  = (Returned (Some (js "Books/Books - 01.epub")),
     <[path_key (js "/out/Books/Books - 01.epub") := File 1]> stray_target_fs,
     [(Mkdir (js "/out/Books"), true);
      (Stat (js "/out/Books/Books - 01.epub"), true);
      (Unlink (js "/out/Books/Books - 01.epub"), true);
      (Link a_book_path (js "/out/Books/Books - 01.epub"), true)]).
Proof.
  destruct (linkFile_replaces_stale_target (js "/out") a_book_path a_book
              stray_target_fs 1 5) as [Hrun _].
  - apply target_readyb_sound. vm_compute. reflexivity.
  - reflexivity.
  - vm_compute. reflexivity.
  - vm_compute. discriminate.
  - vm_compute. reflexivity.
  - vm_compute. reflexivity.
  - vm_compute. reflexivity.
  - exact Hrun.
Defined.

(** When the source path names no regular file, a single-link target is
    removed all the same: the link then fails, nothing is returned, and
    neither the old file nor a link is left at the target path. *)
Theorem linkFile_missing_source outDir source m fs j :
  target_ready outDir fs -> truthy (title m) = true ->
  (forall i, fs !! path_key source <> Some (File i)) ->
  fs !! target_key outDir (calculateTargetPath m).1 (calculateTargetPath m).2
  = Some (File j) ->
  nlink fs j = 1%nat ->
  unsafe_path (target_path outDir m) = false ->
  linkFile outDir source m fs
  = (Returned None,
     delete (target_key outDir (calculateTargetPath m).1
               (calculateTargetPath m).2) fs,
     [(Mkdir (outDir ++ js "/" ++ (calculateTargetPath m).1), true);
      (Stat (target_path outDir m), true);
      (Unlink (target_path outDir m), true);
      (Link source (target_path outDir m), false)]).
Proof.
  intros Hready Htitle Hsrc Hj Hn Hsafe. unfold rel_path, target_path in *.
  destruct (calculateTargetPath m) as [d f] eqn:Hpath. cbn [fst snd] in *.
  destruct (calculateTargetPath_names m d f Hpath) as [Hd Hf].
  pose proof (target_parent_dir outDir d f fs _ Hready Hd Hf Hj) as Hdir.
  destruct (linkFile_run outDir source m d f fs Hready Htitle Hpath)
    as [(x & Hx & _)|(fs1 & Hmade & ->)].
  { apply is_dir_true in Hdir as [n Hdn]. congruence. }
  assert (fs1 = fs) as ->.
  { destruct Hmade as [[_ ->]|[Hnone _]]; [done|].
    apply is_dir_true in Hdir as [n Hdn]. congruence. }
  unfold link_outcome. rewrite Hj.
  rewrite (proj2 (single_link_file fs j) Hn), Hsafe.
  assert (Hne : target_key outDir d f <> path_key source).
  { intros E. rewrite <- E in Hsrc. by destruct (Hsrc j). }
  rewrite lookup_delete_ne by done.
  destruct (fs !! path_key source) as [[i|n]|] eqn:E; try done.
  by destruct (Hsrc i).
Qed.

Lemma linkFile_missing_source_witness :
  linkFile (js "/out") (js "/in/Jane Doe/A Book/gone.epub") a_book
    stray_target_fs
  = (Returned None,
     delete (path_key (js "/out/Books/Books - 01.epub")) stray_target_fs,
     [(Mkdir (js "/out/Books"), true);
      (Stat (js "/out/Books/Books - 01.epub"), true);
      (Unlink (js "/out/Books/Books - 01.epub"), true);
      (Link (js "/in/Jane Doe/A Book/gone.epub")
         (js "/out/Books/Books - 01.epub"), false)]).
Proof.
  apply (linkFile_missing_source (js "/out") (js "/in/Jane Doe/A Book/gone.epub")
           a_book stray_target_fs 5).
  - apply target_readyb_sound. vm_compute. reflexivity.
  - reflexivity.
  - intros i. vm_compute. discriminate.
  - vm_compute. reflexivity.
  - vm_compute. reflexivity.
  - vm_compute. reflexivity.
Defined.

(** Calling [linkFile] again with the same arguments after it has
    returned a path returns the same path and changes nothing. *)
Theorem linkFile_twice outDir source m fs i p fs' t :
  target_ready outDir fs ->
  fs !! path_key source = Some (File i) ->
  ~ under (path_key outDir) (path_key source) ->
  linkFile outDir source m fs = (Returned (Some p), fs', t) ->
  linkFile outDir source m fs'
  = (Returned (Some p), fs',
     [(Mkdir (outDir ++ js "/" ++ (calculateTargetPath m).1), true);
      (Stat (target_path outDir m), true)]).
Proof.
  intros Hready Hsrc Hout Hrun.
  destruct (link_step_run outDir source m i fs Hready Hsrc Hout)
    as (r & fs0 & t0 & Hrun0 & Hstep).
  rewrite Hrun in Hrun0. injection Hrun0 as <- <- <-.
  pose proof (link_step_ready outDir source m fs _ fs' t Hstep Hout Hready)
    as Hready'.
  destruct Hstep as [(_ & Hr & _)|[Htitle Hcase]]; [done|].
  destruct (link_keys outDir source m Hout) as (Hd & Hf & Hchild & Htd & Hst & Hsd).
  cbv zeta in *.
  assert (exists nd,
            p = rel_path m
            /\ fs' !! target_key outDir (calculateTargetPath m).1
                        (calculateTargetPath m).2 = Some nd
            /\ single_link (node_stats fs' nd) = false) as (nd & -> & Hnd & Hs).
  { inversion Hcase as [| fs1 nd Hm Ht Hsingle | | | fs1 j i' Hm Ht Hn Hu Hs
                        | fs1 i' Hm Ht Hs]; subst.
    - by exists nd.
    - exists (File i'). split; [done|]. split; [apply lookup_insert_eq|].
      destruct (single_link _) eqn:E; [|done].
      apply single_link_file in E.
      assert (2 <= nlink (<[target_key outDir (calculateTargetPath m).1
                              (calculateTargetPath m).2 := File i']>
                            (delete (target_key outDir (calculateTargetPath m).1
                                       (calculateTargetPath m).2) fs1)) i')%nat;
        [|lia].
      apply (nlink_two _ (path_key source)
               (target_key outDir (calculateTargetPath m).1
                  (calculateTargetPath m).2)); [done| |apply lookup_insert_eq].
      by rewrite lookup_insert_ne, lookup_delete_ne.
    - exists (File i'). split; [done|]. split; [apply lookup_insert_eq|].
      destruct (single_link _) eqn:E; [|done].
      apply single_link_file in E.
      assert (2 <= nlink (<[target_key outDir (calculateTargetPath m).1
                              (calculateTargetPath m).2 := File i']> fs1) i')%nat;
        [|lia].
      apply (nlink_two _ (path_key source)
               (target_key outDir (calculateTargetPath m).1
                  (calculateTargetPath m).2)); [done| |apply lookup_insert_eq].
      by rewrite lookup_insert_ne. }
  by apply (linkFile_kept outDir source m fs' nd).
Qed.

Lemma linkFile_twice_witness :
  linkFile (js "/out") a_book_path a_book
    (fs_after (linkFile (js "/out") a_book_path a_book (fs_of library_fs)))
  = (Returned (Some (js "Books/Books - 01.epub")),
     fs_after (linkFile (js "/out") a_book_path a_book (fs_of library_fs)),
     [(Mkdir (js "/out" ++ js "/" ++ (calculateTargetPath a_book).1), true);
      (Stat (target_path (js "/out") a_book), true)]).
Proof.
  assert (Hr : (linkFile (js "/out") a_book_path a_book (fs_of library_fs)).1.1
               = Returned (Some (js "Books/Books - 01.epub")))
    by (vm_compute; reflexivity).
  apply (linkFile_twice (js "/out") a_book_path a_book (fs_of library_fs) 1
           (js "Books/Books - 01.epub")
           (fs_after (linkFile (js "/out") a_book_path a_book
                        (fs_of library_fs)))
           (calls_of (linkFile (js "/out") a_book_path a_book
                        (fs_of library_fs)))).
  - apply target_readyb_sound. vm_compute. reflexivity.
  - vm_compute. reflexivity.
  - apply (bool_decide_unpack _). vm_compute. exact I.
  - rewrite <- Hr. unfold fs_after, calls_of.
    by destruct (linkFile (js "/out") a_book_path a_book (fs_of library_fs))
      as [[r fs'] t].
Defined.

(** When a regular file stands where the directory of the entry should
    be, [mkdir] fails: nothing is returned and nothing is changed. *)
Theorem linkFile_directory_blocked outDir source m fs x :
  target_ready outDir fs -> truthy (title m) = true ->
  fs !! dir_key outDir (calculateTargetPath m).1 = Some (File x) ->
  linkFile outDir source m fs
  = (Returned None, fs,
     [(Mkdir (outDir ++ js "/" ++ (calculateTargetPath m).1), false)]).
Proof.
  intros Hready Htitle Hx.
  destruct (calculateTargetPath m) as [d f] eqn:Hpath. cbn [fst snd] in *.
  destruct (linkFile_run outDir source m d f fs Hready Htitle Hpath)
    as [(i & Hi & ->)|(fs1 & Hmade & _)]; [done|].
  destruct Hmade as [[Hdir _]|[Hnone _]]; [|congruence].
  apply is_dir_true in Hdir as [n Hn]. congruence.
Qed.

Lemma linkFile_directory_blocked_witness :
  linkFile (js "/out") a_book_path a_book
    (<[path_key (js "/out/Books") := File 8]> (fs_of library_fs))
  = (Returned None, <[path_key (js "/out/Books") := File 8]> (fs_of library_fs),
     [(Mkdir (js "/out" ++ js "/" ++ (calculateTargetPath a_book).1), false)]).
Proof.
  apply (linkFile_directory_blocked (js "/out") a_book_path a_book _ 8).
  - apply target_readyb_sound. vm_compute. reflexivity.
  - reflexivity.
  - vm_compute. reflexivity.
Defined.

(** The guard of [safeUnlink] does not tell one path of a pass from
    another: for a given target root it lets through every path that the
    linker and the pruning loop build, or none of them. *)
Theorem guard_by_target_root outDir :
  outDir <> [] ->
  (forall m, unsafe_path (target_path outDir m)
             = starts_with (js "//") (outDir ++ js "/"))
  /\ (forall unusedFile, unsafe_path (prune_path outDir unusedFile)
                         = starts_with (js "//") (outDir ++ js "/")).
Proof.
  intros Hne. split.
  - intros m. by apply unsafe_target_path.
  - intros s. by apply unsafe_target_path.
Qed.

Lemma guard_by_target_root_witness :
  (forall m, unsafe_path (target_path (js "/") m) = true)
  /\ (forall unusedFile, unsafe_path (prune_path (js "/") unusedFile) = true).
Proof.
  apply (guard_by_target_root (js "/")). by vm_compute.
Defined.

(** ** The safe remover and the target scanner *)

(** Past its guard [safeUnlink] removes exactly the named entry when it is
    a regular file, which costs the inode one link, and returns [true];
    on a missing path and on a directory it throws and changes nothing. *)
Theorem safeUnlink_effect filePath fs :
  unsafe_path filePath = false ->
  (forall j, fs !! path_key filePath = Some (File j) ->
     safeUnlink filePath fs
     = (Returned true, delete (path_key filePath) fs, [(Unlink filePath, true)])
     /\ nlink (delete (path_key filePath) fs) j = pred (nlink fs j)
     /\ (forall x, x <> j -> nlink (delete (path_key filePath) fs) x = nlink fs x)
     /\ (forall k, k <> path_key filePath ->
           delete (path_key filePath) fs !! k = fs !! k))
  /\ ((forall j, fs !! path_key filePath <> Some (File j)) ->
      safeUnlink filePath fs = (Thrown, fs, [(Unlink filePath, false)])).
Proof.
  intros Hsafe. unfold safeUnlink. rewrite Hsafe. split.
  - intros j Hj. split; [|split; [|split]].
    + rewrite run_bind. unfold unlink. by rewrite Hj.
    + rewrite (nlink_delete_file fs _ j j Hj). by rewrite bool_decide_true.
    + intros x Hx. rewrite (nlink_delete_file fs _ j x Hj).
      by rewrite bool_decide_false.
    + intros k Hk. by rewrite lookup_delete_ne.
  - intros Hno. rewrite run_bind. unfold unlink.
    destruct (fs !! path_key filePath) as [[j|n]|] eqn:E; try done.
    by destruct (Hno j).
Qed.

Lemma safeUnlink_effect_witness :
  safeUnlink (js "/out/Old/old.epub") mirrored_fs
  = (Returned true, delete (path_key (js "/out/Old/old.epub")) mirrored_fs,
     [(Unlink (js "/out/Old/old.epub"), true)]).
Proof.
  destruct (safeUnlink_effect (js "/out/Old/old.epub") mirrored_fs eq_refl)
    as [Hfile _].
  destruct (Hfile 3) as [Hrun _]; [vm_compute; reflexivity|exact Hrun].
Defined.

Lemma scan_books_NoDup dirName bookFiles epubs :
  NoDup epubs -> NoDup (scan_books dirName bookFiles epubs).
Proof.
  revert epubs. induction bookFiles as [|file rest IH]; intros epubs Hnd; [done|].
  cbn [scan_books]. apply IH. destruct (_ && _); [|done].
  unfold set_add, set_has. case_bool_decide; [done|].
  apply NoDup_app. split; [done|]. split; [|apply NoDup_singleton].
  intros x Hx ->%list_elem_of_singleton. done.
Qed.

Lemma scan_series_NoDup outDir seriesDirs epubs fs T fs' t :
  scan_series outDir seriesDirs epubs fs = (Returned T, fs', t) ->
  NoDup epubs -> NoDup T.
Proof.
  revert epubs fs t. induction seriesDirs as [|dir rest IH];
    intros epubs fs t Hrun Hnd.
  - cbn in Hrun. by injection Hrun as <- _ _.
  - cbn [scan_series] in Hrun. destruct (negb (d_isDirectory dir)); [eauto|].
    rewrite run_bind in Hrun. unfold readdir at 1 in Hrun.
    destruct (is_dir fs _); [|done].
    destruct (scan_series outDir rest _ fs) as [[r fs2] t2] eqn:E.
    injection Hrun as -> -> _.
    eapply IH; [exact E|]. by apply scan_books_NoDup.
Qed.

(** [getFilesInTargetDir] leaves the file system as it is and returns,
    each once, exactly the relative paths [d/f] of the regular files [f]
    ending in [.epub] in the directories [d] of the target root: nothing
    that lies directly in the target root, and nothing of another
    extension. *)
Theorem getFilesInTargetDir_exact outDir fs :
  target_ready outDir fs ->
  exists T t,
    getFilesInTargetDir outDir fs = (Returned T, fs, t)
    /\ NoDup T
    /\ (forall s, s ∈ T <-> target_file outDir fs s)
    /\ (forall s, s ∈ T ->
          exists d f, s = d ++ js "/" ++ f /\ entry_name d /\ entry_name f
            /\ ends_with (js ".epub") f = true
            /\ is_dir fs (kapp (path_key outDir) [d]) = true
            /\ exists j, fs !! kapp (path_key outDir) [d; f] = Some (File j)).
Proof.
  intros Hready.
  destruct (getFilesInTargetDir_run outDir fs Hready) as (T & t & Hrun & _ & HT).
  exists T, t. split; [done|]. split; [|split; [done|]].
  - unfold getFilesInTargetDir in Hrun. rewrite run_bind in Hrun.
    unfold readdir at 1 in Hrun. destruct (is_dir fs _); [|done].
    destruct (scan_series outDir _ [] fs) as [[r fs2] t2] eqn:E.
    injection Hrun as -> -> _.
    eapply scan_series_NoDup; [exact E|apply NoDup_nil_2].
  - intros s Hs. apply HT in Hs.
    destruct (target_file_names outDir fs s Hready Hs)
      as (d & f & -> & Hd & Hf & Hsplit & Hdir & j & Hj).
    exists d, f. repeat (split; [done|]). split; [|by eauto].
    destruct Hs as (d' & f' & j' & n' & E & Hd' & Hf' & Hepub).
    destruct (target_names outDir fs d' f' _ Hready Hf') as [Hdn' Hfn'].
    destruct Hd as [_ Hd], Hf as [_ Hf], Hdn' as [_ Hdn'], Hfn' as [_ Hfn'].
    by destruct (join_inj d f d' f' Hd Hf Hdn' Hfn' E) as [-> ->].
Qed.

Lemma getFilesInTargetDir_exact_witness :
  exists T t,
    getFilesInTargetDir (js "/out") unused_root_fs
    = (Returned T, unused_root_fs, t)
    /\ NoDup T
    /\ (forall s, s ∈ T <-> target_file (js "/out") unused_root_fs s).
Proof.
  destruct (getFilesInTargetDir_exact (js "/out") unused_root_fs)
    as (T & t & Hrun & Hnd & HT & _).
  - apply target_readyb_sound. vm_compute. reflexivity.
  - exists T, t. split; [exact Hrun|]. split; [exact Hnd|exact HT].
Defined.

(** Without a directory at the target root the scan throws. *)
Lemma getFilesInTargetDir_no_root outDir fs :
  is_dir fs (path_key outDir) = false ->
  getFilesInTargetDir outDir fs = (Thrown, fs, [(Readdir outDir, false)]).
Proof.
  intros Hno. unfold getFilesInTargetDir. rewrite run_bind.
  unfold readdir. by rewrite Hno.
Qed.

(** ** What every pass keeps *)

Lemma syncFiles_keeps outDir entries fs :
  target_ready outDir fs -> sources_ready outDir entries fs ->
  (exists t, syncFiles outDir entries fs
             = (Returned tt, fs_after (syncFiles outDir entries fs), t))
  /\ (forall k, ~ under (path_key outDir) k ->
        fs_after (syncFiles outDir entries fs) !! k = fs !! k)
  /\ (forall k n, fs !! k = Some (Dir n) ->
        fs_after (syncFiles outDir entries fs) !! k = Some (Dir n))
  /\ target_ready outDir (fs_after (syncFiles outDir entries fs))
  /\ sources_ready outDir entries (fs_after (syncFiles outDir entries fs)).
Proof.
  intros Hready Hsources. pose proof Hready as (Hne & _).
  destruct (syncFiles_ind outDir entries fs
    (fun _ _ fs0 _ =>
       (forall k, ~ under (path_key outDir) k -> fs0 !! k = fs !! k)
       /\ (forall k n, fs !! k = Some (Dir n) -> fs0 !! k = Some (Dir n)))
    Hready Hsources)
    as (T & t0 & unused & fs1 & t1 & _ & _ & Hrun & Hready1 & Hsources1 & _
        & Hout & Hdirs).
  - done.
  - intros linked source m todo T fs0 t r fs' t' Hall _ Hsources0
      [Hout Hdirs] Hstep.
    split.
    + intros k Hk. rewrite <- (Hout k Hk).
      by apply (link_step_outside outDir source m fs0 r fs' t').
    + intros k n Hk. apply Hdirs in Hk.
      destruct Hstep as [(_ & _ & -> & _)|[_ Hcase]]; [done|].
      by eapply link_case_dir.
  - rewrite Hrun. unfold fs_after. cbn [fst snd].
    split; [by eauto|]. split; [|split; [|split]].
    + intros k Hk. rewrite prune_fs_outside by done. by apply Hout.
    + intros k n Hk. by apply prune_fs_dir, Hdirs.
    + by apply prune_fs_ready.
    + apply (sources_ready_outside outDir entries fs1); [|done].
      intros k Hk. by apply prune_fs_outside.
Qed.

(** A pass over source entries that name regular files outside the target
    tree returns normally. It leaves every entry outside the target tree as
    it is, removes no directory (an emptied directory stays), and the file
    system is again one on which a pass can run. *)
Theorem syncFiles_confined outDir entries fs :
  target_ready outDir fs -> sources_ready outDir entries fs ->
  (exists t, syncFiles outDir entries fs
             = (Returned tt, fs_after (syncFiles outDir entries fs), t))
  /\ (forall k, ~ under (path_key outDir) k ->
        fs_after (syncFiles outDir entries fs) !! k = fs !! k)
  /\ (forall k, is_dir fs k = true ->
        is_dir (fs_after (syncFiles outDir entries fs)) k = true)
  /\ target_ready outDir (fs_after (syncFiles outDir entries fs))
  /\ sources_ready outDir entries (fs_after (syncFiles outDir entries fs)).
Proof.
  intros Hready Hsources.
  destruct (syncFiles_keeps outDir entries fs Hready Hsources)
    as (Hrun & Hout & Hdirs & Hready' & Hsources').
  split; [done|]. split; [done|]. split; [by apply is_dir_kept|done].
Qed.

Lemma syncFiles_confined_witness :
  (forall k, ~ under (path_key (js "/out")) k ->
     fs_after (syncFiles (js "/out") first_book_entries mirrored_fs) !! k
     = mirrored_fs !! k)
  /\ (forall k, is_dir mirrored_fs k = true ->
        is_dir (fs_after (syncFiles (js "/out") first_book_entries mirrored_fs))
          k = true).
Proof.
  destruct (syncFiles_confined (js "/out") first_book_entries mirrored_fs)
    as (_ & Hout & Hdirs & _).
  - apply target_readyb_sound. vm_compute. reflexivity.
  - apply sources_readyb_sound. vm_compute. reflexivity.
  - split; [exact Hout|exact Hdirs].
Defined.

(** A pass writes no file of its own: a regular file that is found after
    the pass was there before under the same name, or it is a hard link of
    the file of a source entry. *)
Theorem syncFiles_only_links outDir entries fs k i :
  target_ready outDir fs -> sources_ready outDir entries fs ->
  fs_after (syncFiles outDir entries fs) !! k = Some (File i) ->
  fs !! k = Some (File i) \/ backed entries fs i.
Proof.
  intros Hready Hsources.
  destruct (syncFiles_ind outDir entries fs
    (fun _ _ fs0 _ =>
       (forall k, ~ under (path_key outDir) k -> fs0 !! k = fs !! k)
       /\ (forall k i, fs0 !! k = Some (File i) ->
             fs !! k = Some (File i) \/ backed entries fs i))
    Hready Hsources)
    as (T & t0 & unused & fs1 & t1 & _ & _ & Hrun & _ & _ & _ & _ & Hfiles).
  - split; [done|]. by left.
  - intros linked source m todo T fs0 t r fs' t' Hall _ Hsources0
      [Hout Hfiles] Hstep.
    assert (Hin : (source, m) ∈ entries).
    { rewrite Hall. apply elem_of_app. right. by left. }
    destruct (Hsources0 source m Hin) as [Hnot _].
    split.
    + intros k' Hk. rewrite <- (Hout k' Hk).
      by apply (link_step_outside outDir source m fs0 r fs' t').
    + intros k' x Hk.
      destruct Hstep as [(_ & _ & -> & _)|[_ Hcase]]; [by apply Hfiles|].
      destruct (link_keys outDir source m Hnot)
        as (Hd & Hf & Hchild & Htd & Hsk & Hsd).
      cbv zeta in *.
      destruct (link_case_file_inv _ _ _ _ _ _ _ _ _ _ _ Hcase Htd _ _ Hk)
        as [Hk0| ->]; [by apply Hfiles|].
      destruct (link_case_target_file _ _ _ _ _ _ _ _ _ _ _ Hcase Htd Hsd _ Hk)
        as [Hk0|Hk0]; [by apply Hfiles|].
      right. exists source, m. split; [done|]. by rewrite <- (Hout _ Hnot).
  - rewrite Hrun. unfold fs_after. cbn [fst snd]. intros Hk.
    apply prune_fs_some in Hk. by apply Hfiles.
Qed.

Lemma syncFiles_only_links_witness :
  fs_of library_fs !! path_key (js "/out/Books/Books - 01.epub")
  = Some (File 1)
  \/ backed first_book_entries (fs_of library_fs) 1.
Proof.
  apply (syncFiles_only_links (js "/out") first_book_entries (fs_of library_fs)).
  - apply target_readyb_sound. vm_compute. reflexivity.
  - apply sources_readyb_sound. vm_compute. reflexivity.
  - vm_compute. reflexivity.
Defined.

Lemma link_all_skips_untitled outDir entries T fs :
  link_all outDir (List.filter (fun e => truthy (title e.2)) entries) T fs
  = link_all outDir entries T fs.
Proof.
  revert T fs. induction entries as [|[source m] rest IH]; intros T fs; [done|].
  cbn [List.filter snd].
  destruct (linkFile_returns outDir source m fs) as (r & fs1 & t1 & Hrun).
  rewrite (link_all_cons outDir source m rest T fs r fs1 t1 Hrun).
  destruct (truthy (title m)) eqn:Htitle.
  - rewrite (link_all_cons outDir source m _ T fs r fs1 t1 Hrun).
    by rewrite IH.
  - unfold linkFile in Hrun. rewrite Htitle in Hrun. cbn in Hrun.
    injection Hrun as <- <- <-. cbn [confirm app]. rewrite IH.
    by destruct (link_all outDir rest T fs) as [[res fs2] t2].
Qed.

(** Entries without a title do not take part in a pass: with them or
    without them the pass makes the same calls and ends in the same file
    system, so that such an entry keeps no file of the target tree from
    being pruned. *)
Theorem syncFiles_skips_untitled outDir entries fs :
  syncFiles outDir (List.filter (fun e => truthy (title e.2)) entries) fs
  = syncFiles outDir entries fs.
Proof.
  unfold syncFiles. rewrite !run_bind.
  destruct (getFilesInTargetDir outDir fs) as [[[T|] fs0] t0]; [|done].
  rewrite !run_bind. by rewrite link_all_skips_untitled.
Qed.

(** After a pass the target path of every source entry with a title
    exists, unless a regular file stands where its directory should be:
    the linker finds or makes the target, no later call removes it, and
    the pruning leaves it alone. *)
Theorem syncFiles_target_present outDir entries fs source m :
  target_ready outDir fs -> sources_ready outDir entries fs ->
  (source, m) ∈ entries -> truthy (title m) = true ->
  (forall i, fs !! dir_key outDir (calculateTargetPath m).1 <> Some (File i)) ->
  exists nd,
    fs_after (syncFiles outDir entries fs)
      !! target_key outDir (calculateTargetPath m).1 (calculateTargetPath m).2
    = Some nd.
Proof.
  intros Hready Hsources Hin Htitle Hfree. pose proof Hready as (Hne & _).
  destruct (Hsources source m Hin) as [Hnot _].
  destruct (link_keys outDir source m Hnot)
    as (Hd & Hf & Hchild & Htd & Hsk & Hsd).
  cbv zeta in *.
  set (d := (calculateTargetPath m).1) in *.
  set (f := (calculateTargetPath m).2) in *.
  assert (Hdir_stays : forall source' m' fs0 r fs' t',
            target_ready outDir fs0 ->
            ~ under (path_key outDir) (path_key source') ->
            link_step outDir source' m' fs0 r fs' t' ->
            (forall i, fs0 !! dir_key outDir d <> Some (File i)) ->
            forall i, fs' !! dir_key outDir d <> Some (File i)).
  { intros source' m' fs0 r fs' t' Hready0 Hnot' Hstep Hfree0 i Hi.
    destruct (dir_key_cases outDir d Hd) as [[_ Hdk]|[_ Hdk]]; rewrite Hdk in *.
    - destruct Hready0 as (_ & _ & _ & Hroot).
      apply is_dir_true in Hroot as [n Hn].
      destruct Hstep as [(_ & _ & -> & _)|[_ Hcase]]; [congruence|].
      eapply link_case_dir in Hn; [|exact Hcase]. congruence.
    - apply (Hfree0 i).
      by apply (link_step_directory outDir source' m' fs0 r fs' t' d m i). }
  destruct (syncFiles_ind outDir entries fs
    (fun linked T fs0 _ =>
       (forall i, fs0 !! dir_key outDir d <> Some (File i))
       /\ ((source, m) ∈ linked ->
           exists nd, fs0 !! target_key outDir d f = Some nd
             /\ (rel_path m ∉ T
                 \/ unsafe_path (target_path outDir m) = true
                 \/ exists n, nd = Dir n)))
    Hready Hsources)
    as (T & t0 & unused & fs1 & t1 & HT & _ & Hrun & Hready1 & _ & Hsub
        & _ & Hdone).
  - intros T HT. split; [done|]. intros H. inversion H.
  - intros linked source' m' todo T fs0 t r fs' t' Hall Hready0 Hsources0
      [Hfree0 Hdone] Hstep.
    assert (Hin' : (source', m') ∈ entries).
    { rewrite Hall. apply elem_of_app. right. by left. }
    destruct (Hsources0 source' m' Hin') as [Hnot' _].
    split; [by eapply Hdir_stays|].
    intros [Hl|Hl%list_elem_of_singleton]%elem_of_app.
    + destruct (Hdone Hl) as (nd & Hnd & Hwhy).
      destruct Hstep as [(_ & -> & -> & _)|[_ Hcase]]; [by exists nd|].
      destruct (link_keys outDir source' m' Hnot')
        as (_ & _ & _ & _ & Hsk' & Hsd').
      destruct nd as [j|n].
      * destruct (link_case_file_some _ _ _ _ _ _ _ _ _ _ _ Hcase Hsk' Hsd'
                    _ _ Hnd) as [j' Hj'].
        exists (File j'). split; [done|].
        destruct Hwhy as [Hnotin|[Hunsafe|[n [=]]]]; [left|by right; left].
        intros Hc. by apply confirm_subset in Hc.
      * exists (Dir n). split; [by eapply link_case_dir|]. right. right. eauto.
    + injection Hl as <- <-.
      destruct Hstep as [(Hfalsy & _)|[_ Hcase]]; [congruence|].
      fold d f in Hcase.
      assert (Hconfirmed : rel_path m ∉ confirm (Some (rel_path m)) T).
      { intros Hc. apply confirm_spec in Hc as [_ Hc].
        by destruct (rel_path_nonempty m); apply Hc. }
      inversion Hcase as [i Hblocked
                         |fs2 nd Hm Ht Hsingle
                         |fs2 nd Hm Ht Hsingle Hunsafe
                         |fs2 n Hm Ht Hsingle Hunsafe
                         |fs2 j i Hm Ht Hn Hunsafe Hs
                         |fs2 i Hm Ht Hs]; subst.
      * by destruct (Hfree0 i).
      * exists nd. split; [done|]. by left.
      * exists nd. split; [done|]. right. by left.
      * exists (Dir n). split; [done|]. right. right. eauto.
      * exists (File i). split; [apply lookup_insert_eq|]. by left.
      * exists (File i). split; [apply lookup_insert_eq|]. by left.
  - rewrite Hrun. unfold fs_after. cbn [fst snd].
    destruct (Hdone Hin) as (nd & Hnd & Hwhy).
    destruct (prune_fs_lookup outDir unused fs1 (target_key outDir d f))
      as [E|(_ & [j Hj] & s & Hs & Hkey & Hsafe)]; [rewrite E; eauto|].
    exfalso.
    assert (Hs0 : target_file outDir fs s) by by apply HT, Hsub.
    destruct (target_file_names outDir fs s Hready Hs0)
      as (d' & f' & -> & Hd' & Hf' & _).
    rewrite prune_path_names in Hkey, Hsafe by (apply Hd' || apply Hf').
    rewrite target_key_path in Hkey by done.
    destruct (target_key_inj outDir d f d' f' Hd Hf (proj2 Hd') Hf' Hkey)
      as [<- <-].
    destruct Hwhy as [Hnotin|[Hunsafe|[n ->]]].
    + by apply Hnotin.
    + unfold target_path in Hunsafe. fold d f in Hunsafe. congruence.
    + congruence.
Qed.

Lemma syncFiles_target_present_witness :
  exists nd,
    fs_after (syncFiles (js "/out") colliding_entries (fs_of library_fs))
      !! target_key (js "/out") (calculateTargetPath b_book).1
           (calculateTargetPath b_book).2
    = Some nd.
Proof.
  apply (syncFiles_target_present (js "/out") colliding_entries
           (fs_of library_fs) b_book_path b_book).
  - apply target_readyb_sound. vm_compute. reflexivity.
  - apply sources_readyb_sound. vm_compute. reflexivity.
  - right. left.
  - reflexivity.
  - intros i. vm_compute. discriminate.
Defined.

(** ** The source scanner

    [target_ready] is a property of a root and of the file system: the
    tree is well formed and the root is a directory. It is asked of the
    source root here as it is asked of the target root elsewhere. *)

Section SourceScan.
Variable content : N -> list N.
Variable validate : list N -> option PackageMetadata.

(** Reading and parsing the metadata file of a book folder. *)
Lemma read_metadata_run fs p i :
  fs !! path_key p = Some (File i) ->
  try_catch
    (text ← readFile content p;
     parsed ← parseOpfText validate text;
     mret (Some parsed))
    (mret None) fs
  = (Returned (parseOpf (validate (content i))), fs, []).
Proof.
  intros Hp. unfold try_catch. rewrite run_bind. unfold readFile at 1.
  rewrite Hp. rewrite run_bind. unfold parseOpfText.
  by destruct (parseOpf (validate (content i))).
Qed.

(** The name of an entry of a directory, and the key of its path. *)
Lemma child_key fs p k ent :
  names_ok fs -> p <> [] -> path_key p = k -> ent ∈ children fs k ->
  entry_name (d_name ent)
  /\ path_key (p ++ js "/" ++ d_name ent) = kapp k [d_name ent]
  /\ exists nd, fs !! kapp k [d_name ent] = Some nd
       /\ d_isDirectory ent = match nd with Dir _ => true | _ => false end
       /\ d_isFile ent = match nd with File _ => true | _ => false end.
Proof.
  intros Hnames Hp Hk Hin. apply elem_of_children in Hin as (nd & Hnd & Hd & Hf).
  assert (Hname : entry_name (d_name ent)).
  { pose proof (Hnames _ _ Hnd) as Hall. unfold kapp in Hall. simpl in Hall.
    apply Forall_app in Hall as [_ Hall]. by inversion Hall. }
  split; [done|]. split; [|by eauto].
  by rewrite path_key_join, components_name, Hk.
Qed.

Lemma read_books_run fs authorPath ak bookFolders files :
  names_ok fs -> authorPath <> [] -> path_key authorPath = ak ->
  (forall bf, bf ∈ bookFolders -> bf ∈ children fs ak) ->
  exists files' t,
    read_books content validate authorPath bookFolders files fs
    = (Returned files', fs, t)
    /\ changes t = []
    /\ forall e, e ∈ files' <->
         e ∈ files
         \/ exists bf, bf ∈ bookFolders
              /\ book_entry content validate fs ak authorPath bf e.
Proof.
  intros Hnames Hne Hak.
  revert files. induction bookFolders as [|bf rest IH]; intros files Hin.
  - exists files, []. split; [done|]. split; [done|]. intros e.
    split; [tauto|]. intros [?|(bf & Hbf & _)]; [done|]. inversion Hbf.
  - assert (Hrest : forall bf', bf' ∈ rest -> bf' ∈ children fs ak).
    { intros bf' Hbf'. apply Hin. by right. }
    assert (Hskip : forall files' t,
              read_books content validate authorPath rest files fs
              = (Returned files', fs, t) ->
              (forall e, ~ book_entry content validate fs ak authorPath bf e) ->
              (forall e, e ∈ files' <->
                 e ∈ files
                 \/ exists bf', bf' ∈ rest
                      /\ book_entry content validate fs ak authorPath bf' e) ->
              forall e, e ∈ files' <->
                e ∈ files
                \/ exists bf', bf' ∈ bf :: rest
                     /\ book_entry content validate fs ak authorPath bf' e).
    { intros files' t _ Hnone Hspec e. rewrite Hspec. split.
      - intros [?|(bf' & Hbf' & He)]; [tauto|].
        right. exists bf'. split; [by right|done].
      - intros [?|(bf' & [->|Hbf']%elem_of_cons & He)]; [tauto| |].
        + by destruct (Hnone e).
        + right. by exists bf'. }
    cbn [read_books].
    destruct (d_isDirectory bf) eqn:Edir; cbn [negb]; cycle 1.
    { destruct (IH files Hrest) as (files' & t & Hrun & Hquiet & Hspec).
      exists files', t. split; [done|]. split; [done|].
      apply (Hskip files' t Hrun); [|done].
      intros e (? & ? & ? & Hd & _). congruence. }
    destruct (child_key fs authorPath ak bf Hnames Hne Hak (Hin bf ltac:(by left)))
      as (Hname & Hkey & nd & Hnd & Hd & _).
    rewrite Edir in Hd. destruct nd as [|n]; [done|].
    assert (Hbne : authorPath ++ js "/" ++ d_name bf <> []) by by destruct authorPath.
    rewrite run_bind, readdir_run by (rewrite Hkey; apply is_dir_true; eauto).
    rewrite Hkey. fold (children fs (kapp ak [d_name bf])).
    destruct (List.find is_epub (children fs (kapp ak [d_name bf])))
      as [epubFile|] eqn:Eepub; cycle 1.
    { destruct (IH files Hrest) as (files' & t & Hrun & Hquiet & Hspec).
      rewrite Hrun. exists files', ((Readdir (authorPath ++ js "/" ++ d_name bf), true) :: t).
      split; [done|]. split; [done|].
      apply (Hskip files' t Hrun); [|done].
      intros e (? & ? & ? & _ & He & _). congruence. }
    destruct (List.find is_opf (children fs (kapp ak [d_name bf])))
      as [opfFile|] eqn:Eopf; cycle 1.
    { destruct (IH files Hrest) as (files' & t & Hrun & Hquiet & Hspec).
      rewrite Hrun. exists files', ((Readdir (authorPath ++ js "/" ++ d_name bf), true) :: t).
      split; [done|]. split; [done|].
      apply (Hskip files' t Hrun); [|done].
      intros e (? & ? & ? & _ & _ & He & _). congruence. }
    pose proof (find_spec _ _ _ Eopf) as [Hoin Hois].
    destruct (child_key fs _ _ opfFile Hnames Hbne Hkey Hoin)
      as (Honame & Hokey & ond & Hond & _ & Hof).
    unfold is_opf in Hois. apply andb_prop in Hois as [Hofile _].
    rewrite Hofile in Hof. destruct ond as [i|]; [|done].
    rewrite kapp_app in Hokey, Hond. cbn [app] in Hokey, Hond.
    rewrite run_bind.
    rewrite (read_metadata_run fs _ i) by (by rewrite Hokey).
    destruct (parseOpf (validate (content i))) as [parsed|] eqn:Eparse.
    + destruct (IH (files ++ [((authorPath ++ js "/" ++ d_name bf)
                                 ++ js "/" ++ d_name epubFile, parsed)]) Hrest)
        as (files' & t & Hrun & Hquiet & Hspec).
      rewrite Hrun.
      exists files', ((Readdir (authorPath ++ js "/" ++ d_name bf), true) :: [] ++ t).
      split; [done|]. split; [done|].
      intros e. rewrite Hspec, elem_of_app, list_elem_of_singleton. split.
      * intros [[?| ->]|(bf' & Hbf' & He)]; [tauto| |].
        -- right. exists bf. split; [by left|].
           exists epubFile, opfFile, i. done.
        -- right. exists bf'. split; [by right|done].
      * intros [?|(bf' & [->|Hbf']%elem_of_cons & He)]; [tauto| |].
        -- left. right.
           destruct He as (ep & op & i' & _ & Hep & Hop & Hi' & Hm & Hpath).
           rewrite Eepub in Hep. rewrite Eopf in Hop.
           injection Hep as <-. injection Hop as <-.
           rewrite Hond in Hi'. injection Hi' as <-.
           rewrite Eparse in Hm. injection Hm as Hm.
           destruct e as [p m]. simpl in *. by subst.
        -- right. by exists bf'.
    + destruct (IH files Hrest) as (files' & t & Hrun & Hquiet & Hspec).
      rewrite Hrun.
      exists files', ((Readdir (authorPath ++ js "/" ++ d_name bf), true) :: [] ++ t).
      split; [done|]. split; [done|].
      apply (Hskip files' t Hrun); [|done].
      intros e (ep & op & i' & _ & Hep & Hop & Hi' & Hm & _).
      rewrite Eopf in Hop. injection Hop as <-.
      rewrite Hond in Hi'. injection Hi' as <-. congruence.
Qed.

End SourceScan.

Lemma changes_app t1 t2 : changes (t1 ++ t2) = changes t1 ++ changes t2.
Proof. apply List.filter_app. Qed.

Section SourceTree.
Variable content : N -> list N.
Variable validate : list N -> option PackageMetadata.

Lemma read_authors_run fs inDir authorFolders files :
  target_ready inDir fs ->
  (forall af, af ∈ authorFolders -> af ∈ children fs (path_key inDir)) ->
  exists files' t,
    read_authors content validate inDir authorFolders files fs
    = (Returned files', fs, t)
    /\ changes t = []
    /\ forall e, e ∈ files' <->
         e ∈ files
         \/ exists af bf,
              af ∈ authorFolders /\ d_isDirectory af = true
              /\ bf ∈ children fs (kapp (path_key inDir) [d_name af])
              /\ book_entry content validate fs
                   (kapp (path_key inDir) [d_name af])
                   (inDir ++ js "/" ++ d_name af) bf e.
Proof.
  intros Hready. pose proof Hready as (Hne & _ & Hnames & _).
  revert files. induction authorFolders as [|af rest IH]; intros files Hin.
  - exists files, []. split; [done|]. split; [done|]. intros e.
    split; [tauto|]. intros [?|(af & bf & Haf & _)]; [done|]. inversion Haf.
  - assert (Hrest : forall af', af' ∈ rest -> af' ∈ children fs (path_key inDir)).
    { intros af' Haf'. apply Hin. by right. }
    cbn [read_authors].
    destruct (d_isDirectory af) eqn:Edir; cbn [negb]; cycle 1.
    { destruct (IH files Hrest) as (files' & t & Hrun & Hquiet & Hspec).
      exists files', t. split; [done|]. split; [done|].
      intros e. rewrite Hspec. split.
      - intros [?|(af' & bf & Haf' & H)]; [tauto|].
        right. exists af', bf. split; [by right|done].
      - intros [?|(af' & bf & [->|Haf']%elem_of_cons & Hd & H)]; [tauto| |].
        + congruence.
        + right. by exists af', bf. }
    destruct (child_key fs inDir _ af Hnames Hne eq_refl (Hin af ltac:(by left)))
      as (Hname & Hkey & nd & Hnd & Hd & _).
    rewrite Edir in Hd. destruct nd as [|n]; [done|].
    assert (Hane : inDir ++ js "/" ++ d_name af <> []) by by destruct inDir.
    rewrite run_bind, readdir_run by (rewrite Hkey; apply is_dir_true; eauto).
    rewrite Hkey. fold (children fs (kapp (path_key inDir) [d_name af])).
    destruct (read_books_run content validate fs _ _
                (children fs (kapp (path_key inDir) [d_name af])) files
                Hnames Hane Hkey ltac:(done))
      as (files1 & t1 & Hrun1 & Hquiet1 & Hspec1).
    rewrite run_bind, Hrun1.
    destruct (IH files1 Hrest) as (files' & t & Hrun & Hquiet & Hspec).
    rewrite Hrun.
    exists files', ((Readdir (inDir ++ js "/" ++ d_name af), true) :: t1 ++ t).
    split; [done|]. split.
    { change (changes (t1 ++ t) = []). by rewrite changes_app, Hquiet1, Hquiet. }
    intros e. rewrite Hspec, Hspec1. split.
    + intros [[?|(bf & Hbf & He)]|(af' & bf & Haf' & H)]; [tauto| |].
      * right. exists af, bf. split; [by left|done].
      * right. exists af', bf. split; [by right|done].
    + intros [?|(af' & bf & [->|Haf']%elem_of_cons & Hd' & Hbf & He)];
        [tauto| |].
      * left. right. by exists bf.
      * right. by exists af', bf.
Qed.

(** [readSourceFiles] changes nothing and returns an entry for the book
    folders that have a metadata file that parses and an e-book file. *)
Lemma readSourceFiles_run inDir fs :
  target_ready inDir fs ->
  exists files t,
    readSourceFiles content validate inDir fs = (Returned files, fs, t)
    /\ changes t = []
    /\ forall e, e ∈ files <->
         exists af bf,
           af ∈ children fs (path_key inDir) /\ d_isDirectory af = true
           /\ bf ∈ children fs (kapp (path_key inDir) [d_name af])
           /\ book_entry content validate fs
                (kapp (path_key inDir) [d_name af])
                (inDir ++ js "/" ++ d_name af) bf e.
Proof.
  intros Hready. pose proof Hready as (_ & _ & _ & Hroot).
  destruct (read_authors_run fs inDir (children fs (path_key inDir)) []
              Hready ltac:(done)) as (files & t & Hrun & Hquiet & Hspec).
  exists files, ((Readdir inDir, true) :: t). split; [|split; [done|]].
  - unfold readSourceFiles. rewrite run_bind, readdir_run by done.
    fold (children fs (path_key inDir)). by rewrite Hrun.
  - intros e. rewrite Hspec. split; [|by right].
    intros [H|H]; [inversion H|done].
Qed.

Lemma book_entry_source inDir fs af bf e :
  target_ready inDir fs ->
  af ∈ children fs (path_key inDir) -> d_isDirectory af = true ->
  bf ∈ children fs (kapp (path_key inDir) [d_name af]) ->
  book_entry content validate fs (kapp (path_key inDir) [d_name af])
    (inDir ++ js "/" ++ d_name af) bf e ->
  source_entry content validate inDir fs e.
Proof.
  intros (Hne & _ & Hnames & _) Haf Hadir Hbf
    (ep & op & i & Hbdir & Hep & Hop & Hi & Hm & Hpath).
  destruct (child_key fs inDir _ af Hnames Hne eq_refl Haf)
    as (Haname & Hakey & and & Hand & Had & _).
  rewrite Hadir in Had. destruct and as [|na]; [done|].
  assert (Hane : inDir ++ js "/" ++ d_name af <> []) by by destruct inDir.
  destruct (child_key fs _ _ bf Hnames Hane Hakey Hbf)
    as (Hbname & Hbkey & bnd & Hbnd & Hbd & _).
  rewrite Hbdir in Hbd. destruct bnd as [|nb]; [done|].
  assert (Hbne : (inDir ++ js "/" ++ d_name af) ++ js "/" ++ d_name bf <> []).
  { by destruct inDir. }
  apply find_spec in Hep as [Hepin Hepis].
  apply find_spec in Hop as [Hopin Hopis].
  destruct (child_key fs _ _ ep Hnames Hbne Hbkey Hepin)
    as (Hename & Hekey & end' & Hend & _ & Hef).
  unfold is_epub in Hepis. apply andb_prop in Hepis as [Hefile Hepub].
  rewrite Hefile in Hef. destruct end' as [j|]; [|done].
  unfold is_opf in Hopis. apply andb_prop in Hopis as [_ Honame].
  apply bool_decide_eq_true in Honame.
  rewrite !kapp_app in *. cbn [app] in *.
  exists (d_name af), (d_name bf), (d_name ep), i, j.
  rewrite Hpath, Hekey, <- Honame.
  repeat split; try done; apply is_dir_true; eauto.
Qed.

End SourceTree.

Section SourceProperties.
Variable content : N -> list N.
Variable validate : list N -> option PackageMetadata.

(** [readSourceFiles] changes nothing, and every entry it returns is the
    path of a regular file ending in [.epub] two folders below the source
    root, paired with the parsed metadata of the regular file
    [metadata.opf] of the same folder. *)
Theorem readSourceFiles_sound inDir fs :
  target_ready inDir fs ->
  exists files t,
    readSourceFiles content validate inDir fs = (Returned files, fs, t)
    /\ changes t = []
    /\ forall e, e ∈ files -> source_entry content validate inDir fs e.
Proof.
  intros Hready.
  destruct (readSourceFiles_run content validate inDir fs Hready)
    as (files & t & Hrun & Hquiet & Hspec).
  exists files, t. split; [done|]. split; [done|].
  intros e (af & bf & Haf & Hd & Hbf & He)%Hspec.
  by eapply book_entry_source.
Qed.

(** Every book folder with a metadata file that parses and an e-book file
    is represented: the result has an entry with the parsed metadata and
    the path of an e-book file of the folder. *)
Theorem readSourceFiles_complete inDir fs a b f i j m :
  target_ready inDir fs ->
  is_dir fs (kapp (path_key inDir) [a]) = true ->
  is_dir fs (kapp (path_key inDir) [a; b]) = true ->
  fs !! kapp (path_key inDir) [a; b; f] = Some (File j) ->
  ends_with (js ".epub") f = true ->
  fs !! kapp (path_key inDir) [a; b; js "metadata.opf"] = Some (File i) ->
  parseOpf (validate (content i)) = Some m ->
  exists files t f' j',
    readSourceFiles content validate inDir fs = (Returned files, fs, t)
    /\ (((inDir ++ js "/" ++ a) ++ js "/" ++ b) ++ js "/" ++ f', m) ∈ files
    /\ fs !! kapp (path_key inDir) [a; b; f'] = Some (File j')
    /\ ends_with (js ".epub") f' = true.
Proof.
  intros Hready Ha Hb Hf Hepub Hopf Hm.
  pose proof Hready as (Hne & _ & Hnames & _).
  destruct (readSourceFiles_run content validate inDir fs Hready)
    as (files & t & Hrun & Hquiet & Hspec).
  apply is_dir_true in Ha as [na Ha]. apply is_dir_true in Hb as [nb Hb].
  set (af := {| d_name := a; d_isDirectory := true; d_isFile := false |}).
  set (bf := {| d_name := b; d_isDirectory := true; d_isFile := false |}).
  assert (Haf : af ∈ children fs (path_key inDir)).
  { apply elem_of_children. simpl. eauto. }
  assert (Hbf : bf ∈ children fs (kapp (path_key inDir) [a])).
  { apply elem_of_children. simpl. rewrite kapp_app. eauto. }
  destruct (find_exists is_epub (children fs (kapp (path_key inDir) [a; b]))
              {| d_name := f; d_isDirectory := false; d_isFile := true |})
    as [ep Hep].
  { apply elem_of_children. simpl. rewrite kapp_app. eauto. }
  { unfold is_epub. simpl. done. }
  destruct (find_exists is_opf (children fs (kapp (path_key inDir) [a; b]))
              {| d_name := js "metadata.opf"; d_isDirectory := false;
                 d_isFile := true |})
    as [op Hop].
  { apply elem_of_children. simpl. rewrite kapp_app. eauto. }
  { unfold is_opf. cbn [d_isFile d_name andb]. by apply bool_decide_eq_true. }
  pose proof (find_spec _ _ _ Hep) as [Hepin Hepis].
  pose proof (find_spec _ _ _ Hop) as [_ Hopis].
  apply elem_of_children in Hepin as (nd & Hnd & _ & Hfile).
  unfold is_epub in Hepis. apply andb_prop in Hepis as [Hefile Heepub].
  rewrite Hefile in Hfile. destruct nd as [j'|]; [|done].
  unfold is_opf in Hopis. apply andb_prop in Hopis as [_ Honame].
  apply bool_decide_eq_true in Honame.
  rewrite kapp_app in Hnd. cbn [app] in Hnd.
  exists files, t, (d_name ep), j'. split; [done|]. split; [|done].
  apply Hspec. exists af, bf. split; [done|]. split; [done|]. split; [done|].
  exists ep, op, i. subst af bf. cbn [d_name d_isDirectory fst snd].
  rewrite !kapp_app. cbn [app]. rewrite Honame. done.
Qed.

End SourceProperties.

(** ** One entry for a book folder *)


Section SourceFolders.
Variable content : N -> list N.
Variable validate : list N -> option PackageMetadata.




End SourceFolders.

Lemma readSourceFiles_sound_witness :
  exists files t,
    readSourceFiles catalogue_content catalogue_validate (js "/in") catalogued_fs
    = (Returned files, catalogued_fs, t)
    /\ changes t = []
    /\ forall e, e ∈ files ->
         source_entry catalogue_content catalogue_validate (js "/in")
           catalogued_fs e.
Proof.
  apply readSourceFiles_sound. apply target_readyb_sound. vm_compute. reflexivity.
Defined.

Lemma readSourceFiles_complete_witness :
  exists files t f' j',
    readSourceFiles catalogue_content catalogue_validate (js "/in") catalogued_fs
    = (Returned files, catalogued_fs, t)
    /\ (((js "/in" ++ js "/" ++ js "Jane Doe") ++ js "/" ++ js "A Book")
          ++ js "/" ++ f',
        extractMetadata (book_document "A Book")) ∈ files
    /\ catalogued_fs
         !! kapp (path_key (js "/in")) [js "Jane Doe"; js "A Book"; f']
       = Some (File j')
    /\ ends_with (js ".epub") f' = true.
Proof.
  apply (readSourceFiles_complete catalogue_content catalogue_validate
           (js "/in") catalogued_fs (js "Jane Doe") (js "A Book")
           (js "A Book (2).epub") 11 15).
  - apply target_readyb_sound. vm_compute. reflexivity.
  - vm_compute. reflexivity.
  - vm_compute. reflexivity.
  - vm_compute. reflexivity.
  - vm_compute. reflexivity.
  - vm_compute. reflexivity.
  - vm_compute. reflexivity.
Defined.


(** ** The pass as [main] runs it *)

Lemma prefix_of_app_total {A} (l l1 l2 : list A) :
  l `prefix_of` l1 ++ l2 -> l `prefix_of` l1 \/ l1 `prefix_of` l.
Proof.
  intros H. apply (prefix_weak_total l l1 (l1 ++ l2)); [done|].
  by apply prefix_app_r.
Qed.

Lemma apart_not_under inDir outDir names :
  apart inDir outDir ->
  ~ under (path_key outDir) (kapp (path_key inDir) names).
Proof.
  intros [H1 H2] [Ha Hp]. unfold kapp in *. cbn [fst snd] in *.
  destruct (prefix_of_app_total _ _ _ Hp) as [H|H].
  - by apply H1.
  - by apply H2.
Qed.

Section MainPass.
Variable content : N -> list N.
Variable validate : list N -> option PackageMetadata.

Lemma source_entries_ready inDir outDir files fs :
  apart inDir outDir ->
  (forall e, e ∈ files -> source_entry content validate inDir fs e) ->
  sources_ready outDir files fs.
Proof.
  intros Hapart Hfiles src m Hin.
  destruct (Hfiles _ Hin) as (a & b & f & i & j & _ & Hkey & _ & _ & Hj & _).
  cbn [fst] in Hkey. rewrite Hkey. split; [by apply apart_not_under|eauto].
Qed.

(** What [main] does is a pass of [syncFiles] over the entries found by
    [readSourceFiles]. *)
Lemma main_run inDir outDir fs files t0 :
  readSourceFiles content validate inDir fs = (Returned files, fs, t0) ->
  main content validate inDir outDir fs
  = (Returned tt, fs_after (syncFiles outDir files fs),
     t0 ++ calls_of (syncFiles outDir files fs)).
Proof.
  intros Hrun. unfold main, try_catch, syncFiles_scanned.
  rewrite run_bind, Hrun. unfold fs_after, calls_of.
  destruct (syncFiles outDir files fs) as [[[[]|] fs2] t2];
    cbn [fst snd mret IO_ret]; by rewrite ?app_nil_r.
Qed.

(** [main] never throws. On a well-formed source tree it runs one pass of
    [syncFiles] over the entries that [readSourceFiles] finds, the scan
    itself changing nothing; and when neither root lies in the tree of the
    other, these entries name regular files outside the target tree. *)
Theorem main_runs_syncFiles inDir outDir fs :
  target_ready inDir fs ->
  exists files t0,
    readSourceFiles content validate inDir fs = (Returned files, fs, t0)
    /\ changes t0 = []
    /\ (forall e, e ∈ files -> source_entry content validate inDir fs e)
    /\ main content validate inDir outDir fs
       = (Returned tt, fs_after (syncFiles outDir files fs),
          t0 ++ calls_of (syncFiles outDir files fs))
    /\ changes (calls_of (main content validate inDir outDir fs))
       = changes (calls_of (syncFiles outDir files fs))
    /\ (apart inDir outDir -> sources_ready outDir files fs).
Proof.
  intros Hready.
  destruct (readSourceFiles_run content validate inDir fs Hready)
    as (files & t0 & Hrun & Hquiet & Hspec).
  assert (Hsound : forall e, e ∈ files ->
            source_entry content validate inDir fs e).
  { intros e (af & bf & Haf & Hd & Hbf & He)%Hspec.
    by eapply book_entry_source. }
  exists files, t0. split; [done|]. split; [done|]. split; [done|].
  pose proof (main_run inDir outDir fs files t0 Hrun) as Hmain.
  split; [done|]. split.
  - rewrite Hmain. unfold calls_of at 1. cbn [snd].
    by rewrite changes_app, Hquiet.
  - intros Hapart. by apply (source_entries_ready inDir outDir).
Qed.

(** [main] leaves the source library alone: on well-formed trees of which
    neither lies in the other, every entry outside the target tree is
    after [main] what it was before, and no directory is removed. *)
Theorem main_keeps_library inDir outDir fs :
  target_ready inDir fs -> target_ready outDir fs -> apart inDir outDir ->
  (forall k, ~ under (path_key outDir) k ->
     fs_after (main content validate inDir outDir fs) !! k = fs !! k)
  /\ (forall k, is_dir fs k = true ->
        is_dir (fs_after (main content validate inDir outDir fs)) k = true).
Proof.
  intros Hin Hout Hapart.
  destruct (readSourceFiles_run content validate inDir fs Hin)
    as (files & t0 & Hrun & Hquiet & Hspec).
  assert (Hsources : sources_ready outDir files fs).
  { apply (source_entries_ready inDir outDir); [done|].
    intros e (af & bf & Haf & Hd & Hbf & He)%Hspec.
    by eapply book_entry_source. }
  rewrite (main_run inDir outDir fs files t0 Hrun).
  unfold fs_after at 1 3. cbn [fst snd].
  destruct (syncFiles_keeps outDir files fs Hout Hsources)
    as (_ & Hframe & Hdirs & _).
  split; [done|]. by apply is_dir_kept.
Qed.

(** Without a directory at the source root, or at the target root, [main]
    returns after the failed [readdir]: nothing is linked and nothing is
    removed. *)
Theorem main_missing_root inDir outDir fs :
  is_dir fs (path_key inDir) = false
  \/ (target_ready inDir fs /\ is_dir fs (path_key outDir) = false) ->
  exists t,
    main content validate inDir outDir fs = (Returned tt, fs, t)
    /\ changes t = [].
Proof.
  intros [Hno|[Hin Hno]].
  - exists [(Readdir inDir, false)]. split; [|done].
    unfold main, try_catch, syncFiles_scanned, readSourceFiles.
    rewrite !run_bind. unfold readdir at 1. by rewrite Hno.
  - destruct (readSourceFiles_run content validate inDir fs Hin)
      as (files & t0 & Hrun & Hquiet & _).
    exists (t0 ++ [(Readdir outDir, false)]).
    rewrite (main_run inDir outDir fs files t0 Hrun).
    unfold syncFiles, fs_after, calls_of. rewrite run_bind.
    rewrite (getFilesInTargetDir_no_root outDir fs Hno). cbn [fst snd].
    split; [done|]. by rewrite changes_app, Hquiet.
Qed.

End MainPass.

Lemma main_runs_syncFiles_witness :
  exists files t0,
    readSourceFiles catalogue_content catalogue_validate (js "/in") catalogued_fs
    = (Returned files, catalogued_fs, t0)
    /\ main catalogue_content catalogue_validate (js "/in") (js "/out")
         catalogued_fs
       = (Returned tt, fs_after (syncFiles (js "/out") files catalogued_fs),
          t0 ++ calls_of (syncFiles (js "/out") files catalogued_fs)).
Proof.
  destruct (main_runs_syncFiles catalogue_content catalogue_validate
              (js "/in") (js "/out") catalogued_fs)
    as (files & t0 & Hrun & _ & _ & Hmain & _).
  - apply target_readyb_sound. vm_compute. reflexivity.
  - exists files, t0. split; [exact Hrun|exact Hmain].
Defined.

Lemma main_keeps_library_witness :
  (forall k, ~ under (path_key (js "/out")) k ->
     fs_after (main catalogue_content catalogue_validate (js "/in") (js "/out")
                 catalogued_fs) !! k
     = catalogued_fs !! k)
  /\ (forall k, is_dir catalogued_fs k = true ->
        is_dir (fs_after (main catalogue_content catalogue_validate (js "/in")
                            (js "/out") catalogued_fs)) k = true).
Proof.
  apply (main_keeps_library catalogue_content catalogue_validate
           (js "/in") (js "/out") catalogued_fs).
  - apply target_readyb_sound. vm_compute. reflexivity.
  - apply target_readyb_sound. vm_compute. reflexivity.
  - split; apply (bool_decide_unpack _); vm_compute; exact I.
Defined.

Lemma main_missing_root_witness :
  exists t,
    main catalogue_content catalogue_validate (js "/in") (js "/mirror")
      catalogued_fs
    = (Returned tt, catalogued_fs, t)
    /\ changes t = [].
Proof.
  apply main_missing_root. right. split.
  - apply target_readyb_sound. vm_compute. reflexivity.
  - vm_compute. reflexivity.
Defined.

(** ** The startup checks *)

Lemma stat_or_null_run p fs :
  exists t,
    stat_or_null p fs = (Returned (node_stats fs <$> fs !! path_key p), fs, t).
Proof.
  unfold stat_or_null, try_catch. rewrite run_bind. unfold stat.
  destruct (fs !! path_key p); cbn; eauto.
Qed.

Lemma not_a_directory_stats fs k :
  not_a_directory (node_stats fs <$> fs !! k) = negb (is_dir fs k).
Proof. unfold is_dir. by destruct (fs !! k) as [[]|]. Qed.

Lemma test_link_key (p : list N) :
  p <> [] ->
  path_key (p ++ js "/test-link") = kapp (path_key p) [js "test-link"].
Proof.
  intros Hp. change (js "/test-link") with (js "/" ++ js "test-link").
  by rewrite path_key_join.
Qed.

Lemma kapp_same_names (k k' : key) names :
  kapp k names = kapp k' names -> k = k'.
Proof.
  destruct k as [a cs], k' as [a' cs']. unfold kapp. cbn [fst snd].
  intros [= -> E]. apply app_inv_tail in E. by subst.
Qed.

Section StartupProps.
Variable new_ino : N.

(** Where the directory of the file exists, [Bun.write] makes no
    directory. *)
Lemma write_file_run p fs :
  target_ready p fs ->
  write_file new_ino (p ++ js "/test-link") fs
  = match fs !! kapp (path_key p) [js "test-link"] with
    | Some (File _) => (Returned tt, fs, [])
    | Some (Dir _) => (Thrown, fs, [])
    | None =>
        (Returned tt, <[kapp (path_key p) [js "test-link"] := File new_ino]> fs, [])
    end.
Proof.
  intros Hready. pose proof Hready as (Hne & _).
  unfold write_file. rewrite (test_link_key p Hne).
  destruct (fs !! kapp (path_key p) [js "test-link"]) as [[j|n]|]; try done.
  change (kapp (path_key p) [js "test-link"]).1 with (path_key p).1.
  change (kapp (path_key p) [js "test-link"]).2
    with ((path_key p).2 ++ [js "test-link"]).
  rewrite removelast_last.
  pose proof (mkdirs_below_root p fs [] Hready) as Hmk.
  rewrite app_nil_r in Hmk. by rewrite Hmk.
Qed.


(** The checks before the probe. *)
Lemma check_env_probe (inD outD : list N) fs :
  inD <> [] -> outD <> [] ->
  is_dir fs (path_key inD) = true -> is_dir fs (path_key outD) = true ->
  exists t0,
    check_env new_ino (Some inD) (Some outD) fs
    = let '(r, fs', t) :=
        try_catch
          (write_file new_ino (inD ++ js "/test-link");;
           link (inD ++ js "/test-link") (outD ++ js "/test-link");;
           unlink (inD ++ js "/test-link");;
           unlink (outD ++ js "/test-link");;
           mret (Exported inD outD))
          (ignoring_errors (unlink (inD ++ js "/test-link"));;
           ignoring_errors (unlink (outD ++ js "/test-link"));;
           mret (Exited 1)) fs in
      (r, fs', t0 ++ t).
Proof.
  intros Hi Ho Ei Eo. unfold check_env.
  destruct inD as [|c inD]; [done|]. destruct outD as [|c' outD]; [done|].
  cbn [truthy negb orb default from_option]. unfold Datatypes.id. cbv zeta.
  destruct (stat_or_null_run (c :: inD) fs) as [t1 Hs1].
  destruct (stat_or_null_run (c' :: outD) fs) as [t2 Hs2].
  exists (t1 ++ t2).
  rewrite run_bind, Hs1, not_a_directory_stats, Ei. cbn [negb].
  rewrite run_bind, Hs2, not_a_directory_stats, Eo. cbn [negb].
  destruct (try_catch _ _ fs) as [[r fs'] t]. by rewrite (assoc_L (++)).
Qed.

Lemma check_env_refused S T fs :
  (forall inD outD : list N, S = Some inD -> T = Some outD ->
     inD <> [] -> outD <> [] ->
     is_dir fs (path_key inD) = true -> is_dir fs (path_key outD) = false) ->
  exists t0, check_env new_ino S T fs = (Returned (Exited 1), fs, t0).
Proof.
  intros Hbad. unfold check_env.
  destruct S as [[|c inD]|]; [by eexists| |by eexists].
  destruct T as [[|c' outD]|]; [by eexists| |by eexists].
  cbn [truthy negb orb default from_option]. unfold Datatypes.id. cbv zeta.
  destruct (stat_or_null_run (c :: inD) fs) as [t1 Hs1].
  destruct (stat_or_null_run (c' :: outD) fs) as [t2 Hs2].
  destruct (is_dir fs (path_key (c :: inD))) eqn:Ei.
  - exists (t1 ++ t2 ++ []).
    rewrite run_bind, Hs1, not_a_directory_stats, Ei. cbn [negb].
    rewrite run_bind, Hs2, not_a_directory_stats.
    by rewrite (Hbad (c :: inD) (c' :: outD)).
  - exists (t1 ++ []).
    by rewrite run_bind, Hs1, not_a_directory_stats, Ei.
Qed.


(** The four calls of the probe. *)
Lemma probe_run (inD outD : list N) fs :
  target_ready inD fs -> target_ready outD fs ->
  (write_file new_ino (inD ++ js "/test-link");;
   link (inD ++ js "/test-link") (outD ++ js "/test-link");;
   unlink (inD ++ js "/test-link");;
   unlink (outD ++ js "/test-link");;
   mret (Exported inD outD)) fs
  = match fs !! kapp (path_key inD) [js "test-link"] with
    | Some (Dir _) => (Thrown, fs, [])
    | other =>
        let fs1 := match other with
                   | None => <[kapp (path_key inD) [js "test-link"]
                                 := File new_ino]> fs
                   | _ => fs
                   end in
        if bool_decide (fs1 !! kapp (path_key outD) [js "test-link"] = None)
        then (Returned (Exported inD outD),
              delete (kapp (path_key inD) [js "test-link"]) fs,
              [(Link (inD ++ js "/test-link") (outD ++ js "/test-link"), true);
               (Unlink (inD ++ js "/test-link"), true);
               (Unlink (outD ++ js "/test-link"), true)])
        else (Thrown, fs1,
              [(Link (inD ++ js "/test-link") (outD ++ js "/test-link"),
                false)])
    end.
Proof.
  intros Hin Hout.
  pose proof Hin as (Hine & _). pose proof Hout as (Houte & _ & _ & Hodir).
  rewrite run_bind, (write_file_run inD fs Hin).
  set (sk := kapp (path_key inD) [js "test-link"]).
  set (tk := kapp (path_key outD) [js "test-link"]).
  assert (Hlink : forall fs1 x,
            fs1 !! sk = Some (File x) ->
            is_dir fs1 (path_key outD) = true ->
            delete sk fs1 = delete sk fs ->
            (link (inD ++ js "/test-link") (outD ++ js "/test-link");;
             unlink (inD ++ js "/test-link");;
             unlink (outD ++ js "/test-link");;
             mret (Exported inD outD)) fs1
            = if bool_decide (fs1 !! tk = None)
              then (Returned (Exported inD outD), delete sk fs,
                    [(Link (inD ++ js "/test-link") (outD ++ js "/test-link"), true);
                     (Unlink (inD ++ js "/test-link"), true);
                     (Unlink (outD ++ js "/test-link"), true)])
              else (Thrown, fs1,
                    [(Link (inD ++ js "/test-link") (outD ++ js "/test-link"),
                      false)])).
  { intros fs1 x Hsk Hdir Hsame.
    rewrite run_bind. unfold link at 1.
    rewrite !test_link_key by done. fold sk tk. rewrite Hsk.
    case_bool_decide as Htk.
    - rewrite Htk.
      assert (Hparent : parent tk = path_key outD) by apply parent_kapp.
      assert (Hpd : is_dir fs1 (parent tk) = true) by (by rewrite Hparent).
      rewrite Hpd.
      assert (Hne : sk <> tk) by congruence.
      rewrite run_bind. unfold unlink at 1.
      rewrite !test_link_key by done. fold sk tk.
      rewrite lookup_insert_ne, Hsk by done.
      rewrite run_bind. unfold unlink at 1.
      rewrite !test_link_key by done. fold sk tk.
      rewrite lookup_delete_ne, lookup_insert_eq by done.
      cbn [mret IO_ret app]. f_equal. f_equal.
      rewrite <- Hsame. apply map_eq. intros k.
      destruct (decide (k = tk)) as [->|Hk].
      + by rewrite lookup_delete_eq, lookup_delete_ne, Htk.
      + rewrite lookup_delete_ne by done.
        destruct (decide (k = sk)) as [->|Hk'].
        * by rewrite !lookup_delete_eq.
        * by rewrite !lookup_delete_ne, lookup_insert_ne.
    - by destruct (fs1 !! tk). }
  destruct (fs !! sk) as [[x|n]|] eqn:Esk; cbv zeta.
  - rewrite (Hlink fs x); try done. by case_bool_decide.
  - done.
  - rewrite (Hlink (<[sk := File new_ino]> fs) new_ino).
    + by case_bool_decide.
    + apply lookup_insert_eq.
    + rewrite is_dir_insert_ne; [done|]. intros E.
      apply is_dir_true in Hodir as [n Hn]. rewrite <- E in Hn. congruence.
    + rewrite delete_insert_eq. done.
Qed.


(** The handler of a failed probe removes what regular files there are
    under the two names and nothing else. *)
Lemma cleanup_run (sp tp : list N) (code : nat) fs1 :
  exists fs3 t,
    (ignoring_errors (unlink sp);;
     ignoring_errors (unlink tp);;
     mret (Exited code)) fs1
    = (Returned (Exited code), fs3, t)
    /\ (forall j, fs3 !! path_key sp <> Some (File j))
    /\ (forall j, fs3 !! path_key tp <> Some (File j))
    /\ (forall k, k <> path_key sp -> k <> path_key tp -> fs3 !! k = fs1 !! k)
    /\ (forall k nd, fs3 !! k = Some nd -> fs1 !! k = Some nd).
Proof.
  assert (Hone : forall (p : list N) fs,
            exists fs' t,
              ignoring_errors (unlink p) fs = (Returned tt, fs', t)
              /\ (forall j, fs' !! path_key p <> Some (File j))
              /\ (forall k, k <> path_key p -> fs' !! k = fs !! k)
              /\ (forall k nd, fs' !! k = Some nd -> fs !! k = Some nd)).
  { intros p fs. unfold ignoring_errors, try_catch, unlink.
    destruct (fs !! path_key p) as [[j|n]|] eqn:E; eexists _, _;
      (split; [done|]); (split; [|split]); try done; try congruence.
    - intros j'. by rewrite lookup_delete_eq.
    - intros k Hk. by rewrite lookup_delete_ne.
    - intros k nd Hk. destruct (decide (k = path_key p)) as [->|Hne].
      + by rewrite lookup_delete_eq in Hk.
      + by rewrite lookup_delete_ne in Hk. }
  destruct (Hone sp fs1) as (fs2 & t2 & Hrun2 & Hs2 & Hf2 & Hold2).
  destruct (Hone tp fs2) as (fs3 & t3 & Hrun3 & Ht3 & Hf3 & Hold3).
  exists fs3, (t2 ++ t3 ++ []). rewrite run_bind, Hrun2, run_bind, Hrun3.
  split; [done|]. split; [|split; [done|split]].
  - intros j Hj. apply Hold3 in Hj. by apply (Hs2 j).
  - intros k Hks Hkt. by rewrite Hf3, Hf2.
  - intros k nd Hk. by apply Hold2, Hold3.
Qed.

(** The module on two existing directories. *)
Lemma check_env_ready (inD outD : list N) fs :
  target_ready inD fs -> target_ready outD fs ->
  exists r fs' t,
    check_env new_ino (Some inD) (Some outD) fs = (Returned r, fs', t)
    /\ (forall j, fs' !! kapp (path_key inD) [js "test-link"] <> Some (File j))
    /\ (forall j, fs' !! kapp (path_key outD) [js "test-link"] <> Some (File j))
    /\ (forall k, k <> kapp (path_key inD) [js "test-link"] ->
                  k <> kapp (path_key outD) [js "test-link"] ->
                  fs' !! k = fs !! k)
    /\ (r = Exported inD outD /\ fs' = delete (kapp (path_key inD) [js "test-link"]) fs
        /\ (forall n, fs !! kapp (path_key inD) [js "test-link"] <> Some (Dir n))
        /\ fs !! kapp (path_key outD) [js "test-link"] = None
        /\ kapp (path_key inD) [js "test-link"]
           <> kapp (path_key outD) [js "test-link"]
        \/ r = Exited 1
           /\ ((exists n, fs !! kapp (path_key inD) [js "test-link"] = Some (Dir n))
               \/ fs !! kapp (path_key outD) [js "test-link"] <> None
               \/ kapp (path_key inD) [js "test-link"]
                  = kapp (path_key outD) [js "test-link"])).
Proof.
  intros Hin Hout.
  pose proof Hin as (Hine & _ & _ & Hidir).
  pose proof Hout as (Houte & _ & _ & Hodir).
  destruct (check_env_probe inD outD fs Hine Houte Hidir Hodir) as [t0 ->].
  unfold try_catch at 1. rewrite (probe_run inD outD fs Hin Hout).
  set (sk := kapp (path_key inD) [js "test-link"]).
  set (tk := kapp (path_key outD) [js "test-link"]).
  assert (Hfail : forall fs1 t1,
            (forall k, k <> sk -> fs1 !! k = fs !! k) ->
            (exists n, fs !! sk = Some (Dir n)) \/ fs !! tk <> None \/ sk = tk ->
            exists r fs' t,
              (let '(r, fs', t) :=
                 let '(r, fs2, t2) :=
                   (ignoring_errors (unlink (inD ++ js "/test-link"));;
                    ignoring_errors (unlink (outD ++ js "/test-link"));;
                    mret (Exited 1)) fs1 in
                 (r, fs2, t1 ++ t2) in
               (r, fs', t0 ++ t)) = (Returned r, fs', t)
              /\ (forall j, fs' !! sk <> Some (File j))
              /\ (forall j, fs' !! tk <> Some (File j))
              /\ (forall k, k <> sk -> k <> tk -> fs' !! k = fs !! k)
              /\ (r = Exported inD outD /\ fs' = delete sk fs
                  /\ (forall n, fs !! sk <> Some (Dir n))
                  /\ fs !! tk = None /\ sk <> tk
                  \/ r = Exited 1
                     /\ ((exists n, fs !! sk = Some (Dir n))
                         \/ fs !! tk <> None \/ sk = tk))).
  { intros fs1 t1 Hsame Hwhy.
    destruct (cleanup_run (inD ++ js "/test-link") (outD ++ js "/test-link")
                1 fs1) as (fs3 & t & -> & Hs & Ht & Hframe & _).
    rewrite (test_link_key inD Hine) in Hs.
    rewrite (test_link_key outD Houte) in Ht.
    assert (Hframe' : forall k, k <> sk -> k <> tk -> fs3 !! k = fs1 !! k).
    { intros k Hks Hkt. apply Hframe; by rewrite test_link_key. }
    clear Hframe. rename Hframe' into Hframe.
    fold sk tk in Hs, Ht, Hframe.
    eexists _, _, _. split; [done|]. split; [done|]. split; [done|].
    split; [|by right].
    intros k Hks Hkt. rewrite Hframe by done. by apply Hsame. }
  destruct (fs !! sk) as [[x|n]|] eqn:Esk; cbv zeta.
  - case_bool_decide as Htk.
    + eexists _, _, _. split; [done|].
      assert (Hne : sk <> tk) by congruence.
      split; [|split; [|split]].
      * intros j. by rewrite lookup_delete_eq.
      * intros j. rewrite lookup_delete_ne by done. congruence.
      * intros k Hks Hkt. by rewrite lookup_delete_ne.
      * left. repeat split; try done.
    + apply Hfail; [done|]. right. by left.
  - apply Hfail; [done|]. left. eauto.
  - case_bool_decide as Htk.
    + eexists _, _, _. split; [done|].
      assert (Hne : sk <> tk).
      { intros E. rewrite <- E, lookup_insert_eq in Htk. done. }
      rewrite lookup_insert_ne in Htk by done.
      split; [|split; [|split]].
      * intros j. by rewrite lookup_delete_eq.
      * intros j. rewrite lookup_delete_ne by done. congruence.
      * intros k Hks Hkt. by rewrite lookup_delete_ne.
      * left. repeat split; try done.
    + apply Hfail.
      * intros k Hk. by rewrite lookup_insert_ne.
      * destruct (decide (sk = tk)) as [E|Hne]; [by right; right|].
        right. left. by rewrite lookup_insert_ne in Htk.
Qed.


(** When the module exports the two directories, both variables were set
    to existing directories, no [test-link] was in the target directory,
    and the probe has cleaned up after itself: the file system is the one
    from before, except that a regular file [test-link] that was in the
    source directory is gone. *)
Theorem check_env_exported S T fs (inD outD : list N) :
  closed fs -> names_ok fs ->
  (check_env new_ino S T fs).1.1 = Returned (Exported inD outD) ->
  S = Some inD /\ T = Some outD /\ inD <> [] /\ outD <> []
  /\ is_dir fs (path_key inD) = true /\ is_dir fs (path_key outD) = true
  /\ fs !! kapp (path_key outD) [js "test-link"] = None
  /\ fs_after (check_env new_ino S T fs)
     = delete (kapp (path_key inD) [js "test-link"]) fs.
Proof.
  intros Hclosed Hnames Hrun.
  assert (Hno : forall t0, check_env new_ino S T fs
                           <> (Returned (Exited 1), fs, t0)).
  { intros t0 E. rewrite E in Hrun. done. }
  destruct S as [a|]; cycle 1.
  { destruct (check_env_refused None T fs) as [t0 E]; [done|].
    by destruct (Hno t0). }
  destruct T as [b|]; cycle 1.
  { destruct (check_env_refused (Some a) None fs) as [t0 E]; [done|].
    by destruct (Hno t0). }
  destruct (decide (a <> [] /\ b <> []
                    /\ is_dir fs (path_key a) = true
                    /\ is_dir fs (path_key b) = true))
    as [(Ha & Hb & Hadir & Hbdir)|Hbad].
  - destruct (check_env_ready a b fs) as (r & fs' & t & Hrun' & _ & _ & _ & Hr);
      [done..|].
    rewrite Hrun' in Hrun. cbn [fst] in Hrun. injection Hrun as ->.
    destruct Hr as [([= <- <-] & -> & _ & Htk & _)|[[=] _]].
    rewrite Hrun'. by repeat split.
  - destruct (check_env_refused (Some a) (Some b) fs) as [t0 Hrun'].
    + intros a' b' [= <-] [= <-] Ha Hb Hadir.
      destruct (is_dir fs (path_key b)) eqn:Hbdir; [|done].
      by destruct Hbad.
    + by destruct (Hno t0).
Qed.

(** Once both directories exist, the module leaves no regular file
    [test-link] in either of them, however it ends, and changes nothing
    else: a file of this name that was there before is removed. *)
Theorem check_env_cleans_up (inD outD : list N) fs :
  target_ready inD fs -> target_ready outD fs ->
  exists r fs' t,
    check_env new_ino (Some inD) (Some outD) fs = (Returned r, fs', t)
    /\ (r = Exported inD outD \/ r = Exited 1)
    /\ (forall j, fs' !! kapp (path_key inD) [js "test-link"] <> Some (File j))
    /\ (forall j, fs' !! kapp (path_key outD) [js "test-link"] <> Some (File j))
    /\ (forall k, k <> kapp (path_key inD) [js "test-link"] ->
                  k <> kapp (path_key outD) [js "test-link"] ->
                  fs' !! k = fs !! k).
Proof.
  intros Hin Hout.
  destruct (check_env_ready inD outD fs Hin Hout)
    as (r & fs' & t & Hrun & Hs & Ht & Hframe & Hr).
  exists r, fs', t. repeat (split; [done|]). split; [|done].
  destruct Hr as [(-> & _)|(-> & _)]; by eauto.
Qed.

(** With both variables naming the same directory the module exits. *)
Theorem check_env_same_directory (inD outD : list N) fs :
  closed fs -> names_ok fs ->
  path_key inD = path_key outD ->
  exists fs' t,
    check_env new_ino (Some inD) (Some outD) fs = (Returned (Exited 1), fs', t).
Proof.
  intros Hclosed Hnames Hsame.
  destruct (decide (inD <> [] /\ outD <> []
                    /\ is_dir fs (path_key inD) = true
                    /\ is_dir fs (path_key outD) = true))
    as [(Ha & Hb & Hadir & Hbdir)|Hbad].
  - destruct (check_env_ready inD outD fs) as (r & fs' & t & Hrun & _ & _ & _ & Hr);
      [done..|].
    exists fs', t. rewrite Hrun.
    destruct Hr as [(_ & _ & _ & _ & Hne)|[-> _]]; [|done].
    destruct Hne. by rewrite Hsame.
  - destruct (check_env_refused (Some inD) (Some outD) fs) as [t0 Hrun].
    + intros a b [= <-] [= <-] Ha Hb Hadir.
      destruct (is_dir fs (path_key outD)) eqn:Hbdir; [|done].
      by destruct Hbad.
    + by exists fs, t0.
Qed.

End StartupProps.

Lemma check_env_exported_witness :
  fs_after (check_env 99 (Some (js "/in")) (Some (js "/out")) catalogued_fs)
  = delete (kapp (path_key (js "/in")) [js "test-link"]) catalogued_fs.
Proof.
  apply (check_env_exported 99 (Some (js "/in")) (Some (js "/out"))
           catalogued_fs (js "/in") (js "/out")).
  - apply closedb_sound. vm_compute. reflexivity.
  - apply names_okb_sound. vm_compute. reflexivity.
  - vm_compute. reflexivity.
Defined.

Lemma check_env_cleans_up_witness :
  exists r fs' t,
    check_env 99 (Some (js "/in")) (Some (js "/out/Old")) mirrored_fs
    = (Returned r, fs', t)
    /\ (r = Exported (js "/in") (js "/out/Old") \/ r = Exited 1)
    /\ (forall j, fs' !! kapp (path_key (js "/in")) [js "test-link"]
                  <> Some (File j))
    /\ (forall j, fs' !! kapp (path_key (js "/out/Old")) [js "test-link"]
                  <> Some (File j))
    /\ (forall k, k <> kapp (path_key (js "/in")) [js "test-link"] ->
                  k <> kapp (path_key (js "/out/Old")) [js "test-link"] ->
                  fs' !! k = mirrored_fs !! k).
Proof.
  apply check_env_cleans_up.
  - apply target_readyb_sound. vm_compute. reflexivity.
  - apply target_readyb_sound. vm_compute. reflexivity.
Defined.

Lemma check_env_same_directory_witness :
  exists fs' t,
    check_env 99 (Some (js "/in")) (Some (js "/in/")) catalogued_fs
    = (Returned (Exited 1), fs', t).
Proof.
  apply check_env_same_directory.
  - apply closedb_sound. vm_compute. reflexivity.
  - apply names_okb_sound. vm_compute. reflexivity.
  - vm_compute. reflexivity.
Defined.

(** ** The watcher *)

Lemma starts_with_prefix (p a b : list N) :
  starts_with p a = true -> starts_with p (a ++ b) = true.
Proof.
  revert a. induction p as [|c p IH]; intros a H; [done|].
  destruct a as [|c' a]; [done|]. cbn [app starts_with] in *.
  apply andb_prop in H as [-> H]. by rewrite (IH a H).
Qed.

Lemma ends_with_suffix (s a b : list N) :
  ends_with s b = true -> ends_with s (a ++ b) = true.
Proof.
  unfold ends_with. rewrite rev_app_distr. apply starts_with_prefix.
Qed.

Lemma epub_not_opf (name : list N) :
  ends_with (js ".epub") name = true -> ends_with (js ".opf") name = false.
Proof.
  unfold ends_with. destruct (rev name) as [|c r]; [done|].
  change (rev (js ".epub")) with (98 :: rev (js ".epu")).
  change (rev (js ".opf")) with (102 :: rev (js ".op")).
  cbn [starts_with]. intros [Hc _]%andb_prop.
  apply N.eqb_eq in Hc as <-. done.
Qed.

Section WatcherProps.
Variable content : N -> list N.
Variable validate : list N -> option PackageMetadata.

(** The watcher reacts to what the scanner reads: for every source entry
    [sourceRoot/a/b/f], an event of any type on [a/b/metadata.opf] and a
    [rename] event on [a/b/f] run [main]; a [change] event on [a/b/f] (the
    e-book file rewritten in place) does not, and neither does an event
    without a file name. *)
Theorem watcher_follows_sources (inDir outDir : list N) fs
    (e : list N * OpfMetadata) :
  source_entry content validate inDir fs e ->
  exists a b f : list N,
    e.1 = ((inDir ++ js "/" ++ a) ++ js "/" ++ b) ++ js "/" ++ f
    /\ (forall eventType,
          on_event content validate inDir outDir eventType
            (Some (a ++ js "/" ++ b ++ js "/" ++ js "metadata.opf"))
          = main content validate inDir outDir)
    /\ on_event content validate inDir outDir (js "rename")
         (Some (a ++ js "/" ++ b ++ js "/" ++ f))
       = main content validate inDir outDir
    /\ on_event content validate inDir outDir (js "change")
         (Some (a ++ js "/" ++ b ++ js "/" ++ f))
       = mret tt
    /\ (forall eventType,
          on_event content validate inDir outDir eventType None = mret tt).
Proof.
  intros (a & b & f & i & j & Hpath & _ & _ & _ & _ & Hepub & _).
  exists a, b, f. split; [done|].
  assert (Hlong : ends_with (js ".epub") (a ++ js "/" ++ b ++ js "/" ++ f) = true).
  { rewrite !(assoc_L (++)). by apply ends_with_suffix. }
  unfold on_event, triggers. split; [|split; [|split]].
  - intros ev.
    assert (ends_with (js ".opf")
              (a ++ js "/" ++ b ++ js "/" ++ js "metadata.opf") = true) as ->;
      [|done].
    rewrite !(assoc_L (++)). by apply ends_with_suffix.
  - rewrite Hlong, (epub_not_opf _ Hlong). by rewrite bool_decide_true.
  - rewrite (epub_not_opf _ Hlong). by rewrite bool_decide_false.
  - done.
Qed.

End WatcherProps.

Lemma watcher_follows_sources_witness :
  exists a b f : list N,
    js "/in/Jane Doe/A Book/A Book.epub"
    = ((js "/in" ++ js "/" ++ a) ++ js "/" ++ b) ++ js "/" ++ f
    /\ (forall eventType,
          on_event catalogue_content catalogue_validate (js "/in") (js "/out")
            eventType (Some (a ++ js "/" ++ b ++ js "/" ++ js "metadata.opf"))
          = main catalogue_content catalogue_validate (js "/in") (js "/out"))
    /\ on_event catalogue_content catalogue_validate (js "/in") (js "/out")
         (js "rename") (Some (a ++ js "/" ++ b ++ js "/" ++ f))
       = main catalogue_content catalogue_validate (js "/in") (js "/out")
    /\ on_event catalogue_content catalogue_validate (js "/in") (js "/out")
         (js "change") (Some (a ++ js "/" ++ b ++ js "/" ++ f))
       = mret tt
    /\ (forall eventType,
          on_event catalogue_content catalogue_validate (js "/in") (js "/out")
            eventType None = mret tt).
Proof.
  apply (watcher_follows_sources catalogue_content catalogue_validate
           (js "/in") (js "/out") catalogued_fs
           (js "/in/Jane Doe/A Book/A Book.epub",
            extractMetadata (book_document "A Book"))).
  exists (js "Jane Doe"), (js "A Book"), (js "A Book.epub"), 11, 1.
  repeat split; vm_compute; reflexivity.
Defined.

(** ** What a pass changes at one entry of the file system *)

Lemma changes_at_app k t t' :
  changes_at k (t ++ t') = changes_at k t ++ changes_at k t'.
Proof. apply List.filter_app. Qed.

Lemma changes_at_quiet k t : changes t = [] -> changes_at k t = [].
Proof.
  unfold changes, changes_at. induction t as [|e t IH]; [done|].
  cbn [List.filter]. destruct (is_change e); [done|]. exact IH.
Qed.

Lemma changes_at_other k e t :
  (forall p, changed_path e.1 = Some p -> path_key p <> k) ->
  changes_at k (e :: t) = changes_at k t.
Proof.
  intros Hne. unfold changes_at. cbn [List.filter].
  destruct (changed_path e.1) as [p|] eqn:E.
  - rewrite (bool_decide_eq_false_2 (path_key <$> Some p = Some k)).
    + by rewrite andb_false_r.
    + intros [= H]. by apply (Hne p).
  - rewrite bool_decide_eq_false_2 by done. by rewrite andb_false_r.
Qed.

Lemma prune_trace_quiet outDir unused fs k :
  (forall s, s ∈ unused -> path_key (prune_path outDir s) <> k) ->
  changes_at k (prune_trace outDir unused fs) = [].
Proof.
  revert fs. induction unused as [|s rest IH]; intros fs Hne; [done|].
  cbn [prune_trace]. rewrite changes_at_app, IH.
  - rewrite app_nil_r. destruct (unsafe_path (prune_path outDir s)); [done|].
    rewrite changes_at_other; [done|].
    intros p Hp. cbn [fst changed_path] in Hp.
    assert (E : prune_path outDir s = p) by congruence.
    rewrite <- E. apply Hne. by left.
  - intros s' Hs'. apply Hne. by right.
Qed.

(** A call of the linker makes its removal and its link at the target
    path only. *)
Lemma link_step_changes_at outDir source m fs r fs' t k :
  outDir <> [] ->
  link_step outDir source m fs r fs' t ->
  k <> target_key outDir (calculateTargetPath m).1 (calculateTargetPath m).2 ->
  changes_at k t = [].
Proof.
  intros Hne [(_ & _ & _ & ->)|[_ Hcase]] Hk; [done|].
  assert (Hkey : forall p,
            Some (outDir ++ js "/" ++ (calculateTargetPath m).1
                    ++ js "/" ++ (calculateTargetPath m).2) = Some p ->
            path_key p <> k).
  { intros p Hp. cbn [fst changed_path] in Hp.
    assert (E : outDir ++ js "/" ++ (calculateTargetPath m).1
                  ++ js "/" ++ (calculateTargetPath m).2 = p) by congruence.
    by rewrite <- E, target_key_path. }
  destruct Hcase; repeat (rewrite changes_at_other; [|try done; apply Hkey]);
    done.
Qed.

(** A target with two or more links is found and left as it is. *)
Lemma link_step_kept outDir source m fs r fs' t j :
  target_ready outDir fs ->
  ~ under (path_key outDir) (path_key source) ->
  link_step outDir source m fs r fs' t -> truthy (title m) = true ->
  fs !! target_key outDir (calculateTargetPath m).1 (calculateTargetPath m).2
  = Some (File j) ->
  (2 <= nlink fs j)%nat ->
  r = Some (rel_path m)
  /\ fs' !! target_key outDir (calculateTargetPath m).1 (calculateTargetPath m).2
     = Some (File j)
  /\ nlink fs' j = nlink fs j
  /\ changes t = [].
Proof.
  intros Hready Hout [(Hfalsy & _)|[_ Hcase]] Htitle Hk Hn; [congruence|].
  destruct (link_keys outDir source m Hout)
    as (Hd & Hf & Hchild & Htd & Hsk & Hsd).
  pose proof (target_parent_dir outDir _ _ fs _ Hready Hd Hf Hk) as Hdir.
  assert (Hmade : forall fs1,
            dir_made fs (dir_key outDir (calculateTargetPath m).1) fs1 ->
            fs1 !! target_key outDir (calculateTargetPath m).1
                     (calculateTargetPath m).2 = Some (File j)
            /\ nlink fs1 j = nlink fs j).
  { intros fs1 Hm. split; [by eapply dir_made_lookup_some|].
    by eapply dir_made_nlink. }
  destruct Hcase as [i Hb|fs1 nd Hm Ht Hs|fs1 nd Hm Ht Hs|fs1 n Hm Ht
                    |fs1 j' i Hm Ht Hone|fs1 i Hm Ht].
  - apply is_dir_true in Hdir as [n' Hn']. congruence.
  - destruct (Hmade fs1 Hm) as [Hk1 Hn1]. done.
  - destruct (Hmade fs1 Hm) as [Hk1 Hn1]. rewrite Hk1 in Ht.
    injection Ht as <-. apply single_link_file in Hs. lia.
  - destruct (Hmade fs1 Hm) as [Hk1 Hn1]. congruence.
  - destruct (Hmade fs1 Hm) as [Hk1 Hn1]. rewrite Hk1 in Ht.
    injection Ht as <-. lia.
  - destruct (Hmade fs1 Hm) as [Hk1 Hn1]. congruence.
Qed.

(** The path that pruning removes for an element of [targetFiles]. *)
Lemma prune_key outDir fs s :
  target_ready outDir fs -> target_file outDir fs s ->
  exists d f, s = d ++ js "/" ++ f /\ entry_name d /\ entry_name f
    /\ path_key (prune_path outDir s) = kapp (path_key outDir) [d; f]
    /\ ends_with (js ".epub") f = true.
Proof.
  intros Hready Hs. pose proof Hready as (Hne & _).
  pose proof Hs as (d & f & j & n & -> & Hd & Hf & Hepub).
  destruct (target_names outDir fs d f _ Hready Hf) as [Hdn Hfn].
  exists d, f. split; [done|]. split; [done|]. split; [done|]. split; [|done].
  rewrite prune_path_names by (apply Hdn || apply Hfn).
  by rewrite target_key_path, target_key_names.
Qed.

(** A regular file that is neither the target of an entry with a title
    nor an e-book file of a subdirectory of the target root is untouched
    by the pass: it is the same file afterwards, and no call removed or
    linked anything at its path. *)
Lemma untargeted_file_survives outDir entries fs k j :
  target_ready outDir fs -> sources_ready outDir entries fs ->
  fs !! k = Some (File j) ->
  (forall source m, (source, m) ∈ entries -> truthy (title m) = true ->
     target_key outDir (calculateTargetPath m).1 (calculateTargetPath m).2
     <> k) ->
  (forall s, target_file outDir fs s -> path_key (prune_path outDir s) <> k) ->
  fs_after (syncFiles outDir entries fs) !! k = Some (File j)
  /\ changes_at k (calls_of (syncFiles outDir entries fs)) = [].
Proof.
  intros Hready Hsources Hk Huntargeted Hunlisted.
  pose proof Hready as (Hne & _).
  destruct (syncFiles_ind outDir entries fs
    (fun _ _ fs0 t => fs0 !! k = Some (File j) /\ changes_at k t = [])
    Hready Hsources)
    as (T & t0 & unused & fs1 & t1 & HT & Hquiet & Hrun & _ & _ & Hsub
        & Hk1 & Ht1).
  - done.
  - intros linked source m todo T fs0 t r fs' t' Hall Hready0 Hsources0
      [Hk0 Ht] Hstep.
    assert (Hin : (source, m) ∈ entries).
    { rewrite Hall. apply elem_of_app. right. by left. }
    destruct (Hsources0 source m Hin) as [Hout _].
    destruct (link_keys outDir source m Hout)
      as (Hd & Hf & Hchild & Htd & Hsk & Hsd).
    split.
    + destruct Hstep as [(_ & _ & -> & _)|[Htitle Hcase]]; [done|].
      destruct (link_case_file _ _ _ _ _ _ _ _ _ _ _ Hcase Hsk Hsd k j Hk0)
        as [?|(E & _)]; [done|].
      by destruct (Huntargeted source m Hin Htitle).
    + rewrite changes_at_app, Ht. cbn [app].
      destruct Hstep as [(_ & _ & _ & ->)|[Htitle Hcase]]; [done|].
      apply (link_step_changes_at outDir source m fs0 r fs'); [done| |].
      * right. done.
      * intros E. by destruct (Huntargeted source m Hin Htitle).
  - assert (Hunused : forall s, s ∈ unused ->
              path_key (prune_path outDir s) <> k).
    { intros s Hs. apply Hunlisted, HT, Hsub, Hs. }
    rewrite Hrun. unfold fs_after, calls_of. cbn [fst snd]. split.
    + destruct (prune_fs_lookup outDir unused fs1 k)
        as [E|(_ & _ & s & Hs & Hkey & _)]; [by rewrite E|].
      by destruct (Hunused s Hs).
    + rewrite !changes_at_app, (changes_at_quiet k t0 Hquiet), Ht1.
      by rewrite prune_trace_quiet.
Qed.

(** The target of an entry with a title that has two or more links before
    the pass is the same file afterwards, and no call removed or linked
    anything at its path. *)
Lemma linked_target_kept outDir entries fs source0 m0 j :
  target_ready outDir fs -> sources_ready outDir entries fs ->
  (source0, m0) ∈ entries -> truthy (title m0) = true ->
  fs !! target_key outDir (calculateTargetPath m0).1 (calculateTargetPath m0).2
  = Some (File j) ->
  (2 <= nlink fs j)%nat ->
  fs_after (syncFiles outDir entries fs)
    !! target_key outDir (calculateTargetPath m0).1 (calculateTargetPath m0).2
  = Some (File j)
  /\ changes_at
       (target_key outDir (calculateTargetPath m0).1 (calculateTargetPath m0).2)
       (calls_of (syncFiles outDir entries fs)) = [].
Proof.
  intros Hready Hsources Hin0 Htitle0 Hk Hn.
  pose proof Hready as (Hne & _).
  set (k := target_key outDir (calculateTargetPath m0).1
              (calculateTargetPath m0).2) in *.
  destruct (calculateTargetPath_names m0 _ _ (surjective_pairing _))
    as [Hd0 Hf0].
  destruct (syncFiles_ind outDir entries fs
    (fun linked T fs0 t =>
       fs0 !! k = Some (File j) /\ (2 <= nlink fs0 j)%nat
       /\ changes_at k t = []
       /\ ((source0, m0) ∈ linked -> rel_path m0 ∉ T))
    Hready Hsources)
    as (T & t0 & unused & fs1 & t1 & HT & Hquiet & Hrun & _ & _ & Hsub
        & Hk1 & _ & Ht1 & Hdone).
  - intros T HT. repeat split; try done. intros Hin. inversion Hin.
  - intros linked source m todo T fs0 t r fs' t' Hall Hready0 Hsources0
      (Hk0 & Hn0 & Ht & Hdone) Hstep.
    assert (Hin : (source, m) ∈ entries).
    { rewrite Hall. apply elem_of_app. right. by left. }
    destruct (Hsources0 source m Hin) as [Hout _].
    destruct (link_keys outDir source m Hout)
      as (Hd & Hf & Hchild & Htd & Hsk & Hsd).
    assert (Hold : (source0, m0) ∈ linked -> rel_path m0 ∉ confirm r T).
    { intros Hl Hc. apply confirm_subset in Hc. by apply Hdone. }
    rewrite changes_at_app, Ht. cbn [app].
    destruct Hstep as [(Hfalsy & -> & -> & ->)|[Htitle Hcase]].
    { repeat split; try done.
      intros [Hl|Hl%list_elem_of_singleton]%elem_of_app; [by apply Hold|].
      injection Hl as _ <-. congruence. }
    destruct (decide (k = target_key outDir (calculateTargetPath m).1
                           (calculateTargetPath m).2)) as [E|Hother].
    + destruct (link_step_kept outDir source m fs0 r fs' t' j)
        as (-> & Hk' & Hn' & Hq); try done.
      { by right. }
      { by rewrite <- E. }
      rewrite <- E in Hk'. split; [done|]. split; [lia|].
      split; [by apply changes_at_quiet|].
      intros _ Hc. apply confirm_spec in Hc as [_ Hc].
      apply target_key_inj in E as [E1 E2]; [|done..].
      unfold rel_path in Hc. rewrite E1, E2 in Hc.
      by destruct (join_nonempty (calculateTargetPath m).1
                     (calculateTargetPath m).2); apply Hc.
    + split; [|split; [|split]].
      * destruct (link_case_file _ _ _ _ _ _ _ _ _ _ _ Hcase Hsk Hsd k j Hk0)
          as [?|(E & _)]; done.
      * destruct (link_case_nlink _ _ _ _ _ _ _ _ _ _ _ Hcase Htd Hsk Hsd j)
          as [E|(i & _ & _ & [[_ E]|(_ & E & _)])]; lia.
      * apply (link_step_changes_at outDir source m fs0 r fs'); [done| |done].
        right. done.
      * intros [Hl|Hl%list_elem_of_singleton]%elem_of_app; [by apply Hold|].
        injection Hl as _ <-. done.
  - assert (Hunused : forall s, s ∈ unused ->
              path_key (prune_path outDir s) <> k).
    { intros s Hs E.
      destruct (prune_key outDir fs s Hready) as (d & f & -> & Hd & Hf & Hkey & _).
      { by apply HT, Hsub. }
      rewrite Hkey, <- target_key_names in E by done.
      apply target_key_inj in E as [E1 E2]; [|apply Hd|done..].
      apply (Hdone Hin0). unfold rel_path. by rewrite <- E1, <- E2. }
    rewrite Hrun. unfold fs_after, calls_of. cbn [fst snd]. split.
    + destruct (prune_fs_lookup outDir unused fs1 k)
        as [E|(_ & _ & s & Hs & Hkey & _)]; [by rewrite E|].
      by destruct (Hunused s Hs).
    + rewrite !changes_at_app, (changes_at_quiet k t0 Hquiet), Ht1.
      by rewrite prune_trace_quiet.
Qed.

(** ** Files that a pass leaves alone *)

Lemma kapp_last_inj k k' c c' : kapp k [c] = kapp k' [c'] -> k = k' /\ c = c'.
Proof.
  destruct k' as [a cs]. intros E. by apply kapp_snoc_inv in E.
Qed.

Lemma target_name_epub m : ends_with (js ".epub") (calculateTargetPath m).2 = true.
Proof.
  unfold calculateTargetPath, titleCreatorPath.
  destruct (series m) as [s|], (seriesIndex m) as [ix|]; cbn [fst snd];
    try apply ends_with_app.
  case_bool_decide; cbn [fst snd]; [apply ends_with_app|].
  rewrite !(assoc_L (++)). apply ends_with_app.
Qed.

(** A target directly in the target root is the target of a series book
    of whose series nothing is left after sanitization. *)
Lemma empty_directory_series m :
  (calculateTargetPath m).1 = [] ->
  exists s ix, series m = Some s /\ s <> [] /\ seriesIndex m = Some ix
               /\ sanitize s = [].
Proof.
  unfold calculateTargetPath, titleCreatorPath.
  assert (Hstem : forall a b : list N, a ++ js " - " ++ b <> []).
  { intros a b E. apply app_eq_nil in E as [_ E]. discriminate. }
  destruct (series m) as [s|], (seriesIndex m) as [ix|]; cbn [fst snd];
    try (intros E; by apply Hstem in E).
  case_bool_decide; cbn [fst snd]; [intros E; by apply Hstem in E|].
  intros E. exists s, ix. done.
Qed.

Lemma target_key_root_inv outDir d f name :
  slash_free d = true -> entry_name f ->
  target_key outDir d f = kapp (path_key outDir) [name] ->
  d = [] /\ f = name.
Proof.
  intros Hd Hf. rewrite target_key_child by done.
  destruct (dir_key_cases outDir d Hd) as [[-> ->]|[_ ->]].
  - intros E%kapp_inj. by simplify_eq.
  - rewrite kapp_app. intros E%kapp_inj. discriminate.
Qed.

(** The directory of one entry is not the target of another. *)
Lemma dir_key_ne_target_key outDir m m' :
  dir_key outDir (calculateTargetPath m).1
  <> target_key outDir (calculateTargetPath m').1 (calculateTargetPath m').2.
Proof.
  destruct (calculateTargetPath_names m _ _ (surjective_pairing _))
    as [Hd Hf].
  destruct (calculateTargetPath_names m' _ _ (surjective_pairing _))
    as [Hd' Hf'].
  rewrite (target_key_child outDir _ _ Hf').
  destruct (dir_key_cases outDir _ Hd) as [[_ ->]|[_ ->]];
    destruct (dir_key_cases outDir _ Hd') as [[_ ->]|[_ ->]];
    rewrite ?kapp_app.
  - intros E. symmetry in E. by apply kapp_ne_self in E.
  - intros E. symmetry in E. by apply kapp_ne_self in E.
  - intros E%kapp_inj. injection E as E.
    by destruct (file_name_not_directory m' m).
  - by apply kapp_length_ne.
Qed.

(** A regular file whose name does not end in [.epub] is untouched by the
    pass. *)
Lemma other_file_survives outDir entries fs k0 f j :
  target_ready outDir fs -> sources_ready outDir entries fs ->
  fs !! kapp k0 [f] = Some (File j) ->
  ends_with (js ".epub") f = false ->
  fs_after (syncFiles outDir entries fs) !! kapp k0 [f] = Some (File j)
  /\ changes_at (kapp k0 [f]) (calls_of (syncFiles outDir entries fs)) = [].
Proof.
  intros Hready Hsources Hk Hepub.
  apply untargeted_file_survives; try done.
  - intros source m Hin Htitle E.
    destruct (calculateTargetPath_names m _ _ (surjective_pairing _))
      as [Hd Hf].
    rewrite target_key_child in E by done.
    apply kapp_last_inj in E as [_ E].
    pose proof (target_name_epub m) as Hm. rewrite E in Hm. congruence.
  - intros s Hs E.
    destruct (prune_key outDir fs s Hready Hs)
      as (d' & f' & _ & _ & _ & Hkey & Hepub').
    rewrite Hkey in E.
    change [d'; f'] with ([d'] ++ [f']) in E. rewrite <- kapp_app in E.
    apply kapp_last_inj in E as [_ ->]. congruence.
Qed.

(** A regular file directly in the target root is untouched by the pass,
    unless it has a single link and is the target of an entry with a
    title. *)
Lemma root_file_survives outDir entries fs name j :
  target_ready outDir fs -> sources_ready outDir entries fs ->
  fs !! kapp (path_key outDir) [name] = Some (File j) ->
  (forall source m, (source, m) ∈ entries -> truthy (title m) = true ->
     calculateTargetPath m = ([], name) -> (2 <= nlink fs j)%nat) ->
  fs_after (syncFiles outDir entries fs) !! kapp (path_key outDir) [name]
  = Some (File j)
  /\ changes_at (kapp (path_key outDir) [name])
       (calls_of (syncFiles outDir entries fs)) = [].
Proof.
  intros Hready Hsources Hk Hlinked.
  destruct (decide (Exists (fun e : list N * OpfMetadata =>
                      truthy (title e.2) = true
                      /\ calculateTargetPath e.2 = ([], name)) entries))
    as [Hex|Hno].
  - apply Exists_exists in Hex as ([source m] & Hin & Htitle & Hpath).
    cbn [snd] in Htitle, Hpath.
    destruct (calculateTargetPath_names m _ _ Hpath) as [_ Hname].
    pose proof (linked_target_kept outDir entries fs source m j
                  Hready Hsources Hin Htitle) as Hkept.
    rewrite Hpath in Hkept. cbn [fst snd] in Hkept.
    rewrite target_key_root in Hkept by done.
    apply Hkept; [done|]. by apply (Hlinked source m).
  - apply untargeted_file_survives; try done.
    + intros source m Hin Htitle E.
      destruct (calculateTargetPath_names m _ _ (surjective_pairing _))
        as [Hd Hf].
      apply target_key_root_inv in E as [E1 E2]; [|done..].
      apply Hno, Exists_exists. exists (source, m).
      split; [done|]. split; [done|]. cbn [snd].
      rewrite (surjective_pairing (calculateTargetPath m)). by rewrite E1, E2.
    + intros s Hs E.
      destruct (prune_key outDir fs s Hready Hs)
        as (d' & f' & _ & _ & _ & Hkey & _).
      rewrite Hkey in E. apply kapp_inj in E. discriminate.
Qed.

Lemma changes_at_here k e t :
  is_change e = true -> path_key <$> changed_path e.1 = Some k ->
  changes_at k (e :: t) = e :: changes_at k t.
Proof.
  intros He Hk. unfold changes_at. cbn [List.filter].
  by rewrite He, bool_decide_eq_true_2.
Qed.

(** ** Pruning *)

(** C1, amended. After a pass over a well-formed file system: an e-book
    file subdirectory/filename of the target tree that is the target path
    of no source entry with a title is gone, when the safe remover accepts
    its path; one that is the target path of a source entry with a title
    is a file afterwards, and when it had two or more links before the
    pass it is the same file and no call removed or linked anything at its
    path; a regular file whose name does not end in [.epub] is untouched;
    and a regular file directly in the target root is untouched, unless it
    has a single link and is the target path of a source entry with a
    title. *)
Theorem syncFiles_prune_correct outDir entries fs :
  target_ready outDir fs -> sources_ready outDir entries fs ->
  (forall d f j n,
     fs !! kapp (path_key outDir) [d] = Some (Dir n) ->
     fs !! kapp (path_key outDir) [d; f] = Some (File j) ->
     ends_with (js ".epub") f = true ->
     (forall source m, (source, m) ∈ entries -> truthy (title m) = true ->
        calculateTargetPath m <> (d, f)) ->
     unsafe_path (outDir ++ js "/" ++ d ++ js "/" ++ f) = false ->
     fs_after (syncFiles outDir entries fs) !! kapp (path_key outDir) [d; f]
     = None)
  /\ (forall d f j n source m,
        fs !! kapp (path_key outDir) [d] = Some (Dir n) ->
        fs !! kapp (path_key outDir) [d; f] = Some (File j) ->
        (source, m) ∈ entries -> truthy (title m) = true ->
        calculateTargetPath m = (d, f) ->
        (exists j',
           fs_after (syncFiles outDir entries fs)
             !! kapp (path_key outDir) [d; f] = Some (File j'))
        /\ ((2 <= nlink fs j)%nat ->
            fs_after (syncFiles outDir entries fs)
              !! kapp (path_key outDir) [d; f] = Some (File j)
            /\ changes_at (kapp (path_key outDir) [d; f])
                 (calls_of (syncFiles outDir entries fs)) = []))
  /\ (forall k0 f j,
        fs !! kapp k0 [f] = Some (File j) ->
        ends_with (js ".epub") f = false ->
        fs_after (syncFiles outDir entries fs) !! kapp k0 [f] = Some (File j)
        /\ changes_at (kapp k0 [f]) (calls_of (syncFiles outDir entries fs))
           = [])
  /\ (forall name j,
        fs !! kapp (path_key outDir) [name] = Some (File j) ->
        (forall source m, (source, m) ∈ entries -> truthy (title m) = true ->
           calculateTargetPath m = ([], name) -> (2 <= nlink fs j)%nat) ->
        fs_after (syncFiles outDir entries fs) !! kapp (path_key outDir) [name]
        = Some (File j)
        /\ changes_at (kapp (path_key outDir) [name])
             (calls_of (syncFiles outDir entries fs)) = []).
Proof.
  intros Hready Hsources. split; [|split; [|split]].
  - intros d f j n Hdir Hk Hepub Hunclaimed Hsafe.
    by eapply unclaimed_file_pruned.
  - intros d f j n source m Hdir Hk Hin Htitle Hpath. split.
    + by eapply claimed_file_kept.
    + intros Hn.
      destruct (target_names outDir fs d f _ Hready Hk) as [Hd Hf].
      pose proof (linked_target_kept outDir entries fs source m j
                    Hready Hsources Hin Htitle) as Hkept.
      rewrite Hpath in Hkept. cbn [fst snd] in Hkept.
      rewrite target_key_names in Hkept by done. by apply Hkept.
  - intros k0 f j Hk Hepub. by apply other_file_survives.
  - intros name j Hk Hlinked. by apply root_file_survives.
Qed.

Lemma syncFiles_prune_correct_witness :
  fs_after (syncFiles (js "/out") first_book_entries cluttered_fs)
    !! kapp (path_key (js "/out")) [js "Old"; js "old.epub"] = None
  /\ fs_after (syncFiles (js "/out") first_book_entries cluttered_fs)
       !! kapp (path_key (js "/out")) [js "Books"; js "Books - 01.epub"]
     = Some (File 1)
  /\ fs_after (syncFiles (js "/out") first_book_entries cluttered_fs)
       !! kapp (kapp (path_key (js "/out")) [js "Books"]) [js "cover.jpg"]
     = Some (File 6)
  /\ fs_after (syncFiles (js "/out") first_book_entries cluttered_fs)
       !! kapp (path_key (js "/out")) [js "unused-file.epub"]
     = Some (File 9).
Proof.
  assert (Hready : target_ready (js "/out") cluttered_fs).
  { apply target_readyb_sound. vm_compute. reflexivity. }
  assert (Hsources : sources_ready (js "/out") first_book_entries cluttered_fs).
  { apply sources_readyb_sound. vm_compute. reflexivity. }
  destruct (syncFiles_prune_correct (js "/out") first_book_entries
              cluttered_fs Hready Hsources)
    as (Hpruned & Hkept & Hother & Hroot).
  split; [|split; [|split]].
  - apply (Hpruned (js "Old") (js "old.epub") 3 2%nat).
    + vm_compute. reflexivity.
    + vm_compute. reflexivity.
    + vm_compute. reflexivity.
    + intros source m Hin _.
      apply list_elem_of_singleton in Hin. injection Hin as -> ->.
      vm_compute. discriminate.
    + vm_compute. reflexivity.
  - destruct (Hkept (js "Books") (js "Books - 01.epub") 1 2%nat a_book_path
                (book "A Book" (Some "Books") (Some "1"))%string)
      as [_ Hsame].
    + vm_compute. reflexivity.
    + vm_compute. reflexivity.
    + by left.
    + vm_compute. reflexivity.
    + vm_compute. reflexivity.
    + apply Hsame. vm_compute. lia.
  - apply (Hother (kapp (path_key (js "/out")) [js "Books"]) (js "cover.jpg") 6).
    + vm_compute. reflexivity.
    + vm_compute. reflexivity.
  - apply (Hroot (js "unused-file.epub") 9).
    + vm_compute. reflexivity.
    + intros source m Hin _ Hpath.
      apply list_elem_of_singleton in Hin. injection Hin as -> ->.
      vm_compute in Hpath. discriminate.
Defined.

(** C10, amended to the pass as a whole. A regular file directly in the
    target root is the same file after the pass, and no call of the pass
    removed or linked anything at its path, unless it has a single link
    and is the target path of a source entry with a title, which it is
    only for a series book of whose series nothing is left after
    sanitization. Pruning never touches the target root:
    [getFilesInTargetDir] only returns paths of the form
    subdirectory/filename; what the first loop leaves of them is pruned,
    every [unlink] of the pruning loop is on a path
    targetRoot/subdirectory/filename, and the entries directly in the
    target root are the same before and after pruning. *)
Theorem prune_spares_target_root outDir entries fs :
  target_ready outDir fs ->
  (exists T t0 unused fs1 t1,
     getFilesInTargetDir outDir fs = (Returned T, fs, t0)
     /\ link_all outDir entries T fs = (Returned unused, fs1, t1)
     /\ syncFiles outDir entries fs
        = (Returned tt, prune_fs outDir unused fs1,
           t0 ++ t1 ++ prune_trace outDir unused fs1)
     /\ (forall s, s ∈ T ->
           exists d f, entry_name d /\ entry_name f /\ s = d ++ js "/" ++ f)
     /\ (forall e, e ∈ prune_trace outDir unused fs1 ->
           exists d f, entry_name d /\ entry_name f
             /\ e.1 = Unlink (outDir ++ js "/" ++ d ++ js "/" ++ f))
     /\ (forall name,
           prune_fs outDir unused fs1 !! kapp (path_key outDir) [name]
           = fs1 !! kapp (path_key outDir) [name]))
  /\ (sources_ready outDir entries fs ->
      forall name j,
        fs !! kapp (path_key outDir) [name] = Some (File j) ->
        (forall source m, (source, m) ∈ entries -> truthy (title m) = true ->
           calculateTargetPath m = ([], name) -> (2 <= nlink fs j)%nat) ->
        fs_after (syncFiles outDir entries fs) !! kapp (path_key outDir) [name]
        = Some (File j)
        /\ changes_at (kapp (path_key outDir) [name])
             (calls_of (syncFiles outDir entries fs)) = [])
  /\ (forall m name, calculateTargetPath m = ([], name) ->
        exists s ix, series m = Some s /\ s <> [] /\ seriesIndex m = Some ix
                     /\ sanitize s = []).
Proof.
  intros Hready. pose proof Hready as (Hne & _).
  split; [|split].
  2:{ intros Hsources name j Hk Hlinked. by apply root_file_survives. }
  2:{ intros m name Hpath. apply empty_directory_series. by rewrite Hpath. }
  destruct (getFilesInTargetDir_run outDir fs Hready)
    as (T & t0 & Hscan & _ & HT).
  destruct (link_all_subset outDir entries T fs)
    as (unused & fs1 & t1 & Hlink & Hsub).
  assert (Hform : forall s, s ∈ T ->
            exists d f, entry_name d /\ entry_name f /\ s = d ++ js "/" ++ f).
  { intros s Hs. apply HT in Hs.
    destruct (target_file_names outDir fs s Hready Hs)
      as (d & f & -> & Hd & Hf & _). eauto. }
  assert (Hpath : forall s, s ∈ unused ->
            exists d f, entry_name d /\ entry_name f
              /\ prune_path outDir s = outDir ++ js "/" ++ d ++ js "/" ++ f).
  { intros s Hs. destruct (Hform s (Hsub s Hs)) as (d & f & Hd & Hf & ->).
    exists d, f. split; [done|]. split; [done|].
    apply prune_path_names; [apply Hd | apply Hf]. }
  exists T, t0, unused, fs1, t1.
  split; [done|]. split; [done|]. split; [by apply (syncFiles_run outDir entries fs T)|].
  split; [done|]. split.
  - intros e He.
    destruct (prune_trace_calls outDir unused fs1 e He) as (s & Hs & -> & _).
    destruct (Hpath s Hs) as (d & f & Hd & Hf & ->). eauto.
  - intros name.
    destruct (prune_fs_lookup outDir unused fs1 (kapp (path_key outDir) [name]))
      as [E|(_ & _ & s & Hs & Hk & _)]; [done|].
    destruct (Hpath s Hs) as (d & f & Hd & Hf & E). rewrite E in Hk.
    rewrite target_key_path, target_key_names in Hk by done.
    apply kapp_inj in Hk. discriminate.
Qed.

Lemma prune_spares_target_root_witness :
  fs_after (syncFiles (js "/out") first_book_entries unused_root_fs)
    !! kapp (path_key (js "/out")) [js "unused-file.epub"]
  = Some (File 9)
  /\ changes_at (kapp (path_key (js "/out")) [js "unused-file.epub"])
       (calls_of (syncFiles (js "/out") first_book_entries unused_root_fs))
     = [].
Proof.
  assert (Hready : target_ready (js "/out") unused_root_fs).
  { apply target_readyb_sound. vm_compute. reflexivity. }
  assert (Hsources : sources_ready (js "/out") first_book_entries
                       unused_root_fs).
  { apply sources_readyb_sound. vm_compute. reflexivity. }
  destruct (prune_spares_target_root (js "/out") first_book_entries
              unused_root_fs Hready) as (_ & Hroot & _).
  apply (Hroot Hsources (js "unused-file.epub") 9).
  - vm_compute. reflexivity.
  - intros source m Hin _ Hpath.
    apply list_elem_of_singleton in Hin. injection Hin as -> ->.
    vm_compute in Hpath. discriminate.
Defined.

(** ** Two entries with one target: the first one links *)

(** C3, amended: when several source entries with a title map to one
    target path at which nothing exists before the pass, and no regular
    file stands in the place of the directory of that path, the first of
    them in processing order wins: after the pass the target is a hard
    link of its source file, and the link of the first entry is the only
    removal or link at the target path during the pass, whatever entries
    follow: a later entry finds the target with two links and leaves
    it. *)
Theorem collision_first_entry_wins outDir linked source1 m1 todo fs d f i1 :
  target_ready outDir fs ->
  sources_ready outDir (linked ++ (source1, m1) :: todo) fs ->
  truthy (title m1) = true -> calculateTargetPath m1 = (d, f) ->
  (forall source m, (source, m) ∈ linked -> truthy (title m) = true ->
     calculateTargetPath m <> (d, f)) ->
  (forall i, fs !! dir_key outDir d <> Some (File i)) ->
  fs !! target_key outDir d f = None ->
  fs !! path_key source1 = Some (File i1) ->
  fs_after (syncFiles outDir (linked ++ (source1, m1) :: todo) fs)
    !! target_key outDir d f
  = Some (File i1)
  /\ changes_at (target_key outDir d f)
       (calls_of (syncFiles outDir (linked ++ (source1, m1) :: todo) fs))
     = [(Link source1 (outDir ++ js "/" ++ d ++ js "/" ++ f), true)].
Proof.
  intros Hready Hsources Htitle1 Hpath1 Hfirst Hnotfile Habsent Hsrc1.
  pose proof Hready as (Hne & _).
  destruct (calculateTargetPath_names m1 d f Hpath1) as [Hds Hf].
  assert (Hin1 : (source1, m1) ∈ linked ++ (source1, m1) :: todo).
  { apply elem_of_app. right. by left. }
  destruct (Hsources source1 m1 Hin1) as [Hout1 _].
  assert (Hsk1 : path_key source1 <> target_key outDir d f).
  { intros E. apply Hout1. rewrite E. apply target_key_under. }
  assert (Hd1 : d = (calculateTargetPath m1).1) by by rewrite Hpath1.
  assert (Hf1 : f = (calculateTargetPath m1).2) by by rewrite Hpath1.
  set (tk := target_key outDir d f) in *.
  set (target := outDir ++ js "/" ++ d ++ js "/" ++ f).
  assert (Htarget : path_key target = tk) by by apply target_key_path.
  destruct (syncFiles_ind outDir (linked ++ (source1, m1) :: todo) fs
    (fun linked' T fs0 t =>
       (forall i, fs0 !! dir_key outDir d <> Some (File i))
       /\ ((d ++ js "/" ++ f) ∉ T)
       /\ fs0 !! path_key source1 = Some (File i1)
       /\ ((length linked' <= length linked)%nat ->
           fs0 !! tk = None /\ changes_at tk t = [])
       /\ ((length linked < length linked')%nat ->
           fs0 !! tk = Some (File i1)
           /\ changes_at tk t = [(Link source1 target, true)]))
    Hready Hsources)
    as (T & t0 & unused & fs1 & t1 & HT & Hquiet & Hrun & Hready1 & _ & Hsub
        & _ & Hnot & _ & _ & Hwon).
  - intros T HT. split; [done|]. split; [|split; [done|split]].
    + intros Hin. apply HT in Hin.
      destruct (target_file_names outDir fs _ Hready Hin)
        as (d' & f' & E & Hd' & Hf' & _ & _ & [j Hj]).
      apply join_inj in E as [-> ->];
        [|done|apply Hf|apply Hd'|apply Hf'].
      unfold tk in Habsent. rewrite target_key_names in Habsent by done.
      congruence.
    + done.
    + simpl. lia.
  - intros linked' source m todo' T fs0 t r fs' t' Hall Hready0 Hsources0
      (Hnotfile0 & HnotT & Hsrc0 & Hbefore & Hafter) Hstep.
    assert (Hin : (source, m) ∈ linked ++ (source1, m1) :: todo).
    { rewrite Hall. apply elem_of_app. right. by left. }
    destruct (Hsources0 source m Hin) as [Hout _].
    destruct (link_keys outDir source m Hout)
      as (Hd' & Hf' & Hchild & Htd & Hsk & Hsd).
    assert (Hready' : target_ready outDir fs') by by eapply link_step_ready.
    split; [|split; [|split]].
    { intros i Hi.
      destruct (dir_key_cases outDir d Hds) as [[_ E]|[_ E]]; rewrite E in *.
      - destruct Hready' as (_ & _ & _ & Hroot).
        apply is_dir_true in Hroot as [n Hn]. congruence.
      - apply (Hnotfile0 i).
        by eapply (link_step_directory outDir source m fs0 r fs' t' d m1). }
    { intros Hc. by apply confirm_subset in Hc. }
    { rewrite <- Hsrc0. by eapply link_step_outside. }
    rewrite length_app, !changes_at_app. cbn [length].
    destruct (app_cons_position _ _ _ _ _ _ Hall)
      as [[Hlt Hearlier]|[(-> & [= -> ->] & ->)|Hgt]].
    + split; [|lia]. intros _.
      destruct (Hbefore ltac:(lia)) as [Hnone Ht]. rewrite Ht. cbn [app].
      destruct Hstep as [(_ & _ & -> & ->)|[Htitle Hcase]]; [done|].
      assert (Hother : tk <> target_key outDir (calculateTargetPath m).1
                               (calculateTargetPath m).2).
      { intros E. apply target_key_inj in E as [E1 E2]; [|done..].
        apply (Hfirst source m Hearlier Htitle).
        rewrite (surjective_pairing (calculateTargetPath m)).
        by rewrite <- E1, <- E2. }
      split.
      * rewrite <- Hnone. eapply link_case_frame; [done| |done].
        intros E. unfold tk in E. rewrite Hd1, Hf1 in E. symmetry in E.
        by apply dir_key_ne_target_key in E.
      * apply (link_step_changes_at outDir source m fs0 r fs'); [done| |done].
        by right.
    + split; [lia|]. intros _.
      destruct (Hbefore ltac:(lia)) as [Hnone Ht]. rewrite Ht. cbn [app].
      destruct Hstep as [(Hfalsy & _)|[_ Hcase]]; [congruence|].
      rewrite Hpath1 in Hcase, Htd, Hsk, Hsd.
      cbn [fst snd] in Hcase, Htd, Hsk, Hsd.
      fold tk in Hcase, Htd, Hsk. fold target in Hcase.
      assert (Hmade : forall fs2,
                dir_made fs0 (dir_key outDir d) fs2 ->
                fs2 !! tk = None
                /\ fs2 !! path_key source1 = Some (File i1)).
      { intros fs2 Hm. split.
        - by rewrite (dir_made_lookup_ne _ _ _ _ Hm).
        - by apply (dir_made_lookup_some fs0 (dir_key outDir d)). }
      destruct Hcase as [i Hb|fs2 nd Hm Ht'|fs2 nd Hm Ht'|fs2 n Hm Ht'
                        |fs2 j i Hm Ht'|fs2 i Hm Ht' Hs].
      * by destruct (Hnotfile0 i).
      * destruct (Hmade fs2 Hm). congruence.
      * destruct (Hmade fs2 Hm). congruence.
      * destruct (Hmade fs2 Hm). congruence.
      * destruct (Hmade fs2 Hm). congruence.
      * destruct (Hmade fs2 Hm) as [_ Hs']. rewrite lookup_insert_eq.
        split; [congruence|].
        rewrite changes_at_other by done.
        rewrite changes_at_other by done.
        rewrite changes_at_here; [done|done|].
        cbn [fst changed_path fmap option_fmap option_map]. by rewrite Htarget.
    + split; [lia|]. intros _.
      destruct (Hafter Hgt) as [Hk0 Ht]. rewrite Ht.
      assert (Hn0 : (2 <= nlink fs0 i1)%nat).
      { by apply (nlink_two fs0 (path_key source1) tk). }
      assert (Hgoal : fs' !! tk = Some (File i1) /\ changes_at tk t' = []);
        [|destruct Hgoal as [-> ->]; by rewrite app_nil_r].
      destruct (decide (truthy (title m) = true)) as [Htitle|Hfalsy].
      2:{ destruct Hstep as [(_ & _ & -> & ->)|[Htitle _]]; done. }
      destruct (decide (tk = target_key outDir (calculateTargetPath m).1
                              (calculateTargetPath m).2)) as [E|Hother].
      * destruct (link_step_kept outDir source m fs0 r fs' t' i1)
          as (_ & Hk' & _ & Hq); try done.
        { by rewrite <- E. }
        rewrite <- E in Hk'. split; [done|]. by apply changes_at_quiet.
      * split; [|by apply (link_step_changes_at outDir source m fs0 r fs')].
        destruct Hstep as [(_ & _ & -> & _)|[_ Hcase]]; [done|].
        destruct (link_case_file _ _ _ _ _ _ _ _ _ _ _ Hcase Hsk Hsd tk i1 Hk0)
          as [?|(E & _)]; done.
  - assert (Hall : (length linked
                    < length (linked ++ (source1, m1) :: todo))%nat).
    { rewrite length_app. cbn [length]. lia. }
    destruct (Hwon Hall) as [Hk1 Ht1].
    assert (Hunused : forall s, s ∈ unused ->
              path_key (prune_path outDir s) <> tk).
    { intros s Hs E.
      destruct (prune_key outDir fs s Hready)
        as (d' & f' & -> & Hd' & Hf' & Hkey & _).
      { by apply HT, Hsub. }
      rewrite Hkey, <- target_key_names in E by done.
      apply target_key_inj in E as [-> ->]; [|apply Hd'|done..].
      done. }
    rewrite Hrun. unfold fs_after, calls_of. cbn [fst snd]. split.
    + destruct (prune_fs_lookup outDir unused fs1 tk)
        as [E|(_ & _ & s & Hs & Hkey & _)]; [by rewrite E|].
      by destruct (Hunused s Hs).
    + rewrite !changes_at_app, (changes_at_quiet tk t0 Hquiet), Ht1.
      by rewrite prune_trace_quiet.
Qed.

Lemma collision_first_entry_wins_witness :
  fs_after (syncFiles (js "/out") colliding_entries (fs_of library_fs))
    !! target_key (js "/out") (js "Books") (js "Books - 01.epub")
  = Some (File 1)
  /\ changes_at (target_key (js "/out") (js "Books") (js "Books - 01.epub"))
       (calls_of (syncFiles (js "/out") colliding_entries (fs_of library_fs)))
     = [(Link a_book_path (js "/out" ++ js "/" ++ js "Books" ++ js "/"
                             ++ js "Books - 01.epub"), true)].
Proof.
  apply (collision_first_entry_wins (js "/out") [] a_book_path
           (book "A Book" (Some "Books") (Some "1"))%string
           [(b_book_path, book "B Book" (Some "Books") (Some "1"))%string]
           (fs_of library_fs) (js "Books") (js "Books - 01.epub") 1).
  - apply target_readyb_sound. vm_compute. reflexivity.
  - apply sources_readyb_sound. vm_compute. reflexivity.
  - vm_compute. reflexivity.
  - vm_compute. reflexivity.
  - intros source m Hin. inversion Hin.
  - intros i. vm_compute. discriminate.
  - vm_compute. reflexivity.
  - vm_compute. reflexivity.
Defined.

(** ** The sanitization rule *)

Lemma below_checked (P : N -> bool) (bound : nat) (c : N) :
  forallb (fun n => P (N.of_nat n)) (seq 0 bound) = true ->
  c < N.of_nat bound -> P c = true.
Proof.
  intros Hall Hc. rewrite forallb_forall in Hall.
  rewrite <- (N2Nat.id c). apply Hall. apply in_seq. lia.
Qed.

Lemma is_whitespace_spec c : is_whitespace c = true <-> c ∈ white_space.
Proof.
  unfold white_space. rewrite !elem_of_cons, elem_of_nil.
  unfold is_whitespace.
  rewrite !orb_true_iff, !andb_true_iff, !N.leb_le, !N.eqb_eq. lia.
Qed.

Lemma is_alnum_space_spec c : is_alnum_space c = true <-> c ∈ kept_characters.
Proof.
  destruct (N.lt_ge_cases c 128) as [Hc|Hc].
  - apply (below_checked
      (fun c => bool_decide (is_alnum_space c = true <-> c ∈ kept_characters))
      128 c) in Hc; [by apply bool_decide_eq_true in Hc|].
    vm_compute. reflexivity.
  - split.
    + unfold is_alnum_space.
      rewrite !orb_true_iff, !andb_true_iff, !N.leb_le, !N.eqb_eq. lia.
    + intros Hin. exfalso.
      assert (Hall : Forall (fun x => x < 128) kept_characters).
      { apply (bool_decide_unpack _). vm_compute. exact I. }
      rewrite Forall_forall in Hall. apply Hall in Hin. lia.
Qed.

Lemma replace_ws_runs_collapsed s :
  collapsed s (replace_ws_runs false s)
  /\ (forall w, w <> [] -> Forall (fun c => c ∈ white_space) w ->
        collapsed (w ++ s) (32 :: replace_ws_runs true s)).
Proof.
  induction s as [|c r [IH1 IH2]].
  - split; [constructor|]. intros w Hw Hall. simpl.
    apply collapsed_run; [done|done|done|constructor].
  - cbn [replace_ws_runs]. destruct (is_whitespace c) eqn:Hc.
    + apply is_whitespace_spec in Hc. split.
      * apply (IH2 [c]); [done|]. by constructor.
      * intros w Hw Hall.
        replace (w ++ c :: r) with ((w ++ [c]) ++ r) by by rewrite <- app_assoc.
        apply IH2; [by destruct w|].
        apply Forall_app. split; [done|]. by constructor.
    + assert (Hblack : c ∉ white_space).
      { intros Hin. apply is_whitespace_spec in Hin. congruence. }
      split.
      * by constructor.
      * intros w Hw Hall. apply collapsed_run; [done|done|done|].
        by constructor.
Qed.

Lemma run_split_unique w1 s1 w2 s2 :
  Forall (fun c => c ∈ white_space) w1 -> starts_black s1 ->
  Forall (fun c => c ∈ white_space) w2 -> starts_black s2 ->
  w1 ++ s1 = w2 ++ s2 -> w1 = w2 /\ s1 = s2.
Proof.
  revert w2. induction w1 as [|c w1 IH]; intros w2 H1 Hs1 H2 Hs2 E.
  - destruct w2 as [|c2 w2]; [done|]. simpl in E. subst s1.
    inversion H2; subst. by destruct Hs1.
  - destruct w2 as [|c2 w2].
    + simpl in E. subst s2. inversion H1; subst. by destruct Hs2.
    + simpl in E. injection E as -> E.
      inversion H1; subst. inversion H2; subst.
      destruct (IH w2) as [-> ->]; done.
Qed.

Lemma collapsed_unique s t t' : collapsed s t -> collapsed s t' -> t = t'.
Proof.
  intros H. revert t'.
  induction H as [|c s t Hc H IH|w s t Hw Hall Hs H IH]; intros t' H'.
  - inversion H' as [| |w' s' t0 Hw' Hall' Hs' H0 E]; [done|].
    by destruct w'.
  - inversion H' as [|c0 s0 t0 Hc0 H0|w' s' t0 Hw' Hall' Hs' H0 E]; subst.
    + f_equal. by apply IH.
    + destruct w' as [|c' w']; [done|]. simpl in E. injection E as -> _.
      inversion Hall'; subst. done.
  - inversion H' as [E|c0 s0 t0 Hc0 H0 E|w' s' t0 Hw' Hall' Hs' H0 E].
    + by destruct w.
    + destruct w as [|c' w]; [done|]. simpl in E. injection E as -> _.
      inversion Hall; subst. done.
    + destruct (run_split_unique w' s' w s) as [-> ->]; try done.
      f_equal. by apply IH.
Qed.

Lemma filter_kept_characters t :
  filter (fun c => c ∈ kept_characters) t = List.filter is_alnum_space t.
Proof.
  induction t as [|c t IH]; [done|]. cbn [List.filter].
  destruct (is_alnum_space c) eqn:Hc.
  - rewrite filter_cons_True by by apply is_alnum_space_spec.
    by rewrite IH.
  - rewrite filter_cons_False; [done|].
    intros Hin. apply is_alnum_space_spec in Hin. congruence.
Qed.

(** The two replacements of the code are the sanitization rule of the
    specification: the result is the string with its runs of white space
    collapsed and then the characters outside [[A-Za-z0-9 ]] stripped, and
    nothing else is. *)
Lemma sanitize_sanitized s out : sanitized s out <-> out = sanitize s.
Proof.
  split.
  - intros (t & Ht & ->).
    rewrite (collapsed_unique s t (replace_ws_runs false s) Ht)
      by apply replace_ws_runs_collapsed.
    by rewrite filter_kept_characters.
  - intros ->. exists (replace_ws_runs false s).
    split; [apply replace_ws_runs_collapsed|].
    by rewrite filter_kept_characters.
Qed.

(** ** The rendering of a series index *)

Lemma uint_chars_revapp x y :
  uint_chars (Decimal.revapp x y) = rev (uint_chars x) ++ uint_chars y.
Proof.
  revert y. induction x; intros y; cbn [Decimal.revapp uint_chars rev];
    [done|..]; rewrite IHx; cbn [uint_chars]; by rewrite <- app_assoc.
Qed.

Lemma decimal_digits_tenfold x :
  x <> 0 -> decimal_digits (10 * x) = decimal_digits x ++ [48].
Proof.
  intros Hx. destruct x as [|p]; [done|].
  unfold decimal_digits.
  change (N.to_uint (10 * N.pos p))
    with (Decimal.rev (DecimalPos.Unsigned.to_lu (10 * N.pos p))).
  rewrite DecimalPos.Unsigned.to_ldec_tenfold.
  change (N.to_uint (N.pos p))
    with (Decimal.rev (DecimalPos.Unsigned.to_lu (N.pos p))).
  unfold Decimal.rev. rewrite !uint_chars_revapp.
  cbn [uint_chars rev]. by rewrite !app_nil_r.
Qed.

Lemma decimal_digits_shift x (p : nat) :
  x <> 0 ->
  decimal_digits (x * 10 ^ N.of_nat p) = decimal_digits x ++ replicate p 48.
Proof.
  intros Hx. induction p as [|p IH].
  - by rewrite N.mul_1_r, app_nil_r.
  - rewrite Nat2N.inj_succ, N.pow_succ_r'.
    replace (x * (10 * 10 ^ N.of_nat p)) with (10 * (x * 10 ^ N.of_nat p))
      by lia.
    rewrite decimal_digits_tenfold, IH.
    + rewrite <- app_assoc. f_equal. cbn [replicate].
      by rewrite replicate_snoc.
    + assert (10 ^ N.of_nat p <> 0) by (apply N.pow_nonzero; lia). lia.
Qed.

Lemma drop_zeros_replicate (p : nat) l :
  drop_zeros (replicate p 48 ++ l) = drop_zeros l.
Proof. induction p as [|p IH]; [done|]. simpl. exact IH. Qed.

(** A natural number prints as its decimal numeral, whatever digits and
    exponent stand for it. *)
Lemma Number_toString_natural ix n :
  is_natural ix n -> (length (decimal_digits n) <= 21)%nat ->
  Number_toString ix = decimal_digits n.
Proof.
  destruct ix as [|neg|neg m e]; [done|done|]. destruct neg; [done|].
  cbn [is_natural]. intros Hn Hlen.
  destruct (decide (n = 0)) as [->|Hn0].
  { assert (m = 0) as ->; [|done].
    destruct (0 <=? e)%Z; [|lia].
    symmetry in Hn. apply N.eq_mul_0 in Hn as [?|Hn]; [done|].
    by apply N.pow_nonzero in Hn. }
  assert (exists a (z : nat) (q : nat),
            a <> 0 /\ decimal_digits m = decimal_digits a ++ replicate z 48
            /\ decimal_digits n = decimal_digits a ++ replicate q 48
            /\ (Z.of_nat (length (decimal_digits m)) + e
                = Z.of_nat (length (decimal_digits n)))%Z /\ m <> 0)
    as (a & z & q & Ha & Hm & Hdn & Hpos & Hm0).
  { destruct (0 <=? e)%Z eqn:He.
    - apply Z.leb_le in He. exists m, 0%nat, (Z.to_nat e).
      assert (Hm0 : m <> 0).
      { intros ->. by rewrite N.mul_0_l in Hn. }
      rewrite <- Z_nat_N in Hn. rewrite Hn, decimal_digits_shift by done.
      rewrite app_nil_r, length_app, length_replicate.
      repeat split; try done. lia.
    - apply Z.leb_gt in He. exists n, (Z.to_nat (- e)), 0%nat.
      rewrite <- Z_nat_N in Hn. rewrite Hn, decimal_digits_shift by done.
      rewrite app_nil_r, length_app, length_replicate.
      repeat split; try done; [lia|].
      assert (10 ^ N.of_nat (Z.to_nat (- e)) <> 0)
        by (apply N.pow_nonzero; lia). lia. }
  unfold Number_toString. rewrite (proj2 (N.eqb_neq m 0) Hm0). cbv zeta.
  rewrite Hpos.
  assert (Hstrip : drop_zeros (rev (decimal_digits m))
                   = drop_zeros (rev (decimal_digits n))).
  { rewrite Hm, Hdn, !rev_app_distr, !rev_replicate.
    by rewrite !drop_zeros_replicate. }
  rewrite Hstrip.
  destruct (drop_zeros_restore (rev (decimal_digits n))) as [Hrestore Hle].
  rewrite length_rev in Hrestore, Hle.
  set (s := rev (drop_zeros (rev (decimal_digits n)))) in *.
  assert (Hs : length s = length (drop_zeros (rev (decimal_digits n)))).
  { unfold s. by rewrite length_rev. }
  rewrite <- Hs in Hrestore, Hle.
  replace ((Z.of_nat (length s) <=? Z.of_nat (length (decimal_digits n)))
           && (Z.of_nat (length (decimal_digits n)) <=? 21))%Z%bool
    with true.
  2:{ symmetry. apply andb_true_iff. split; apply Z.leb_le; lia. }
  replace (Z.to_nat (Z.of_nat (length (decimal_digits n))
                     - Z.of_nat (length s)))
    with (length (decimal_digits n) - length s)%nat by lia.
  cbn [app]. apply (f_equal (@rev N)) in Hrestore.
  rewrite rev_app_distr, rev_replicate, rev_involutive in Hrestore.
  exact Hrestore.
Qed.

Lemma decimal_digits_all_digits n : Forall (fun c => is_digit c = true) (decimal_digits n).
Proof.
  apply Forall_forall. intros c Hc.
  pose proof (uint_chars_digits (N.to_uint n)) as H.
  rewrite forallb_forall in H. apply H. by apply list_elem_of_In.
Qed.

(** C5, as stated, fails: the label is not padded to two digits when the
    rendering of the index has a character that is no digit. A negative
    index keeps its sign and gets no zero, an infinite index has no digit
    at all. *)
Lemma calculateTargetPath_index_not_padded :
  seriesIndex negative_index_book = Some (Finite true 1 0)
  /\ index_label (Finite true 1 0) = js "-1"
  /\ count_digits (index_label (Finite true 1 0)) = 1%nat
  /\ calculateTargetPath negative_index_book
     = (js "Books", js "Books - -1.epub")
  /\ seriesIndex infinite_index_book = Some (Infinity false)
  /\ count_digits (index_label (Infinity false)) = 0%nat
  /\ calculateTargetPath infinite_index_book
     = (js "Books", js "Books - Infinity.epub").
Proof. repeat split; by vm_compute. Qed.

(** C5, amended: with a non-empty series and a series index, the directory
    is the sanitized series and the file is the sanitized series, " - ",
    the index label and ".epub". Sanitizing collapses the runs of white
    space to one space and then strips the characters outside
    [[A-Za-z0-9 ]]. The label is [String(seriesIndex)] with zeros in front
    up to a width of two characters. For an index that is a natural number
    of at most 15 digits, however it is written, the label is its decimal
    numeral with zeros in front up to two digits; the labels of the other
    indices are as the table [index_labels] shows: a fraction keeps its
    point, a negative index its sign, and a very small, very large or
    infinite index is printed with an exponent or as a word. *)
Theorem calculateTargetPath_series_naming m s ix :
  series m = Some s -> s <> [] -> seriesIndex m = Some ix ->
  calculateTargetPath m
  = (sanitize s, sanitize s ++ js " - " ++ index_label ix ++ js ".epub")
  /\ (forall out, sanitized s out <-> out = sanitize s)
  /\ (2 <= length (index_label ix))%nat
  /\ (forall n : N, is_natural ix n ->
        (length (decimal_digits n) <= 15)%nat ->
        index_label ix
        = replicate (2 - length (decimal_digits n)) 48 ++ decimal_digits n
        /\ Forall (fun c => is_digit c = true) (decimal_digits n)
        /\ digits_value (decimal_digits n) = n)
  /\ (forall text label, (text, label) ∈ index_labels ->
        ix = parseFloat (js text) -> index_label ix = js label).
Proof.
  intros Hs Hne Hix.
  split; [|split; [|split; [apply index_label_width|split]]].
  - rewrite (calculateTargetPath_series m s ix Hs Hne Hix).
    by rewrite padStart_zero.
  - intros out. apply sanitize_sanitized.
  - intros n Hn Hlen. split; [|split].
    + unfold index_label. rewrite (Number_toString_natural ix n Hn) by lia.
      done.
    + apply decimal_digits_all_digits.
    + apply digits_value_decimal.
  - intros text label Hin ->. unfold index_labels in Hin.
    repeat (apply elem_of_cons in Hin as [[= -> ->]|Hin];
            [by vm_compute|]).
    inversion Hin.
Qed.

Lemma calculateTargetPath_series_naming_witness :
  calculateTargetPath
    (mk_meta None None (Some "Books"%string) (Some (parseFloat (js "1.0"))))
  = (js "Books", js "Books - 01.epub")
  /\ index_label (parseFloat (js "1.0")) = js "01".
Proof.
  pose proof (calculateTargetPath_series_naming
    (mk_meta None None (Some "Books"%string) (Some (parseFloat (js "1.0"))))
    (js "Books") (parseFloat (js "1.0")) eq_refl ltac:(discriminate) eq_refl)
    as (H & _ & _ & Hnat & _).
  split; [exact H|].
  exact (proj1 (Hnat 1 eq_refl ltac:(vm_compute; lia))).
Defined.

(** C6, amended: without a series (absent or empty) or without a series
    index, directory and file stem are title, " - " and creator, each
    sanitized, and the default name stands in for a field that is absent or
    empty after sanitization. Sanitizing collapses the runs of white space
    to one space and then strips the characters outside [[A-Za-z0-9 ]], so
    that what it leaves is in [[A-Za-z0-9 ]]. *)
Theorem calculateTargetPath_title_creator_naming m :
  series m = None \/ series m = Some [] \/ seriesIndex m = None ->
  let t := effective_component (title m) (js "Unknown Title") in
  let c := effective_component (creator m) (js "Unknown Creator") in
  calculateTargetPath m = (t ++ js " - " ++ c, (t ++ js " - " ++ c) ++ js ".epub")
  /\ (forall s out, sanitized s out <-> out = sanitize s)
  /\ (forall s, Forall (fun ch => is_alnum_space ch = true) (sanitize s))
  /\ ((forall s, title m = Some s -> sanitize s <> []) ->
      (forall s, creator m = Some s -> sanitize s <> []) ->
      calculateTargetPath m = spec_titleCreatorPath m).
Proof.
  intros H. rewrite (calculateTargetPath_no_series m H).
  unfold titleCreatorPath. rewrite !sanitized_or_effective.
  split; [done|]. split; [apply sanitize_sanitized|].
  split; [apply sanitize_alnum|].
  intros Ht Hc. unfold spec_titleCreatorPath, effective_component, spec_component.
  destruct (title m) as [t|], (creator m) as [c|];
    repeat (rewrite bool_decide_eq_false_2 by eauto); done.
Qed.

Lemma calculateTargetPath_title_creator_naming_witness :
  calculateTargetPath
    (mk_meta (Some "A  Book: One!"%string) (Some "Jane   Doe"%string) None None)
  = (js "A Book One - Jane Doe", js "A Book One - Jane Doe.epub").
Proof.
  pose proof (calculateTargetPath_title_creator_naming
    (mk_meta (Some "A  Book: One!"%string) (Some "Jane   Doe"%string) None None)
    (or_introl eq_refl)) as [H _].
  exact H.
Defined.
